(** * libpak: dependency resolution, artifact cache, archive extraction and
      file listings

    A shallow embedding of the Go sources [buildpack.go] (package libpak and
    the sherpa file listing that follows it), [dependency_cache.go] and
    [layer.go] (its crush part), with the properties of the specification
    stated and proved over it.

    Go library code that is not part of the repository (Masterminds/semver,
    sort, BurntSushi/toml, crypto/sha256, net/http) enters through small
    interfaces; each interface has a concrete instance further down so that
    every statement can be evaluated on concrete inputs. *)

From Stdlib Require Import ZArith NArith Ascii String List Bool Lia.
From Stdlib Require Import Sorting.Sorted Sorting.Permutation.
From stdpp Require Import base option list strings gmap.

Local Open Scope string_scope.
Local Open Scope list_scope.

(** ** Results of fallible Go functions: [(value, nil)] or [(zero, err)]. *)

Inductive result (E A : Type) : Type :=
| Ok (a : A)
| Err (e : E).
Arguments Ok {E A} a.
Arguments Err {E A} e.

Definition is_ok {E A} (r : result E A) : bool :=
  match r with Ok _ => true | Err _ => false end.

(** ** Go slices

    A slice is [nil] or allocated; [reflect.DeepEqual] tells the two apart
    even at length zero, ranging over either visits the same elements. *)

Definition slice (A : Type) : Type := option (list A).

Definition elems {A} (s : slice A) : list A :=
  match s with Some l => l | None => [] end.

(** ** Data model ([buildpack.go]) *)

Record BuildpackDependencyLicense : Type := mkLicense {
  LicenseType : string;
  LicenseURI : string
}.

Record BuildpackDependency : Type := mkDependency {
  ID : string;
  Name : string;
  Version : string;
  URI : string;
  SHA256 : string;
  Stacks : slice string;
  Licenses : slice BuildpackDependencyLicense
}.

#[global] Instance license_eq_dec : EqDecision BuildpackDependencyLicense.
Proof. solve_decision. Defined.

#[global] Instance dependency_eq_dec : EqDecision BuildpackDependency.
Proof. solve_decision. Defined.

(** [BuildpackDependency{}], the zero value. *)
Definition zero_dependency : BuildpackDependency :=
  mkDependency "" "" "" "" "" None None.

(** [reflect.DeepEqual] on two [BuildpackDependency] values: every field is
    compared, slices element by element and by nil-ness. *)
Definition DeepEqual (a b : BuildpackDependency) : bool := bool_decide (a = b).

Record DependencyResolver : Type := mkResolver {
  Dependencies : list BuildpackDependency;
  StackID : string
}.

(** ** The semantic-version library (github.com/Masterminds/semver/v3)

    The resolver uses four entry points of the library: [NewVersion],
    [NewConstraint], [Constraints.Check] and [Version.GreaterThan], the last
    being [Compare(o) > 0].  The laws are those of a comparison that ranks
    versions by precedence. *)

Class SemverLib : Type := {
  SemVersion : Type;
  SemConstraints : Type;
  NewVersion : string -> option SemVersion;
  NewConstraint : string -> option SemConstraints;
  Constraints_Check : SemConstraints -> SemVersion -> bool;
  Version_Compare : SemVersion -> SemVersion -> comparison;
  Version_Compare_refl : forall v, Version_Compare v v = Eq;
  Version_Compare_gt_trans : forall a b c,
    Version_Compare a b = Gt -> Version_Compare b c = Gt ->
    Version_Compare a c = Gt;
  Version_Compare_ngt_trans : forall a b c,
    Version_Compare a b <> Gt -> Version_Compare b c <> Gt ->
    Version_Compare a c <> Gt
}.

Definition GreaterThan `{SemverLib} (a b : SemVersion) : bool :=
  match Version_Compare a b with Gt => true | _ => false end.

(** ** [sort.Slice]

    The contract of the standard library's sort: the outcome is a
    rearrangement of the input, and when [less] is a strict weak ordering
    of the elements no later element is [less] than an earlier one.  The
    sort is not stable. *)

Definition strict_weak_on {A} (less : A -> A -> bool) (l : list A) : Prop :=
  (forall a, In a l -> less a a = false) /\
  (forall a b c, In a l -> In b l -> In c l ->
     less a b = true -> less b c = true -> less a c = true) /\
  (forall a b c, In a l -> In b l -> In c l ->
     less a b = false -> less b c = false -> less a c = false).

Class SortLib : Type := {
  sort_Slice : forall {A : Type}, (A -> A -> bool) -> list A -> list A;
  sort_Slice_perm : forall (A : Type) (less : A -> A -> bool) (l : list A),
    Permutation (sort_Slice less l) l;
  sort_Slice_sorted : forall (A : Type) (less : A -> A -> bool) (l : list A),
    strict_weak_on less l ->
    StronglySorted (fun a b => less b a = false) (sort_Slice less l)
}.

(** ** The version resolver ([buildpack.go], [DependencyResolver]) *)

Inductive ResolveError : Type :=
| InvalidConstraint (version : string)
| UnableToParseVersion (version : string)
| NoValidDependenciesError
    (id version stackID : string) (deps : list BuildpackDependency)
| IndexOutOfRange.

Fixpoint contains (candidates : list string) (value : string) : bool :=
  match candidates with
  | [] => false
  | c :: rest => if String.eqb c value then true else contains rest value
  end.

(** [if version == "" { version = "*" }]. *)
Definition default_constraint (version : string) : string :=
  if String.eqb version "" then "*" else version.

Section Resolver.
Context `{SemverLib} `{SortLib}.

(** The comparator handed to [sort.Slice]: both versions are parsed again
    and compared with [GreaterThan].  A version that fails to parse here
    would be a nil dereference in Go; every candidate has been parsed by
    the loop before, so the last branch is never taken (see
    [candidates_loop_parse]). *)
Definition newer (x y : BuildpackDependency) : bool :=
  match NewVersion (Version x), NewVersion (Version y) with
  | Some a, Some b => GreaterThan a b
  | _, _ => false
  end.

(** The [for _, c := range d.Dependencies] loop with its accumulator. *)
Fixpoint candidates_loop (vc : SemConstraints) (id stack : string)
    (deps : list BuildpackDependency) (candidates : list BuildpackDependency)
    : result ResolveError (list BuildpackDependency) :=
  match deps with
  | [] => Ok candidates
  | c :: rest =>
      match NewVersion (Version c) with
      | None => Err (UnableToParseVersion (Version c))
      | Some v =>
          if String.eqb (ID c) id && Constraints_Check vc v
             && contains (elems (Stacks c)) stack
          then candidates_loop vc id stack rest (candidates ++ [c])
          else candidates_loop vc id stack rest candidates
      end
  end.

(** [candidates[0]] on an empty slice is a run-time panic, which the
    model keeps as [IndexOutOfRange]; [Resolve_never_panics] shows that it
    does not occur. *)
Definition Resolve (d : DependencyResolver) (id version : string)
    : result ResolveError BuildpackDependency :=
  let version := default_constraint version in
  match NewConstraint version with
  | None => Err (InvalidConstraint version)
  | Some vc =>
      match candidates_loop vc id (StackID d) (Dependencies d) [] with
      | Err e => Err e
      | Ok candidates =>
          if Nat.eqb (length candidates) 0
          then Err (NoValidDependenciesError id version (StackID d)
                      (Dependencies d))
          else
            match sort_Slice newer candidates with
            | best :: _ => Ok best
            | [] => Err IndexOutOfRange
            end
      end
  end.

Definition Any (d : DependencyResolver) (id version : string) : bool :=
  is_ok (Resolve d id version).

End Resolver.

(** ** Strings: [strings.Split] with a one-byte separator, decimal numbers *)

Fixpoint split (sep : ascii) (s : string) : list string :=
  match s with
  | EmptyString => [EmptyString]
  | String c rest =>
      if Ascii.eqb c sep then EmptyString :: split sep rest
      else match split sep rest with
           | [] => [String c EmptyString]
           | h :: t => String c h :: t
           end
  end.

Definition digit_of (c : ascii) : option N :=
  let n := N_of_ascii c in
  if (48 <=? n)%N && (n <=? 57)%N then Some (n - 48)%N else None.

Fixpoint parse_digits (s : string) (acc : N) : option N :=
  match s with
  | EmptyString => Some acc
  | String c rest =>
      match digit_of c with
      | Some d => parse_digits rest (10 * acc + d)%N
      | None => None
      end
  end.

(** [strconv.ParseUint(s, 10, 64)]. *)
Definition parse_uint (s : string) : option N :=
  match s with
  | EmptyString => None
  | _ =>
      match parse_digits s 0%N with
      | Some n => if (n <? 2 ^ 64)%N then Some n else None
      | None => None
      end
  end.

(** ** An instance of the sort: insertion into a sorted list *)

Module InsertionSort.

Fixpoint insert {A} (less : A -> A -> bool) (x : A) (l : list A) : list A :=
  match l with
  | [] => [x]
  | y :: t => if less x y then x :: y :: t else y :: insert less x t
  end.

Definition sort {A} (less : A -> A -> bool) (l : list A) : list A :=
  fold_right (insert less) [] l.

End InsertionSort.

(** ** An instance of the version library: plain numeric versions

    The fragment of the library's grammar without pre-release and build
    metadata: versions [v?MAJOR(.MINOR(.PATCH)?)?], constraints ["*"] and
    conjunctions (separated by blanks) of [>=V] and [<V] comparators.  On
    these strings the definitions follow the library; every other string is
    rejected here. *)

Module SemverFragment.

Record version : Type := mkVersion { major : N; minor : N; patch : N }.

Inductive comparator : Type :=
| AtLeast (v : version)
| Below (v : version).

Definition strip_v (s : string) : string :=
  match s with
  | String "v" rest => rest
  | _ => s
  end.

Definition parse_version (s : string) : option version :=
  match split "." (strip_v s) with
  | [a] =>
      match parse_uint a with
      | Some x => Some (mkVersion x 0 0)
      | None => None
      end
  | [a; b] =>
      match parse_uint a, parse_uint b with
      | Some x, Some y => Some (mkVersion x y 0)
      | _, _ => None
      end
  | [a; b; c] =>
      match parse_uint a, parse_uint b, parse_uint c with
      | Some x, Some y, Some z => Some (mkVersion x y z)
      | _, _, _ => None
      end
  | _ => None
  end.

Definition parse_comparator (s : string) : option comparator :=
  match s with
  | String ">" (String "=" rest) => option_map AtLeast (parse_version rest)
  | String "<" rest =>
      match rest with
      | String "=" _ => None
      | _ => option_map Below (parse_version rest)
      end
  | _ => None
  end.

Fixpoint parse_all (parts : list string) : option (list comparator) :=
  match parts with
  | [] => Some []
  | p :: rest =>
      match parse_comparator p, parse_all rest with
      | Some c, Some cs => Some (c :: cs)
      | _, _ => None
      end
  end.

Definition parse_constraint (s : string) : option (list comparator) :=
  if String.eqb s "*" then Some []
  else parse_all (split " " s).

Definition compare (a b : version) : comparison :=
  match N.compare (major a) (major b) with
  | Eq =>
      match N.compare (minor a) (minor b) with
      | Eq => N.compare (patch a) (patch b)
      | c => c
      end
  | c => c
  end.

Definition holds (c : comparator) (v : version) : bool :=
  match c with
  | AtLeast w => match compare v w with Lt => false | _ => true end
  | Below w => match compare v w with Lt => true | _ => false end
  end.

Definition check (cs : list comparator) (v : version) : bool :=
  forallb (fun c => holds c v) cs.

End SemverFragment.

(** ** Paths: [path/filepath] on a slash-separated system

    [Clean], [Join], [Base] and [Dir] work on the segments between
    separators. *)

Fixpoint clean_segments (rooted : bool) (segs : list string)
    (kept : list string) : list string :=
  match segs with
  | [] => rev kept
  | s :: rest =>
      if String.eqb s "" || String.eqb s "." then
        clean_segments rooted rest kept
      else if String.eqb s ".." then
        match kept with
        | top :: below =>
            if String.eqb top ".."
            then clean_segments rooted rest (".." :: kept)
            else clean_segments rooted rest below
        | [] =>
            if rooted then clean_segments rooted rest []
            else clean_segments rooted rest [".."]
        end
      else clean_segments rooted rest (s :: kept)
  end.

Definition filepath_Clean (path : string) : string :=
  let rooted := String.prefix "/" path in
  let out := String.concat "/" (clean_segments rooted (split "/" path) []) in
  if rooted then String.append "/" out
  else if String.eqb out "" then "." else out.

Fixpoint drop_empty (elem : list string) : list string :=
  match elem with
  | [] => []
  | e :: rest => if String.eqb e "" then drop_empty rest else elem
  end.

Definition filepath_Join (elem : list string) : string :=
  match drop_empty elem with
  | [] => ""
  | rest => filepath_Clean (String.concat "/" rest)
  end.

Definition filepath_Base (path : string) : string :=
  if String.eqb path "" then "."
  else
    match rev (List.filter (fun s => negb (String.eqb s ""))
                 (split "/" path)) with
    | [] => "/"
    | last :: _ => last
    end.

Definition filepath_Dir (path : string) : string :=
  match split "/" path with
  | [] | [_] => filepath_Clean ""
  | segs => filepath_Clean (String.concat "/" (removelast segs ++ [""]))
  end.

(** ** File contents, hashing and the network

    A file holds bytes.  Of the TOML codec (github.com/BurntSushi/toml) the
    cache needs one fact about a file, whether it decodes into a dependency
    descriptor and which one, so a content is kept as that descriptor when
    it is one. *)

Inductive FileContent : Type :=
| Bytes (b : string)
| Metadata (d : BuildpackDependency).

(** [hex.EncodeToString(sha256.Sum(content))]. *)
Class Sha256Lib : Type := { sha256_hex : FileContent -> string }.

(** What [client.Do] returns for a GET request: an error, or a response
    with its status and body. *)
Inductive Response : Type :=
| Unreachable
| Status (code : Z) (body : FileContent).

(** What the calls of one run do not change.  [origin uri] is what
    [client.Do] returns for the GET request of [uri] (over the network, or
    from the file system for the file scheme); the client is built without
    a redirect policy, so it follows redirects by its default one, and one
    call of [client.Do] can stand for several requests on the wire.
    [can_request uri]: [http.NewRequest] accepts the URI.  [can_mkdir] and
    [can_create]: the directory can be made, the file can be opened for
    writing.  [copy_stops uri destination]: [io.Copy] from the body to the
    file goes to the end ([None]) or fails with this much in the file.
    [can_read path]: the file can be read to its end.  [encode_stops
    file]: the encoder writes the whole sidecar ([None]) or fails with
    this much in the file. *)
Record Env : Type := mkEnv {
  origin : string -> Response;
  can_mkdir : string -> bool;
  can_create : string -> bool;
  can_request : string -> bool;
  copy_stops : string -> string -> option FileContent;
  can_read : string -> bool;
  encode_stops : string -> option FileContent
}.

(** The calls that are recorded; [EvGet uri] is one call of [client.Do]
    with the GET request for [uri]. *)
Inductive Event : Type :=
| EvGet (uri : string)
| EvMkdirAll (dir : string)
| EvCreate (path : string)
| EvDecodeFile (file : string)
| EvEncode (file : string)
| EvOpen (path : string).

(** The disk, and the calls made so far (oldest first). *)
Record Disk : Type := mkDisk {
  files : gmap string FileContent;
  trace : list Event
}.

Definition record (e : Event) (s : Disk) : Disk :=
  mkDisk (files s) (trace s ++ [e]).

Definition store (path : string) (c : FileContent) (s : Disk) : Disk :=
  mkDisk (<[path := c]> (files s)) (trace s).

(** ** The artifact cache ([dependency_cache.go]) *)

Record DependencyCache : Type := mkCache {
  CachePath : string;
  DownloadPath : string;
  UserAgent : string
}.

Inductive DownloadError : Type :=
| UnableToCreateRequest (uri : string)
| UnableToRequest (uri : string)
| CouldNotDownload (uri : string) (code : Z)
| DownloadMkdir (dir : string)
| DownloadOpenFile (destination : string)
| UnableToCopy (uri destination : string).

Inductive ArtifactError : Type :=
| UnableToDownload (uri : string) (cause : DownloadError)
| UnableToDecodeMetadata (file : string)
| UnableToVerify (path : string)
| UnableToRead (path : string)
| Sha256Mismatch (path actual expected : string)
| UnableToMakeDirectory (dir : string)
| UnableToOpenFile (file : string)
| UnableToWriteMetadata (file : string)
| OpenFailed (path : string).

(** State and error threading for the cache's calls. *)
Definition Op (E A : Type) : Type := Disk -> result E A * Disk.

Definition ret {E A} (a : A) : Op E A := fun s => (Ok a, s).
Definition fail {E A} (e : E) : Op E A := fun s => (Err e, s).
Definition bind {E A B} (m : Op E A) (k : A -> Op E B) : Op E B :=
  fun s => match m s with
           | (Ok a, s') => k a s'
           | (Err e, s') => (Err e, s')
           end.
Definition emit {E} (e : Event) : Op E unit := fun s => (Ok tt, record e s).
Definition map_err {E F A} (f : E -> F) (m : Op E A) : Op F A :=
  fun s => match m s with
           | (Ok a, s') => (Ok a, s')
           | (Err e, s') => (Err (f e), s')
           end.

Notation "x <- m ;; k" := (bind m (fun x => k))
  (at level 100, m at next level, right associativity).
Notation "m ;;; k" := (bind m (fun _ => k))
  (at level 100, right associativity).

Section Cache.
Context `{Sha256Lib}.
Variable env : Env.

(** [os.Open]: the stream of the file at [path]. *)
Definition os_Open {E} (failed : string -> E) (path : string)
    : Op E FileContent :=
  emit (EvOpen path) ;;;
  fun s => match files s !! path with
           | Some c => (Ok c, s)
           | None => (Err (failed path), s)
           end.

(** Modelled from the spec: [toml.DecodeFile(file, &actual)] of the TOML
    library, which is not part of the repository.  A sidecar holds the
    full descriptor and decoding puts it into [actual]; a missing file is
    the [os.IsNotExist] error, which the caller ignores and which leaves
    [actual] as it was; any other content does not decode. *)
Definition toml_DecodeFile (file : string) (actual : BuildpackDependency)
    : Op ArtifactError BuildpackDependency :=
  emit (EvDecodeFile file) ;;;
  fun s => match files s !! file with
           | None => (Ok actual, s)
           | Some (Metadata d) => (Ok d, s)
           | Some (Bytes _) => (Err (UnableToDecodeMetadata file), s)
           end.

(** Modelled from the spec: [toml.NewEncoder(out).Encode(dependency)] on
    the file just opened with [O_CREATE|O_TRUNC]; the sidecar then holds
    the full descriptor.  When the encoder returns an error the file holds
    what had been written by then. *)
Definition toml_Encode (file : string) (dependency : BuildpackDependency)
    : Op ArtifactError unit :=
  emit (EvEncode file) ;;;
  match encode_stops env file with
  | Some partial =>
      fun s => (Err (UnableToWriteMetadata file), store file partial s)
  | None => fun s => (Ok tt, store file (Metadata dependency) s)
  end.

(** [download]: [http.NewRequest] may refuse the URI before anything is
    sent; [client.Do] (with the configured User-Agent, through the
    environment's proxy, or served from the file system for the file
    scheme) is called once, and [origin] tells what it returns; the
    destination is opened with
    [O_CREATE|O_TRUNC] and the body copied to it, and a copy that fails
    leaves the part written in the file. *)
Definition download (uri destination : string) : Op DownloadError unit :=
  if negb (can_request env uri) then fail (UnableToCreateRequest uri)
  else
    emit (EvGet uri) ;;;
    match origin env uri with
    | Unreachable => fail (UnableToRequest uri)
    | Status code body =>
        if (code <? 200)%Z || (299 <? code)%Z
        then fail (CouldNotDownload uri code)
        else
          emit (EvMkdirAll (filepath_Dir destination)) ;;;
          if negb (can_mkdir env (filepath_Dir destination))
          then fail (DownloadMkdir (filepath_Dir destination))
          else
            emit (EvCreate destination) ;;;
            if negb (can_create env destination)
            then fail (DownloadOpenFile destination)
            else
              (fun s => (Ok tt, store destination (Bytes "") s)) ;;;
              match copy_stops env uri destination with
              | Some partial =>
                  fun s => (Err (UnableToCopy uri destination),
                            store destination partial s)
              | None => fun s => (Ok tt, store destination body s)
              end
    end.

(** [verify]: open the file at [path], read it through the hash, and
    compare the digest with [expected]. *)
Definition verify (path expected : string) : Op ArtifactError unit :=
  content <- os_Open UnableToVerify path ;;
  if negb (can_read env path) then fail (UnableToRead path)
  else
    let actual := sha256_hex content in
    if negb (String.eqb expected actual)
    then fail (Sha256Mismatch path actual expected)
    else ret tt.

(** [Artifact]; the [*os.File] returned is kept as the content it gives
    access to.  The calls to the logger are left out. *)
Definition Artifact (d : DependencyCache) (dependency : BuildpackDependency)
    : Op ArtifactError FileContent :=
  if String.eqb (SHA256 dependency) "" then
    let artifact :=
      filepath_Join [DownloadPath d; filepath_Base (URI dependency)] in
    map_err (UnableToDownload (URI dependency))
      (download (URI dependency) artifact) ;;;
    os_Open OpenFailed artifact
  else
    let file := filepath_Join
      [CachePath d; String.append (SHA256 dependency) ".toml"] in
    actual <- toml_DecodeFile file zero_dependency ;;
    if DeepEqual dependency actual then
      os_Open OpenFailed (filepath_Join
        [CachePath d; SHA256 dependency; filepath_Base (URI dependency)])
    else
      let file := filepath_Join
        [DownloadPath d; String.append (SHA256 dependency) ".toml"] in
      actual <- toml_DecodeFile file actual ;;
      if DeepEqual dependency actual then
        os_Open OpenFailed (filepath_Join
          [DownloadPath d; SHA256 dependency;
           filepath_Base (URI dependency)])
      else
        let artifact := filepath_Join
          [DownloadPath d; SHA256 dependency;
           filepath_Base (URI dependency)] in
        map_err (UnableToDownload (URI dependency))
          (download (URI dependency) artifact) ;;;
        verify artifact (SHA256 dependency) ;;;
        let file := filepath_Join
          [DownloadPath d; String.append (SHA256 dependency) ".toml"] in
        emit (EvMkdirAll (filepath_Dir file)) ;;;
        (if negb (can_mkdir env (filepath_Dir file))
         then fail (UnableToMakeDirectory (filepath_Dir file))
         else ret tt) ;;;
        emit (EvCreate file) ;;;
        (if negb (can_create env file)
         then fail (UnableToOpenFile file)
         else fun s => (Ok tt, store file (Bytes "") s)) ;;;
        toml_Encode file dependency ;;;
        os_Open OpenFailed artifact.

End Cache.

(** ** Archive extraction ([layer.go], package crush) *)

(** What [FileInfo()] of an archive entry is asked: [IsDir()], then
    [Mode()&os.ModeSymlink], anything else is written as a file. *)
Inductive EntryKind : Type := KDir | KSymlink | KFile.

Record TarEntry : Type := mkEntry {
  EntryName : string;
  EntryLinkname : string;
  EntryType : EntryKind;
  EntryMode : Z;
  EntryBody : string
}.

(** A tar stream as [t.Next()] hands it out: the entries, then [io.EOF] or
    another read error. *)
Record TarReader : Type := mkTar {
  TarEntries : list TarEntry;
  TarBroken : bool
}.

Inductive FsOp : Type :=
| OpMkdirAll (path : string) (perm : Z)
| OpSymlink (oldName newName : string)
| OpWriteFile (path : string) (perm : Z) (body : string).

Inductive CrushError : Type :=
| UnableToReadTar
| UnableToMakeDir (path : string)
| UnableToCreateDirectory (path : string)
| UnableToOpen (path : string)
| UnableToSymlink (newName oldName : string)
| SliceBoundsOutOfRange.

(** [strippedPath]; [stripComponents] is a Go [int].  The empty string is
    the "skip this entry" answer.  Slicing [components[stripComponents:]]
    with a negative bound is a run-time panic ([None]). *)
Definition strippedPath (source destination : string) (stripComponents : Z)
    : option string :=
  let components := split "/" source in
  if (Z.of_nat (length components) <=? stripComponents)%Z then Some ""
  else if (stripComponents <? 0)%Z then None
  else Some (filepath_Join
               (destination :: skipn (Z.to_nat stripComponents) components)).

Section Crush.
(** Which file-system calls fail (permissions, a file in the way, ...). *)
Variable fails : FsOp -> bool.

(** The calls made so far, oldest first, and how the extraction ended. *)
Definition Extraction : Type := list FsOp * option CrushError.

Definition attempt (op : FsOp) (e : CrushError) (done : list FsOp)
    (next : list FsOp -> Extraction) : Extraction :=
  if fails op then (done, Some e) else next (done ++ [op]).

Definition writeFile (body path : string) (perm : Z) (done : list FsOp)
    (next : list FsOp -> Extraction) : Extraction :=
  let file := filepath_Dir path in
  attempt (OpMkdirAll file 493) (UnableToCreateDirectory file) done
    (fun done =>
       attempt (OpWriteFile path perm body) (UnableToOpen path) done next).

Definition writeSymlink (oldName newName : string) (done : list FsOp)
    (next : list FsOp -> Extraction) : Extraction :=
  let file := filepath_Dir newName in
  attempt (OpMkdirAll file 493) (UnableToCreateDirectory file) done
    (fun done =>
       attempt (OpSymlink oldName newName)
         (UnableToSymlink newName oldName) done next).

(** One turn of the [for] loop of [ExtractTar] on the entry [f]. *)
Definition extract_entry (destination : string) (stripComponents : Z)
    (f : TarEntry) (done : list FsOp) (next : list FsOp -> Extraction)
    : Extraction :=
  match strippedPath (EntryName f) destination stripComponents with
  | None => (done, Some SliceBoundsOutOfRange)
  | Some target =>
      if String.eqb target "" then next done
      else
        match EntryType f with
        | KDir =>
            attempt (OpMkdirAll target 493) (UnableToMakeDir target) done
              next
        | KSymlink => writeSymlink (EntryLinkname f) target done next
        | KFile => writeFile (EntryBody f) target (EntryMode f) done next
        end
  end.

Fixpoint extract_loop (destination : string) (stripComponents : Z)
    (entries : list TarEntry) (broken : bool) (done : list FsOp)
    : Extraction :=
  match entries with
  | [] => if broken then (done, Some UnableToReadTar) else (done, None)
  | f :: rest =>
      extract_entry destination stripComponents f done
        (extract_loop destination stripComponents rest broken)
  end.

Definition ExtractTar (source : TarReader) (destination : string)
    (stripComponents : Z) : Extraction :=
  extract_loop destination stripComponents (TarEntries source)
    (TarBroken source) [].

End Crush.

(** ** The file listing ([buildpack.go], package sherpa) *)

Record FileEntry : Type := mkFileEntry {
  Path : string;
  Mode : string;
  ModificationTime : string;
  EntrySHA256 : string
}.

(** [info.Mode().String()] and [info.ModTime().Format(time.RFC3339)]. *)
Record FileInfo : Type := mkInfo {
  ModeString : string;
  ModTimeRFC3339 : string
}.

(** Opening and reading a file that is not a directory. *)
Inductive ReadOutcome : Type :=
| Readable (content : FileContent)
| OpenFails
| CopyFails.

(** The tree below a path as [filepath.Walk] meets it: [os.Lstat] may fail,
    reading a directory's names may fail ([None]). *)
#[local] Unset Elimination Schemes.
Inductive Node : Type :=
| Unstatable (name : string)
| FileNode (name : string) (info : FileInfo) (data : ReadOutcome)
| DirNode (name : string) (info : FileInfo) (children : option (list Node)).
#[local] Set Elimination Schemes.

Definition node_name (n : Node) : string :=
  match n with
  | Unstatable name | FileNode name _ _ | DirNode name _ _ => name
  end.

(** What the callback sees of an entry: [info.IsDir()], and for anything
    else what opening and reading it gives. *)
Inductive Visited : Type :=
| IsDirectory
| NotDirectory (data : ReadOutcome).

Record Visit : Type := mkVisit {
  VisitPath : string;
  VisitInfo : FileInfo;
  VisitKind : Visited
}.

Inductive ListingError : Type :=
| LstatError (path : string)
| ReadDirError (path : string)
| UnableToOpenListed (path : string)
| UnableToHash (path : string).

(** [filepath.Walk(root, fn)] with the callback of [NewFileListing], which
    hands back every error it is given: the visits in walk order (the root
    first, then each directory before its children), or the error that
    stopped the walk. *)
Fixpoint walk (path : string) (n : Node) : result ListingError (list Visit) :=
  match n with
  | Unstatable _ => Err (LstatError path)
  | FileNode _ info data => Ok [mkVisit path info (NotDirectory data)]
  | DirNode _ info None => Err (ReadDirError path)
  | DirNode _ info (Some children) =>
      let fix walk_names (cs : list Node) : result ListingError (list Visit) :=
        match cs with
        | [] => Ok []
        | c :: rest =>
            match walk (filepath_Join [path; node_name c]) c with
            | Err e => Err e
            | Ok vs =>
                match walk_names rest with
                | Err e => Err e
                | Ok ws => Ok (vs ++ ws)
                end
            end
        end in
      match walk_names children with
      | Err e => Err e
      | Ok vs => Ok (mkVisit path info IsDirectory :: vs)
      end
  end.

(** What one goroutine sends on the channel. *)
Definition unit_result : Type := result ListingError FileEntry.

Section Listing.
Context `{Sha256Lib} `{SortLib}.

(** The body of the goroutine started for one visited entry. *)
Definition unit_of (v : Visit) : unit_result :=
  let e := mkFileEntry (VisitPath v) (ModeString (VisitInfo v))
             (ModTimeRFC3339 (VisitInfo v)) "" in
  match VisitKind v with
  | IsDirectory => Ok e
  | NotDirectory OpenFails => Err (UnableToOpenListed (VisitPath v))
  | NotDirectory CopyFails => Err (UnableToHash (VisitPath v))
  | NotDirectory (Readable content) =>
      Ok (mkFileEntry (Path e) (Mode e) (ModificationTime e)
            (sha256_hex content))
  end.

(** The goroutines started by the walk: one for every visit whose path is
    not [root]. *)
Definition spawned (root : string) (visits : list Visit) : list Visit :=
  List.filter (fun v => negb (String.eqb (VisitPath v) root)) visits.

(** The [for r := range ch] loop: results are taken in the order they
    arrive; the first error ends the call. *)
Fixpoint drain (arrived : list unit_result) (e : list FileEntry)
    : result ListingError (list FileEntry) :=
  match arrived with
  | [] => Ok e
  | Err err :: _ => Err err
  | Ok value :: rest => drain rest (e ++ [value])
  end.

Definition by_path (a b : FileEntry) : bool := String.ltb (Path a) (Path b).

Definition collect (arrived : list unit_result)
    : result ListingError (list FileEntry) :=
  match drain arrived [] with
  | Err err => Err err
  | Ok e => Ok (sort_Slice by_path e)
  end.

(** [NewFileListing root] over the tree [tree] found at [root].  The
    goroutines run concurrently, so their results reach the channel in
    any order: every rearrangement [arrived] of what they send is a
    possible run. *)
Inductive NewFileListing (root : string) (tree : Node)
    : result ListingError (list FileEntry) -> Prop :=
| listing_walk_fails e :
    walk root tree = Err e ->
    NewFileListing root tree (Err e)
| listing_collects visits arrived :
    walk root tree = Ok visits ->
    Permutation arrived (map unit_of (spawned root visits)) ->
    NewFileListing root tree (collect arrived).

(** The run in which results arrive in walk order. *)
Definition NewFileListing_in_walk_order (root : string) (tree : Node)
    : result ListingError (list FileEntry) :=
  match walk root tree with
  | Err e => Err e
  | Ok visits => collect (map unit_of (spawned root visits))
  end.

End Listing.

(** The names leading from the walked root down to each entry below it, in
    walk order. *)
Fixpoint chains (n : Node) : list (list string) :=
  match n with
  | DirNode _ _ (Some children) =>
      let fix below (cs : list Node) : list (list string) :=
        match cs with
        | [] => []
        | c :: rest =>
            ([node_name c] :: map (cons (node_name c)) (chains c))
            ++ below rest
        end in
      below children
  | _ => []
  end.

(** The path [filepath.Walk] builds for an entry: the root as given,
    joined with one name after the other. *)
Definition walked_path (root : string) (names : list string) : string :=
  fold_left (fun p name => filepath_Join [p; name]) names root.

(** The entry's path relative to the root, as [filepath.Rel] would give it
    for plain names. *)
Definition relative_path (names : list string) : string :=
  String.concat "/" names.

(** * Notions used in the statements *)

(** ** The resolver *)

Section ResolverNotions.
Context `{SemverLib}.

(** The condition of the [if] inside the loop. *)
Definition matches (vc : SemConstraints) (id stack : string)
    (c : BuildpackDependency) : bool :=
  match NewVersion (Version c) with
  | Some v =>
      String.eqb (ID c) id && Constraints_Check vc v
      && contains (elems (Stacks c)) stack
  | None => false
  end.

(** The candidate set in the words of the specification. *)
Definition candidate (vc : SemConstraints) (id stack : string)
    (c : BuildpackDependency) : Prop :=
  ID c = id
  /\ (exists v, NewVersion (Version c) = Some v
                /\ Constraints_Check vc v = true)
  /\ In stack (elems (Stacks c)).

Definition parses (c : BuildpackDependency) : Prop :=
  exists v, NewVersion (Version c) = Some v.

End ResolverNotions.

(** ** The cache *)

(** Where a tier keeps the sidecar and the artifact of a dependency, and
    where a download without digest goes. *)
Definition sidecar_path (tier : string) (dep : BuildpackDependency) : string :=
  filepath_Join [tier; String.append (SHA256 dep) ".toml"].

Definition artifact_path (tier : string) (dep : BuildpackDependency)
    : string :=
  filepath_Join [tier; SHA256 dep; filepath_Base (URI dep)].

Definition undigested_path (d : DependencyCache) (dep : BuildpackDependency)
    : string :=
  filepath_Join [DownloadPath d; filepath_Base (URI dep)].

(** What [os.Open] gives for a path on a disk. *)
Definition opened (s : Disk) (path : string)
    : result ArtifactError FileContent :=
  match files s !! path with
  | Some c => Ok c
  | None => Err (OpenFailed path)
  end.

(** The sidecar at [path] is on disk but does not decode. *)
Definition undecodable (s : Disk) (path : string) : Prop :=
  exists b, files s !! path = Some (Bytes b).

(** The sidecar at [path] is neither the requested descriptor nor
    undecodable: it is missing, or it describes something else. *)
Definition no_hit (s : Disk) (path : string) (dep : BuildpackDependency)
    : Prop :=
  files s !! path = None
  \/ exists a, files s !! path = Some (Metadata a) /\ a <> dep.

Section CacheNotions.
Context `{Sha256Lib}.
Variable env : Env.

(** The rest of [Artifact] once both tiers have missed. *)
Definition fetch_verify_persist (d : DependencyCache)
    (dependency : BuildpackDependency) : Op ArtifactError FileContent :=
  let artifact := artifact_path (DownloadPath d) dependency in
  map_err (UnableToDownload (URI dependency))
    (download env (URI dependency) artifact) ;;;
  verify env artifact (SHA256 dependency) ;;;
  let file := sidecar_path (DownloadPath d) dependency in
  emit (EvMkdirAll (filepath_Dir file)) ;;;
  (if negb (can_mkdir env (filepath_Dir file))
   then fail (UnableToMakeDirectory (filepath_Dir file))
   else ret tt) ;;;
  emit (EvCreate file) ;;;
  (if negb (can_create env file)
   then fail (UnableToOpenFile file)
   else fun s => (Ok tt, store file (Bytes "") s)) ;;;
  toml_Encode env file dependency ;;;
  os_Open OpenFailed artifact.

End CacheNotions.

(** ** The extraction *)

(** What placing one entry under [destination] amounts to, in the words of
    the specification: an entry with no segments left after stripping is
    skipped; otherwise the remaining segments are joined to the
    destination and the entry is created there according to its kind. *)
Definition create_at (target : string) (f : TarEntry) : list FsOp :=
  if String.eqb target "" then []
  else
    match EntryType f with
    | KDir => [OpMkdirAll target 493]
    | KSymlink =>
        [OpMkdirAll (filepath_Dir target) 493;
         OpSymlink (EntryLinkname f) target]
    | KFile =>
        [OpMkdirAll (filepath_Dir target) 493;
         OpWriteFile target (EntryMode f) (EntryBody f)]
    end.

Definition placed (destination : string) (stripComponents : nat)
    (f : TarEntry) : list FsOp :=
  let segments := split "/" (EntryName f) in
  if Nat.leb (length segments) stripComponents then []
  else create_at (filepath_Join (destination :: skipn stripComponents segments))
         f.

Definition never (_ : FsOp) : bool := false.

(** ** The listing *)

(** The loops over a directory's names inside [walk] and [chains]. *)
Fixpoint walk_names (path : string) (cs : list Node)
    : result ListingError (list Visit) :=
  match cs with
  | [] => Ok []
  | c :: rest =>
      match walk (filepath_Join [path; node_name c]) c with
      | Err e => Err e
      | Ok vs =>
          match walk_names path rest with
          | Err e => Err e
          | Ok ws => Ok (vs ++ ws)
          end
      end
  end.

Fixpoint chains_below (cs : list Node) : list (list string) :=
  match cs with
  | [] => []
  | c :: rest =>
      ([node_name c] :: map (cons (node_name c)) (chains c))
      ++ chains_below rest
  end.

Section ListingNotions.
Context `{Sha256Lib}.

(** The entry a successful goroutine sends for a visit: the path as
    visited, mode and modification time, and the digest of the content for
    what is not a directory. *)
Definition listed (v : Visit) : FileEntry :=
  mkFileEntry (VisitPath v) (ModeString (VisitInfo v))
    (ModTimeRFC3339 (VisitInfo v))
    match VisitKind v with
    | NotDirectory (Readable content) => sha256_hex content
    | _ => ""
    end.

Definition values_of (r : unit_result) : list FileEntry :=
  match r with Ok e => [e] | Err _ => [] end.

End ListingNotions.

(** * Concrete inputs *)

Definition jdk (version : string) (stacks : list string)
    : BuildpackDependency :=
  mkDependency "jdk" "JDK" version
    (String.append "https://example.com/jdk-" version)
    "576dd8416de5619ea001d9662291d62444d1292a38e96956bc4651c01f14bca1"
    (Some stacks) None.

Definition sample_resolver : DependencyResolver :=
  mkResolver
    [jdk "9.0.0" ["bionic"]; jdk "10.0.0" ["bionic"; "tiny"];
     jdk "11.0.2" ["tiny"];
     mkDependency "maven" "Maven" "12.0.0" "https://example.com/mvn" ""
       (Some ["bionic"]) None]
    "bionic".

Definition jdk11_resolver : DependencyResolver :=
  mkResolver [jdk "11.0.2" ["bionic"]] "bionic".

Definition poisoned_resolver : DependencyResolver :=
  mkResolver
    [jdk "11.0.2" ["bionic"];
     mkDependency "maven" "Maven" "latest" "https://example.com/mvn" ""
       (Some ["tiny"]) None]
    "bionic".

(** A stand-in for the hash function, enough to tell contents apart. *)
Definition stand_in_digest (c : FileContent) : string :=
  match c with
  | Bytes b => String.append "sha256-of-" b
  | Metadata d => String.append "sha256-of-descriptor-" (ID d)
  end.

#[export] Instance stand_in_Sha256Lib : Sha256Lib :=
  {| sha256_hex := stand_in_digest |}.

Definition test_cache : DependencyCache :=
  mkCache "/cnb/dependencies" "/tmp/downloads" "test-user-agent".

Definition test_dependency : BuildpackDependency :=
  mkDependency "test-id" "test-name" "1.1.1" "https://example.com/test-path"
    "sha256-of-test-fixture" (Some ["test-stack"])
    (Some [mkLicense "test-type" "test-uri"]).

(** The same artifact under another name. *)
Definition renamed_dependency : BuildpackDependency :=
  mkDependency "test-id" "other-name" "1.1.1" "https://example.com/test-path"
    "sha256-of-test-fixture" (Some ["test-stack"])
    (Some [mkLicense "test-type" "test-uri"]).

Definition undigested_dependency : BuildpackDependency :=
  mkDependency "test-id" "test-name" "1.1.1" "https://example.com/test-path"
    "" (Some ["test-stack"]) (Some [mkLicense "test-type" "test-uri"]).

(** Every URI is answered with [content]; nothing fails. *)
Definition serving_content (content : FileContent) : Env :=
  mkEnv (fun _ => Status 200 content) (fun _ => true) (fun _ => true)
    (fun _ => true) (fun _ _ => None) (fun _ => true) (fun _ => None).

Definition serving (body : string) : Env := serving_content (Bytes body).



(** Both tiers hold the test dependency and its artifact. *)
Definition both_tiers : Disk :=
  mkDisk
    (<["/cnb/dependencies/sha256-of-test-fixture.toml" :=
         Metadata test_dependency]>
     (<["/cnb/dependencies/sha256-of-test-fixture/test-path" :=
          Bytes "test-fixture"]>
      (<["/tmp/downloads/sha256-of-test-fixture.toml" :=
           Metadata test_dependency]>
       (<["/tmp/downloads/sha256-of-test-fixture/test-path" :=
            Bytes "test-fixture"]> ∅))))
    [].

(** Only the download tier holds it. *)
Definition download_tier_only : Disk :=
  mkDisk
    (<["/tmp/downloads/sha256-of-test-fixture.toml" :=
         Metadata test_dependency]>
     (<["/tmp/downloads/sha256-of-test-fixture/test-path" :=
          Bytes "test-fixture"]> ∅))
    [].


Definition c_txt : TarEntry := mkEntry "a/b/c.txt" "" KFile 420 "content".

Definition rw_file : FileInfo := mkInfo "-rw-r--r--" "2020-02-20T10:00:00Z".
Definition a_dir : FileInfo := mkInfo "drwxr-xr-x" "2020-02-20T10:00:00Z".

(** The tree [{x.txt, y/z.txt}] found at [/layers/app]. *)
Definition app_tree : Node :=
  DirNode "app" a_dir
    (Some [FileNode "x.txt" rw_file (Readable (Bytes "x"));
           DirNode "y" a_dir
             (Some [FileNode "z.txt" rw_file (Readable (Bytes "z"))])]).

Definition app_listing : list FileEntry :=
  [mkFileEntry "/layers/app/x.txt" "-rw-r--r--" "2020-02-20T10:00:00Z"
     "sha256-of-x";
   mkFileEntry "/layers/app/y" "drwxr-xr-x" "2020-02-20T10:00:00Z" "";
   mkFileEntry "/layers/app/y/z.txt" "-rw-r--r--" "2020-02-20T10:00:00Z"
     "sha256-of-z"].

Definition app_visits : list Visit :=
  [mkVisit "/layers/app" a_dir IsDirectory;
   mkVisit "/layers/app/x.txt" rw_file (NotDirectory (Readable (Bytes "x")));
   mkVisit "/layers/app/y" a_dir IsDirectory;
   mkVisit "/layers/app/y/z.txt" rw_file
     (NotDirectory (Readable (Bytes "z")))].

(** * Further models *)

(** ** Extraction, call by call *)

(** The file-system calls that creating an entry at [target] makes, in
    order, each with the error [ExtractTar] returns when it fails. *)
Definition steps_at (target : string) (f : TarEntry)
    : list (FsOp * CrushError) :=
  if String.eqb target "" then []
  else
    match EntryType f with
    | KDir => [(OpMkdirAll target 493, UnableToMakeDir target)]
    | KSymlink =>
        [(OpMkdirAll (filepath_Dir target) 493,
          UnableToCreateDirectory (filepath_Dir target));
         (OpSymlink (EntryLinkname f) target,
          UnableToSymlink target (EntryLinkname f))]
    | KFile =>
        [(OpMkdirAll (filepath_Dir target) 493,
          UnableToCreateDirectory (filepath_Dir target));
         (OpWriteFile target (EntryMode f) (EntryBody f),
          UnableToOpen target)]
    end.

Definition steps (destination : string) (stripComponents : nat)
    (f : TarEntry) : list (FsOp * CrushError) :=
  let segments := split "/" (EntryName f) in
  if Nat.leb (length segments) stripComponents then []
  else steps_at
         (filepath_Join (destination :: skipn stripComponents segments)) f.

(** An error that comes from a file-system call. *)
Definition from_call (e : CrushError) : bool :=
  match e with
  | UnableToReadTar | SliceBoundsOutOfRange => false
  | _ => true
  end.

Section CrushNotions.
Variable fails : FsOp -> bool.

(** Calls made one after the other until one fails. *)
Fixpoint attempts (todo : list (FsOp * CrushError)) (done : list FsOp)
    (next : list FsOp -> Extraction) : Extraction :=
  match todo with
  | [] => next done
  | (op, e) :: rest =>
      attempt fails op e done (fun done => attempts rest done next)
  end.

(** How an extraction ended, against [all] the calls there were to make:
    the calls made are an initial part of them and did not fail; what is
    left starts with the call that failed, or is nothing. *)
Definition stopped (all : list FsOp) (out : Extraction)
    (broken : bool) : Prop :=
  exists rest,
    all = fst out ++ rest
    /\ Forall (fun op => fails op = false) (fst out)
    /\ match snd out with
       | None => rest = [] /\ broken = false
       | Some e =>
           if from_call e
           then exists op rest', rest = op :: rest' /\ fails op = true
           else e = UnableToReadTar /\ rest = [] /\ broken = true
       end.

End CrushNotions.

(** ** [ExtractZip] ([layer.go], package crush) *)





Section Zip.
Variable fails : FsOp -> bool.





End Zip.


(** ** Buildpack metadata ([buildpack.go], [NewBuildpackMetadata])

    The metadata arrives as a [map[string]interface{}].  The dynamic types
    the code asserts are strings, [[]interface{}], [[]map[string]interface{}]
    and [map[string]interface{}]; every other type behaves alike.  A Go map
    is kept as a list of pairs in which the first pair of a key is its
    entry. *)

#[local] Unset Elimination Schemes.
Inductive Value : Type :=
| VString (s : string)
| VArray (items : list Value)
| VTables (tables : list (list (string * Value)))
| VTable (table : list (string * Value))
| VOther.
#[local] Set Elimination Schemes.

Module Metadata.

Definition Table : Type := list (string * Value).

(** [m[key]] with its [ok]. *)
Fixpoint get (key : string) (m : Table) : option Value :=
  match m with
  | [] => None
  | (k, v) :: rest => if String.eqb k key then Some v else get key rest
  end.

(** The entries a [range] over the map visits: one per key. *)
Fixpoint entries (m : Table) : list (string * Value) :=
  match m with
  | [] => []
  | (k, v) :: rest =>
      (k, v)
      :: List.filter (fun kv => negb (String.eqb (fst kv) k)) (entries rest)
  end.

(** A failed type assertion without [ok]. *)
Inductive Panic : Type := InterfaceConversion.

(** [append(s, x)]. *)
Definition append {A} (s : slice A) (x : A) : slice A :=
  Some (elems s ++ [x]).

Record BuildpackMetadata : Type := mkMetadata {
  DefaultVersions : gmap string string;
  Dependencies : slice BuildpackDependency;
  IncludeFiles : slice string;
  PrePackage : string
}.

(** [if v, ok := m[key].(string); ok { field = v }] on a zero field. *)
Definition string_field (key : string) (m : Table) : string :=
  match get key m with
  | Some (VString s) => s
  | _ => ""
  end.

(** [for _, v := range items { s = append(s, v.(string)) }]. *)
Fixpoint append_strings (items : list Value) (s : slice string)
    : result Panic (slice string) :=
  match items with
  | [] => Ok s
  | VString x :: rest => append_strings rest (append s x)
  | _ :: _ => Err InterfaceConversion
  end.

Definition license_of (m : Table) : BuildpackDependencyLicense :=
  mkLicense (string_field "type" m) (string_field "uri" m).

Fixpoint append_licenses (tables : list Table)
    (s : slice BuildpackDependencyLicense)
    : slice BuildpackDependencyLicense :=
  match tables with
  | [] => s
  | m :: rest => append_licenses rest (append s (license_of m))
  end.

(** The body of the loop over the dependency tables. *)
Definition dependency_of (m : Table) : result Panic BuildpackDependency :=
  match
    match get "stacks" m with
    | Some (VArray items) => append_strings items None
    | _ => Ok None
    end
  with
  | Err p => Err p
  | Ok stacks =>
      Ok (mkDependency (string_field "id" m) (string_field "name" m)
            (string_field "version" m) (string_field "uri" m)
            (string_field "sha256" m) stacks
            match get "licenses" m with
            | Some (VTables tables) => append_licenses tables None
            | _ => None
            end)
  end.

Fixpoint append_dependencies (tables : list Table)
    (s : slice BuildpackDependency)
    : result Panic (slice BuildpackDependency) :=
  match tables with
  | [] => Ok s
  | m :: rest =>
      match dependency_of m with
      | Err p => Err p
      | Ok d => append_dependencies rest (append s d)
      end
  end.

(** [for k, v := range v { m.DefaultVersions[k] = v.(string) }]: the
    order of a range over a map is not fixed; each key is met once, so
    the map built is the same in every order. *)
Fixpoint default_versions (visited : list (string * Value))
    : result Panic (gmap string string) :=
  match visited with
  | [] => Ok ∅
  | (k, VString s) :: rest =>
      match default_versions rest with
      | Ok m => Ok (<[k := s]> m)
      | Err p => Err p
      end
  | _ :: _ => Err InterfaceConversion
  end.

(** [NewBuildpackMetadata]: the error it returns is always [nil]; what
    can go wrong is a panic. *)
Definition NewBuildpackMetadata (metadata : Table)
    : result Panic BuildpackMetadata :=
  match
    match get "default-versions" metadata with
    | Some (VTable v) => default_versions (entries v)
    | _ => Ok ∅
    end
  with
  | Err p => Err p
  | Ok versions =>
      match
        match get "dependencies" metadata with
        | Some (VTables tables) => append_dependencies tables None
        | Some _ => Err InterfaceConversion
        | None => Ok None
        end
      with
      | Err p => Err p
      | Ok dependencies =>
          match
            match get "include-files" metadata with
            | Some (VArray items) => append_strings items None
            | _ => Ok None
            end
          with
          | Err p => Err p
          | Ok files =>
              Ok (mkMetadata versions dependencies files
                    (string_field "pre-package" metadata))
          end
      end
  end.

(** A slice as the decoder leaves it: [nil], or with an element. *)
Definition grown {A} (s : slice A) : Prop := s <> Some [].

(** The table that spells out a slice of strings, a license, a
    dependency, the metadata: a key for every field, none for a [nil]
    slice. *)
Definition spell_strings (key : string) (s : slice string) : Table :=
  match s with
  | None => []
  | Some l => [(key, VArray (map VString l))]
  end.

Definition spell_license (l : BuildpackDependencyLicense) : Table :=
  [("type", VString (LicenseType l)); ("uri", VString (LicenseURI l))].

Definition spell_dependency (d : BuildpackDependency) : Table :=
  [("id", VString (ID d)); ("name", VString (Name d));
   ("version", VString (Version d)); ("uri", VString (URI d));
   ("sha256", VString (SHA256 d))]
  ++ spell_strings "stacks" (Stacks d)
  ++ match Licenses d with
     | None => []
     | Some l => [("licenses", VTables (map spell_license l))]
     end.

Definition spell_metadata (md : BuildpackMetadata) : Table :=
  [("default-versions",
    VTable (map (fun kv => (fst kv, VString (snd kv)))
              (map_to_list (DefaultVersions md))));
   ("pre-package", VString (PrePackage md))]
  ++ match Dependencies md with
     | None => []
     | Some l => [("dependencies", VTables (map spell_dependency l))]
     end
  ++ spell_strings "include-files" (IncludeFiles md).

Definition is_string (v : Value) : bool :=
  match v with VString _ => true | _ => false end.

End Metadata.

(** ** Further concrete inputs *)

Definition reversed_resolver : DependencyResolver :=
  mkResolver (rev (Dependencies sample_resolver)) "bionic".

Definition jdk12_added : DependencyResolver :=
  mkResolver [jdk "12.0.0" ["tiny"]; jdk "11.0.2" ["bionic"]] "bionic".

(** The permanent tier holds a sidecar that is not TOML. *)
Definition corrupt_permanent_tier : Disk :=
  mkDisk
    (<["/cnb/dependencies/sha256-of-test-fixture.toml" := Bytes "garbage"]>
       (files download_tier_only))
    [].

(** The permanent tier holds the sidecar but not the artifact. *)
Definition sidecar_without_artifact : Disk :=
  mkDisk
    (<["/cnb/dependencies/sha256-of-test-fixture.toml" :=
         Metadata test_dependency]> ∅)
    [].


Definition fixture_metadata : Metadata.Table :=
  [("default-versions", VTable [("jdk", VString "11.*")]);
   ("dependencies",
    VTables
      [[("id", VString "jdk"); ("version", VString "11.0.2");
        ("stacks", VArray [VString "bionic"]);
        ("licenses", VTables [[("type", VString "GPL-2.0")]]);
        ("sha256", VOther)];
       [("id", VString "maven"); ("stacks", VArray [])]]);
   ("include-files", VArray [VString "bin/build"]);
   ("pre-package", VOther)].

Definition fixture_decoded : Metadata.BuildpackMetadata :=
  Metadata.mkMetadata {["jdk" := "11.*"]}
    (Some [mkDependency "jdk" "" "11.0.2" "" "" (Some ["bionic"])
             (Some [mkLicense "GPL-2.0" ""]);
           mkDependency "maven" "" "" "" "" None None])
    (Some ["bin/build"]) "".

(** ** [NewDependencyCache] ([dependency_cache.go])

    Of [libcnb.Buildpack] the constructor reads the path and the id and
    version of [Info]; [os.TempDir()] belongs to the environment.  The
    logger is left out as in [DependencyCache]. *)

Record BuildpackInfo : Type := mkBuildpackInfo {
  InfoID : string;
  InfoVersion : string
}.

Record Buildpack : Type := mkBuildpack {
  BuildpackInfo_ : BuildpackInfo;
  BuildpackPath : string
}.

Definition NewDependencyCache (os_TempDir : string) (buildpack : Buildpack)
    : DependencyCache :=
  mkCache
    (filepath_Join [BuildpackPath buildpack; "dependencies"])
    os_TempDir
    (filepath_Join ["%s/%s"; InfoID (BuildpackInfo_ buildpack);
                    InfoVersion (BuildpackInfo_ buildpack)]).

(** A name between separators that [Clean] keeps as it is. *)
Definition plain (s : string) : Prop :=
  split "/" s = [s] /\ s <> "" /\ s <> "." /\ s <> "..".

(** Names joined by separators, such as [paketo-buildpacks/jdk] or
    [1.2.3]. *)
Definition plain_path (s : string) : Prop :=
  exists segs, segs <> [] /\ Forall plain segs /\ s = String.concat "/" segs.

(** A GET among the calls. *)
Definition is_get (e : Event) : bool :=
  match e with EvGet _ => true | _ => false end.

(** A name without a separator in it. *)
Definition slashfree (s : string) : Prop := split "/" s = [s].

(** What a path begins with: a separator when it is absolute. *)
Definition rooted_prefix (rooted : bool) : string :=
  if rooted then "/" else "".

Definition jdk_buildpack : Buildpack :=
  mkBuildpack (mkBuildpackInfo "paketo-buildpacks/adopt-openjdk" "1.2.3")
    "/cnb/buildpacks/adopt-openjdk".

(** An entry that names a file above the archive's root. *)
Definition escaping : TarEntry :=
  mkEntry "pkg/../authorized_keys" "" KFile 420 "key".

(** ** Regular files, by their mode text

    [os.FileMode.String] writes one letter for every bit of the mode that
    is set, then the nine permission characters; the letters of the type
    bits ([os.ModeType]) are [d] (directory), [L] (symbolic link), [D]
    (device), [p] (named pipe), [S] (socket), [c] (character device) and
    [?] (irregular).  [IsRegular] is "no type bit is set". *)
Definition type_letter (c : ascii) : bool :=
  existsb (Ascii.eqb c) ["d"; "L"; "D"; "p"; "S"; "c"; "?"]%char.

Fixpoint has_type_letter (mode : string) : bool :=
  match mode with
  | EmptyString => false
  | String c rest => type_letter c || has_type_letter rest
  end.

Definition regular_mode (mode : string) : bool :=
  negb (has_type_letter mode).

Definition a_link : FileInfo := mkInfo "Lrwxrwxrwx" "2020-02-20T10:00:00Z".

(** The tree [{current -> x.txt, x.txt}] found at [/layers/app]: the walk
    uses [os.Lstat], so the link is met as a link, and opening it reads
    what it points to. *)
Definition linked_tree : Node :=
  DirNode "app" a_dir
    (Some [FileNode "current" a_link (Readable (Bytes "x"));
           FileNode "x.txt" rw_file (Readable (Bytes "x"))]).

Definition linked_visits : list Visit :=
  [mkVisit "/layers/app" a_dir IsDirectory;
   mkVisit "/layers/app/current" a_link (NotDirectory (Readable (Bytes "x")));
   mkVisit "/layers/app/x.txt" rw_file (NotDirectory (Readable (Bytes "x")))].

Definition linked_listing : list FileEntry :=
  [mkFileEntry "/layers/app/current" "Lrwxrwxrwx" "2020-02-20T10:00:00Z"
     "sha256-of-x";
   mkFileEntry "/layers/app/x.txt" "-rw-r--r--" "2020-02-20T10:00:00Z"
     "sha256-of-x"].

(** * Properties *)

(** ** The insertion sort meets the contract of [sort.Slice] *)

Lemma strict_weak_on_incl {A} (less : A -> A -> bool) (l l' : list A) :
  (forall a, In a l' -> In a l) ->
  strict_weak_on less l -> strict_weak_on less l'.
Proof.
  intros Hin (Hirr & Htr & Hneg). repeat split.
  - intros a Ha. apply Hirr. auto.
  - intros a b c Ha Hb Hc. apply Htr; auto.
  - intros a b c Ha Hb Hc. apply Hneg; auto.
Qed.

Lemma strict_weak_on_asym {A} (less : A -> A -> bool) (l : list A) a b :
  strict_weak_on less l -> In a l -> In b l ->
  less a b = true -> less b a = false.
Proof.
  intros (Hirr & Htr & _) Ha Hb Hab.
  destruct (less b a) eqn:Hba; [|reflexivity].
  rewrite <- (Hirr a Ha). symmetry. apply (Htr a b a); assumption.
Qed.

Module InsertionSortFacts.
Import InsertionSort.

Lemma insert_perm {A} (less : A -> A -> bool) x l :
  Permutation (insert less x l) (x :: l).
Proof.
  induction l as [|y t IH]; simpl.
  - reflexivity.
  - destruct (less x y).
    + reflexivity.
    + rewrite IH. apply perm_swap.
Qed.

Lemma sort_perm {A} (less : A -> A -> bool) l :
  Permutation (sort less l) l.
Proof.
  induction l as [|x t IH]; simpl.
  - reflexivity.
  - unfold sort in IH. rewrite insert_perm. now constructor.
Qed.

Lemma insert_sorted {A} (less : A -> A -> bool) x l :
  strict_weak_on less (x :: l) ->
  StronglySorted (fun a b => less b a = false) l ->
  StronglySorted (fun a b => less b a = false) (insert less x l).
Proof.
  intros Hsw Hs. induction Hs as [|y t Hs IH Hy]; simpl.
  - constructor; constructor.
  - destruct (less x y) eqn:Hxy.
    + constructor; [constructor; assumption|].
      assert (Hyx : less y x = false).
      { apply (strict_weak_on_asym less (x :: y :: t)); simpl; auto. }
      constructor; [assumption|].
      rewrite Forall_forall in Hy |- *. intros w Hw.
      destruct Hsw as (_ & _ & Hneg).
      assert (Hwt : In w t) by now apply list_elem_of_In.
      apply (Hneg w y x); simpl; auto.
    + constructor.
      * apply IH. revert Hsw. apply strict_weak_on_incl.
        simpl. intuition.
      * rewrite Forall_forall in Hy |- *. intros w Hw.
        apply list_elem_of_In in Hw.
        apply (Permutation_in _ (insert_perm less x t)) in Hw.
        destruct Hw as [<-|Hw]; [assumption|].
        apply Hy. now apply list_elem_of_In.
Qed.

Lemma sort_sorted {A} (less : A -> A -> bool) l :
  strict_weak_on less l ->
  StronglySorted (fun a b => less b a = false) (sort less l).
Proof.
  induction l as [|x t IH]; intros Hsw; simpl.
  - constructor.
  - apply insert_sorted.
    + revert Hsw. apply strict_weak_on_incl. intros a [->|Ha]; simpl; auto.
      right. apply (Permutation_in _ (sort_perm less t)). exact Ha.
    + apply IH. revert Hsw. apply strict_weak_on_incl. simpl. auto.
Qed.

End InsertionSortFacts.

#[export] Instance insertion_SortLib : SortLib := {|
  sort_Slice := @InsertionSort.sort;
  sort_Slice_perm := @InsertionSortFacts.sort_perm;
  sort_Slice_sorted := @InsertionSortFacts.sort_sorted
|}.

(** ** The numeric versions are an instance of the version library *)

Module SemverFragmentFacts.
Import SemverFragment.

Ltac by_cases a b c :=
  destruct a as [a1 a2 a3], b as [b1 b2 b3], c as [c1 c2 c3];
  unfold compare; simpl;
  destruct (N.compare_spec a1 b1), (N.compare_spec b1 c1),
    (N.compare_spec a1 c1); try lia; try discriminate; try tauto;
  destruct (N.compare_spec a2 b2), (N.compare_spec b2 c2),
    (N.compare_spec a2 c2); try lia; try discriminate; try tauto;
  destruct (N.compare_spec a3 b3), (N.compare_spec b3 c3),
    (N.compare_spec a3 c3); try lia; try discriminate; tauto.

Lemma compare_refl v : compare v v = Eq.
Proof.
  destruct v as [a b c]. unfold compare. simpl.
  now rewrite !N.compare_refl.
Qed.

Lemma compare_gt_trans a b c :
  compare a b = Gt -> compare b c = Gt -> compare a c = Gt.
Proof. by_cases a b c. Qed.

Lemma compare_ngt_trans a b c :
  compare a b <> Gt -> compare b c <> Gt -> compare a c <> Gt.
Proof. by_cases a b c. Qed.

End SemverFragmentFacts.

#[export] Instance fragment_SemverLib : SemverLib := {|
  SemVersion := SemverFragment.version;
  SemConstraints := list SemverFragment.comparator;
  NewVersion := SemverFragment.parse_version;
  NewConstraint := SemverFragment.parse_constraint;
  Constraints_Check := SemverFragment.check;
  Version_Compare := SemverFragment.compare;
  Version_Compare_refl := SemverFragmentFacts.compare_refl;
  Version_Compare_gt_trans := SemverFragmentFacts.compare_gt_trans;
  Version_Compare_ngt_trans := SemverFragmentFacts.compare_ngt_trans
|}.

Example parse_version_11_0_2 :
  SemverFragment.parse_version "11.0.2"
  = Some (SemverFragment.mkVersion 11 0 2).
Proof. reflexivity. Qed.

Example parse_version_rejects :
  SemverFragment.parse_version "eleven" = None.
Proof. reflexivity. Qed.

Example parse_constraint_range :
  SemverFragment.parse_constraint ">=11 <12"
  = Some [SemverFragment.AtLeast (SemverFragment.mkVersion 11 0 0);
          SemverFragment.Below (SemverFragment.mkVersion 12 0 0)].
Proof. reflexivity. Qed.

(** ** The version resolver *)

Lemma contains_In (candidates : list string) (value : string) :
  contains candidates value = true <-> In value candidates.
Proof.
  induction candidates as [|c rest IH]; simpl.
  - split; [discriminate|tauto].
  - destruct (String.eqb_spec c value) as [->|Hne].
    + tauto.
    + rewrite IH. split; [tauto|]. intros [Heq|Hin]; [congruence|assumption].
Qed.

Section ResolverFacts.
Context `{SemverLib} `{SortLib}.

Lemma matches_candidate vc id stack c :
  matches vc id stack c = true <-> candidate vc id stack c.
Proof.
  unfold matches, candidate. split.
  - destruct (NewVersion (Version c)) as [v|] eqn:Hv; [|discriminate].
    rewrite !andb_true_iff, String.eqb_eq, contains_In.
    intros [[Hid Hck] Hst]. eauto.
  - intros (Hid & (v & Hv & Hck) & Hst). rewrite Hv.
    rewrite !andb_true_iff, String.eqb_eq, contains_In. auto.
Qed.

Lemma candidates_loop_all_parse vc id stack deps acc :
  Forall parses deps ->
  candidates_loop vc id stack deps acc
  = Ok (acc ++ List.filter (matches vc id stack) deps).
Proof.
  intros Hall. revert acc.
  induction Hall as [|c rest [v Hv] _ IH]; intros acc; simpl.
  - now rewrite app_nil_r.
  - unfold matches at 1. rewrite Hv.
    destruct (String.eqb (ID c) id && Constraints_Check vc v
              && contains (elems (Stacks c)) stack).
    + rewrite IH, <- app_assoc. reflexivity.
    + apply IH.
Qed.

Lemma candidates_loop_Ok vc id stack deps acc cs :
  candidates_loop vc id stack deps acc = Ok cs ->
  Forall parses deps.
Proof.
  revert acc. induction deps as [|c rest IH]; intros acc; simpl.
  - constructor.
  - destruct (NewVersion (Version c)) as [v|] eqn:Hv; [|discriminate].
    intros Hloop. constructor; [now exists v|].
    destruct (String.eqb (ID c) id && Constraints_Check vc v
              && contains (elems (Stacks c)) stack); eauto.
Qed.

(** A version that does not parse stops the loop, whatever else the
    entry or the query say. *)
Lemma candidates_loop_malformed vc id stack deps acc :
  (exists c, In c deps /\ NewVersion (Version c) = None) ->
  exists c, In c deps /\ NewVersion (Version c) = None
            /\ candidates_loop vc id stack deps acc
               = Err (UnableToParseVersion (Version c)).
Proof.
  revert acc. induction deps as [|c rest IH]; intros acc (bad & Hin & Hbad).
  - destruct Hin.
  - simpl. destruct (NewVersion (Version c)) as [v|] eqn:Hv.
    + assert (Hrest : exists c, In c rest /\ NewVersion (Version c) = None).
      { destruct Hin as [->|Hin]; [congruence|eauto]. }
      destruct (String.eqb (ID c) id && Constraints_Check vc v
                && contains (elems (Stacks c)) stack);
        [destruct (IH (acc ++ [c]) Hrest) as (b & Hb & Hnone & ->)
        |destruct (IH acc Hrest) as (b & Hb & Hnone & ->)];
        exists b; simpl; auto.
    + exists c. simpl. auto.
Qed.

Lemma newer_strict_weak (l : list BuildpackDependency) :
  Forall parses l -> strict_weak_on newer l.
Proof.
  intros Hall.
  assert (Hp : forall a, In a l -> parses a).
  { intros a Ha. rewrite Forall_forall in Hall. apply Hall.
    now apply list_elem_of_In. }
  unfold newer, GreaterThan. repeat split.
  - intros a Ha. destruct (Hp a Ha) as [v ->].
    now rewrite Version_Compare_refl.
  - intros a b c Ha Hb Hc.
    destruct (Hp a Ha) as [va ->], (Hp b Hb) as [vb ->],
      (Hp c Hc) as [vc' ->].
    destruct (Version_Compare va vb) eqn:Hab; try discriminate.
    destruct (Version_Compare vb vc') eqn:Hbc; try discriminate.
    now rewrite (Version_Compare_gt_trans _ _ _ Hab Hbc).
  - intros a b c Ha Hb Hc.
    destruct (Hp a Ha) as [va ->], (Hp b Hb) as [vb ->],
      (Hp c Hc) as [vc' ->].
    intros Hab Hbc.
    assert (Hac : Version_Compare va vc' <> Gt).
    { apply (Version_Compare_ngt_trans va vb vc').
      - intros Heq. now rewrite Heq in Hab.
      - intros Heq. now rewrite Heq in Hbc. }
    destruct (Version_Compare va vc'); congruence.
Qed.

(** What [sort.Slice] leaves at index 0. *)
Lemma sort_Slice_head {A} (less : A -> A -> bool) (l : list A) best rest :
  strict_weak_on less l ->
  sort_Slice less l = best :: rest ->
  In best l /\ forall c, In c l -> less c best = false.
Proof.
  intros Hsw Hsort.
  pose proof (sort_Slice_perm A less l) as Hperm.
  pose proof (sort_Slice_sorted A less l Hsw) as Hsorted.
  rewrite Hsort in Hperm, Hsorted.
  assert (Hbest : In best l).
  { apply (Permutation_in _ Hperm). now left. }
  split; [exact Hbest|].
  intros c Hc. apply (Permutation_in _ (Permutation_sym Hperm)) in Hc.
  destruct Hc as [<-|Hc].
  - destruct Hsw as (Hirr & _). now apply Hirr.
  - inversion Hsorted as [|? ? _ Hall]; subst.
    rewrite Forall_forall in Hall. apply Hall. now apply list_elem_of_In.
Qed.

(** How [Resolve] ends, case by case. *)
Lemma Resolve_unfold d id version :
  Resolve d id version =
  match NewConstraint (default_constraint version) with
  | None => Err (InvalidConstraint (default_constraint version))
  | Some vc =>
      match candidates_loop vc id (StackID d) (Dependencies d) [] with
      | Err e => Err e
      | Ok candidates =>
          if Nat.eqb (length candidates) 0
          then Err (NoValidDependenciesError id (default_constraint version)
                      (StackID d) (Dependencies d))
          else match sort_Slice newer candidates with
               | best :: _ => Ok best
               | [] => Err IndexOutOfRange
               end
      end
  end.
Proof. reflexivity. Qed.

Lemma Resolve_never_panics d id version :
  Resolve d id version <> Err IndexOutOfRange.
Proof.
  rewrite Resolve_unfold.
  destruct (NewConstraint _) as [vc|]; [|discriminate].
  destruct (candidates_loop _ _ _ _ _) as [cs|e] eqn:Hloop.
  - destruct cs as [|c cs]; simpl; [discriminate|].
    pose proof (sort_Slice_perm _ newer (c :: cs)) as Hperm.
    destruct (sort_Slice newer (c :: cs)); [|discriminate].
    apply Permutation_nil in Hperm. discriminate.
  - clear -Hloop. intros [= ->]. revert Hloop.
    generalize (@nil BuildpackDependency).
    induction (Dependencies d) as [|c rest IH]; intros acc; simpl.
    + discriminate.
    + destruct (NewVersion (Version c)); [|discriminate].
      destruct (_ && _); apply IH.
Qed.

End ResolverFacts.

Section ResolverClaims.
Context `{SemverLib} `{SortLib}.

(** With a constraint that parses and a catalog whose versions all parse,
    [Resolve] succeeds as soon as one entry is a candidate. *)
Lemma Resolve_succeeds d id version vc c :
  NewConstraint (default_constraint version) = Some vc ->
  Forall parses (Dependencies d) ->
  In c (Dependencies d) -> candidate vc id (StackID d) c ->
  exists best, Resolve d id version = Ok best.
Proof.
  intros Hvc Hall Hin Hcand. rewrite Resolve_unfold, Hvc.
  rewrite (candidates_loop_all_parse _ _ _ _ _ Hall). simpl.
  assert (Hc : In c (List.filter (matches vc id (StackID d)) (Dependencies d))).
  { apply filter_In. split; [exact Hin|]. now apply matches_candidate. }
  destruct (List.filter _ _) as [|x xs] eqn:Hf; [destruct Hc|]. simpl.
  pose proof (sort_Slice_perm _ newer (x :: xs)) as Hperm.
  destruct (sort_Slice newer (x :: xs)) as [|best rest]; [|eauto].
  apply Permutation_nil in Hperm. discriminate.
Qed.

(** C1: when [Resolve] succeeds, the constraint has parsed, the dependency
    returned is an entry of the catalog that is a candidate (its ID is the
    requested one, its version satisfies the constraint, its stacks contain
    the stack id), and no candidate of the catalog has a version that the
    version library ranks above the returned one: the order is that of
    [Version.Compare], not that of the version strings. *)
Theorem Resolve_returns_newest_candidate d id version best :
  Resolve d id version = Ok best ->
  exists vc vbest,
    NewConstraint (default_constraint version) = Some vc
    /\ In best (Dependencies d)
    /\ candidate vc id (StackID d) best
    /\ NewVersion (Version best) = Some vbest
    /\ forall c v,
         In c (Dependencies d) -> candidate vc id (StackID d) c ->
         NewVersion (Version c) = Some v ->
         GreaterThan v vbest = false.
Proof.
  rewrite Resolve_unfold.
  destruct (NewConstraint _) as [vc|]; [|discriminate].
  destruct (candidates_loop _ _ _ _ _) as [cs|e] eqn:Hloop; [|discriminate].
  pose proof (candidates_loop_Ok _ _ _ _ _ _ Hloop) as Hall.
  rewrite (candidates_loop_all_parse _ _ _ _ _ Hall) in Hloop.
  injection Hloop as <-. simpl.
  set (cs := List.filter (matches vc id (StackID d)) (Dependencies d)).
  destruct (Nat.eqb (length cs) 0); [discriminate|].
  destruct (sort_Slice newer cs) as [|b rest] eqn:Hsort; [discriminate|].
  intros [= ->].
  assert (Hcs : Forall parses cs).
  { rewrite Forall_forall in Hall |- *. intros x Hx. apply Hall.
    apply list_elem_of_In in Hx. apply filter_In in Hx.
    apply list_elem_of_In. tauto. }
  destruct (sort_Slice_head newer cs best rest (newer_strict_weak _ Hcs) Hsort)
    as (Hbest & Hmax).
  apply filter_In in Hbest. destruct Hbest as (Hin & Hm).
  apply matches_candidate in Hm.
  pose proof Hm as (_ & (vbest & Hvbest & _) & _).
  exists vc, vbest.
  split; [reflexivity|]. split; [exact Hin|]. split; [exact Hm|].
  split; [exact Hvbest|].
  intros c v Hc Hcand Hv.
  assert (Hcin : In c cs).
  { apply filter_In. split; [exact Hc|]. now apply matches_candidate. }
  specialize (Hmax c Hcin). unfold newer in Hmax.
  now rewrite Hv, Hvbest in Hmax.
Qed.

(** C2: a catalog entry whose version does not parse makes [Resolve] fail
    with a parse error, for every id, constraint and stack: the error is
    that of the constraint when the constraint itself does not parse, and
    otherwise names the version of an entry that does not parse. *)
Theorem Resolve_malformed_entry_is_fatal d id version :
  (exists c, In c (Dependencies d) /\ NewVersion (Version c) = None) ->
  (NewConstraint (default_constraint version) = None
   /\ Resolve d id version
      = Err (InvalidConstraint (default_constraint version)))
  \/ (exists vc c,
        NewConstraint (default_constraint version) = Some vc
        /\ In c (Dependencies d) /\ NewVersion (Version c) = None
        /\ Resolve d id version = Err (UnableToParseVersion (Version c))).
Proof.
  intros Hbad. rewrite Resolve_unfold.
  destruct (NewConstraint _) as [vc|]; [right|left; auto].
  destruct (candidates_loop_malformed vc id (StackID d) (Dependencies d) []
              Hbad) as (c & Hin & Hnone & ->).
  exists vc, c. auto.
Qed.

(** C3: [Any] answers true exactly when [Resolve] succeeds on the same
    resolver and query; and when the constraint parses and every entry of
    the catalog has a version that fails it, [Resolve] ends with the
    no-valid-dependencies error and [Any] answers false. *)
Theorem Any_iff_Resolve_succeeds d id version :
  (Any d id version = true <-> exists dep, Resolve d id version = Ok dep)
  /\ (forall vc,
        NewConstraint (default_constraint version) = Some vc ->
        (forall c, In c (Dependencies d) ->
           exists v, NewVersion (Version c) = Some v
                     /\ Constraints_Check vc v = false) ->
        Resolve d id version
        = Err (NoValidDependenciesError id (default_constraint version)
                 (StackID d) (Dependencies d))
        /\ Any d id version = false).
Proof.
  split.
  - unfold Any. destruct (Resolve d id version) as [dep|e]; simpl.
    + split; eauto.
    + split; [discriminate|]. intros [dep Hdep]. discriminate.
  - intros vc Hvc Hnone.
    assert (Hres : Resolve d id version
                   = Err (NoValidDependenciesError id
                            (default_constraint version) (StackID d)
                            (Dependencies d))).
    { rewrite Resolve_unfold, Hvc.
      assert (Hall : Forall parses (Dependencies d)).
      { rewrite Forall_forall. intros c Hc. apply list_elem_of_In in Hc.
        destruct (Hnone c Hc) as (v & Hv & _). now exists v. }
      rewrite (candidates_loop_all_parse _ _ _ _ _ Hall). simpl.
      assert (Hempty : List.filter (matches vc id (StackID d))
                         (Dependencies d) = []).
      { induction (Dependencies d) as [|c rest IH]; simpl; [reflexivity|].
        destruct (Hnone c (or_introl eq_refl)) as (v & Hv & Hck).
        unfold matches at 1. rewrite Hv, Hck, andb_false_r. simpl.
        apply IH.
        - intros x Hx. apply Hnone. now right.
        - now inversion Hall. }
      now rewrite Hempty. }
    split; [exact Hres|]. unfold Any. now rewrite Hres.
Qed.

(** C10: [Any] answers false for every failure of [Resolve]: for the
    no-match error, and just as well when the constraint does not parse or
    when some version in the catalog does not parse, so its answer does not
    tell these apart. *)
Theorem Any_false_on_every_failure d id version :
  (forall e, Resolve d id version = Err e -> Any d id version = false)
  /\ (NewConstraint (default_constraint version) = None ->
      Any d id version = false)
  /\ ((exists c, In c (Dependencies d) /\ NewVersion (Version c) = None) ->
      Any d id version = false).
Proof.
  assert (Hfail : forall e, Resolve d id version = Err e ->
                            Any d id version = false).
  { intros e He. unfold Any. now rewrite He. }
  split; [exact Hfail|]. split.
  - intros Hnone.
    apply (Hfail (InvalidConstraint (default_constraint version))).
    rewrite Resolve_unfold. now rewrite Hnone.
  - intros Hbad. rewrite Resolve_unfold in Hfail.
    destruct (NewConstraint _) as [vc|] eqn:Hvc.
    + destruct (candidates_loop_malformed vc id (StackID d) (Dependencies d)
                  [] Hbad) as (c & _ & _ & Hloop).
      rewrite Hloop in Hfail. eauto.
    + eauto.
Qed.

End ResolverClaims.

(** *** The resolver on concrete catalogs *)

Example Resolve_jdk11_in_range :
  Resolve jdk11_resolver "jdk" ">=11 <12" = Ok (jdk "11.0.2" ["bionic"]).
Proof. reflexivity. Qed.

Example Resolve_jdk11_out_of_range :
  Resolve jdk11_resolver "jdk" ">=12"
  = Err (NoValidDependenciesError "jdk" ">=12" "bionic"
           [jdk "11.0.2" ["bionic"]]).
Proof. reflexivity. Qed.

Lemma Resolve_returns_newest_candidate_witness :
  Resolve sample_resolver "jdk" "" = Ok (jdk "10.0.0" ["bionic"; "tiny"])
  /\ String.ltb "10.0.0" "9.0.0" = true
  /\ exists vc vbest,
       NewConstraint (default_constraint "") = Some vc
       /\ In (jdk "10.0.0" ["bionic"; "tiny"]) (Dependencies sample_resolver)
       /\ candidate vc "jdk" "bionic" (jdk "10.0.0" ["bionic"; "tiny"])
       /\ NewVersion "10.0.0" = Some vbest
       /\ forall c v,
            In c (Dependencies sample_resolver) ->
            candidate vc "jdk" "bionic" c ->
            NewVersion (Version c) = Some v ->
            GreaterThan v vbest = false.
Proof.
  split; [reflexivity|]. split; [reflexivity|].
  apply (Resolve_returns_newest_candidate sample_resolver "jdk" ""
           (jdk "10.0.0" ["bionic"; "tiny"])).
  reflexivity.
Defined.

Lemma Resolve_malformed_entry_is_fatal_witness :
  (exists c, In c (Dependencies poisoned_resolver)
             /\ NewVersion (Version c) = None)
  /\ ((NewConstraint (default_constraint ">=11") = None
       /\ Resolve poisoned_resolver "jdk" ">=11"
          = Err (InvalidConstraint (default_constraint ">=11")))
      \/ (exists vc c,
            NewConstraint (default_constraint ">=11") = Some vc
            /\ In c (Dependencies poisoned_resolver)
            /\ NewVersion (Version c) = None
            /\ Resolve poisoned_resolver "jdk" ">=11"
               = Err (UnableToParseVersion (Version c)))).
Proof.
  assert (Hbad : exists c, In c (Dependencies poisoned_resolver)
                           /\ NewVersion (Version c) = None).
  { eexists. split; [right; left; reflexivity|reflexivity]. }
  split; [exact Hbad|].
  exact (Resolve_malformed_entry_is_fatal poisoned_resolver "jdk" ">=11" Hbad).
Defined.

Example Resolve_poisoned :
  Resolve poisoned_resolver "jdk" ">=11" = Err (UnableToParseVersion "latest").
Proof. reflexivity. Qed.

Lemma Any_iff_Resolve_succeeds_witness :
  Resolve jdk11_resolver "jdk" ">=12"
  = Err (NoValidDependenciesError "jdk" ">=12" "bionic"
           (Dependencies jdk11_resolver))
  /\ Any jdk11_resolver "jdk" ">=12" = false.
Proof.
  refine (proj2 (Any_iff_Resolve_succeeds jdk11_resolver "jdk" ">=12")
            [SemverFragment.AtLeast (SemverFragment.mkVersion 12 0 0)]
            eq_refl _).
  intros c [<-|[]]. eexists. split; reflexivity.
Defined.

Lemma Any_false_on_every_failure_witness :
  Any poisoned_resolver "jdk" ">=11" = false
  /\ Any jdk11_resolver "jdk" ">=" = false
  /\ Any jdk11_resolver "jdk" ">=12" = false.
Proof.
  split; [|split].
  - apply (proj2 (proj2 (Any_false_on_every_failure poisoned_resolver
                           "jdk" ">=11"))).
    eexists. split; [right; left; reflexivity|reflexivity].
  - apply (proj1 (proj2 (Any_false_on_every_failure jdk11_resolver
                           "jdk" ">="))).
    reflexivity.
  - apply (proj1 (Any_false_on_every_failure jdk11_resolver "jdk" ">=12")
             (NoValidDependenciesError "jdk" ">=12" "bionic"
                (Dependencies jdk11_resolver))).
    reflexivity.
Defined.

(** ** The artifact cache *)

#[local] Arguments filepath_Join : simpl never.
#[local] Arguments filepath_Base : simpl never.
#[local] Arguments filepath_Dir : simpl never.

Ltac run_cache :=
  unfold Artifact, verify, download, toml_DecodeFile, toml_Encode, os_Open,
    bind, map_err, emit, ret, fail, record, store; simpl.

Section CacheFacts.
Context `{Sha256Lib}.
Variable env : Env.

Lemma DeepEqual_true a b : DeepEqual a b = true <-> a = b.
Proof. unfold DeepEqual. apply bool_decide_eq_true. Qed.

Lemma DeepEqual_false a b : DeepEqual a b = false <-> a <> b.
Proof. unfold DeepEqual. apply bool_decide_eq_false. Qed.

Lemma digest_not_zero dep :
  SHA256 dep <> "" -> DeepEqual dep zero_dependency = false.
Proof. intros Hsha. apply DeepEqual_false. intros ->. now apply Hsha. Qed.

(** [download], outcome by outcome. *)
Lemma download_run uri destination s :
  download env uri destination s
  = if can_request env uri then
      match origin env uri with
      | Unreachable =>
          (Err (UnableToRequest uri),
           mkDisk (files s) (trace s ++ [EvGet uri]))
      | Status code body =>
          if (code <? 200)%Z || (299 <? code)%Z then
            (Err (CouldNotDownload uri code),
             mkDisk (files s) (trace s ++ [EvGet uri]))
          else if can_mkdir env (filepath_Dir destination) then
            if can_create env destination then
              match copy_stops env uri destination with
              | Some partial =>
                  (Err (UnableToCopy uri destination),
                   mkDisk (<[destination := partial]> (files s))
                     (trace s
                      ++ [EvGet uri; EvMkdirAll (filepath_Dir destination);
                          EvCreate destination]))
              | None =>
                  (Ok tt,
                   mkDisk (<[destination := body]> (files s))
                     (trace s
                      ++ [EvGet uri; EvMkdirAll (filepath_Dir destination);
                          EvCreate destination]))
              end
            else
              (Err (DownloadOpenFile destination),
               mkDisk (files s)
                 (trace s
                  ++ [EvGet uri; EvMkdirAll (filepath_Dir destination);
                      EvCreate destination]))
          else
            (Err (DownloadMkdir (filepath_Dir destination)),
             mkDisk (files s)
               (trace s
                ++ [EvGet uri; EvMkdirAll (filepath_Dir destination)]))
      end
    else (Err (UnableToCreateRequest uri), s).
Proof.
  unfold download, bind, emit, fail, record, store.
  destruct (can_request env uri); simpl; [|reflexivity].
  destruct (origin env uri) as [|code body]; simpl; [reflexivity|].
  destruct ((code <? 200)%Z || (299 <? code)%Z); simpl; [reflexivity|].
  destruct (can_mkdir env (filepath_Dir destination)); simpl;
    [|now rewrite <- app_assoc].
  destruct (can_create env destination); simpl;
    [|now rewrite <- !app_assoc].
  destruct (copy_stops env uri destination); simpl;
    now rewrite insert_insert_eq, <- !app_assoc.
Qed.

(** Without digest [Artifact] is the download followed by opening the
    file. *)
Lemma Artifact_undigested_run d dep s :
  SHA256 dep = "" ->
  Artifact env d dep s
  = match download env (URI dep) (undigested_path d dep) s with
    | (Ok _, s') =>
        (opened s' (undigested_path d dep),
         mkDisk (files s') (trace s' ++ [EvOpen (undigested_path d dep)]))
    | (Err e, s') => (Err (UnableToDownload (URI dep) e), s')
    end.
Proof.
  intros Hsha. unfold Artifact, undigested_path, opened. rewrite Hsha.
  cbn [String.eqb]. unfold bind at 1, map_err.
  destruct (download env (URI dep) _ s) as [[[]|e] s']; [|reflexivity].
  unfold os_Open, bind, emit, record. simpl.
  now destruct (files s' !! _).
Qed.


Lemma no_hit_iff s path dep :
  no_hit s path dep
  <-> files s !! path <> Some (Metadata dep) /\ ~ undecodable s path.
Proof.
  unfold no_hit, undecodable. split.
  - intros [Hnone|(a & Ha & Hne)].
    + rewrite Hnone. split; [discriminate|]. intros [b Hb]. discriminate.
    + rewrite Ha. split; [congruence|]. intros [b Hb]. discriminate.
  - intros [Hne Hund]. destruct (files s !! path) as [[b|a]|]; eauto.
    + exfalso. eauto.
    + right. exists a. split; [reflexivity|congruence].
Qed.

Lemma sidecar_cases s path dep :
  files s !! path = Some (Metadata dep)
  \/ undecodable s path
  \/ no_hit s path dep.
Proof.
  unfold undecodable, no_hit.
  destruct (files s !! path) as [[b|a]|].
  - right. left. now exists b.
  - destruct (decide (a = dep)) as [->|Hne].
    + now left.
    + right. right. right. now exists a.
  - right. right. now left.
Qed.

Lemma Artifact_permanent_hit d dep s :
  SHA256 dep <> "" ->
  files s !! sidecar_path (CachePath d) dep = Some (Metadata dep) ->
  Artifact env d dep s
  = (opened s (artifact_path (CachePath d) dep),
     mkDisk (files s)
       (trace s ++ [EvDecodeFile (sidecar_path (CachePath d) dep);
                    EvOpen (artifact_path (CachePath d) dep)])).
Proof.
  intros Hsha. unfold sidecar_path, artifact_path, opened. intros Hmeta.
  run_cache. rewrite (proj2 (String.eqb_neq _ _) Hsha), Hmeta. simpl.
  rewrite (proj2 (DeepEqual_true dep dep) eq_refl). simpl.
  rewrite <- app_assoc. simpl.
  now repeat case_match.
Qed.

Lemma Artifact_permanent_undecodable d dep s :
  SHA256 dep <> "" ->
  undecodable s (sidecar_path (CachePath d) dep) ->
  Artifact env d dep s
  = (Err (UnableToDecodeMetadata (sidecar_path (CachePath d) dep)),
     mkDisk (files s)
       (trace s ++ [EvDecodeFile (sidecar_path (CachePath d) dep)])).
Proof.
  intros Hsha. unfold sidecar_path, undecodable. intros [b Hmeta].
  run_cache. now rewrite (proj2 (String.eqb_neq _ _) Hsha), Hmeta.
Qed.

(** After a permanent tier that is no hit, [actual] holds what that
    sidecar described, or is still the zero value; in both cases it
    differs from the dependency. *)
Lemma Artifact_download_hit d dep s :
  SHA256 dep <> "" ->
  no_hit s (sidecar_path (CachePath d) dep) dep ->
  files s !! sidecar_path (DownloadPath d) dep = Some (Metadata dep) ->
  Artifact env d dep s
  = (opened s (artifact_path (DownloadPath d) dep),
     mkDisk (files s)
       (trace s ++ [EvDecodeFile (sidecar_path (CachePath d) dep);
                    EvDecodeFile (sidecar_path (DownloadPath d) dep);
                    EvOpen (artifact_path (DownloadPath d) dep)])).
Proof.
  intros Hsha. unfold sidecar_path, artifact_path, opened, no_hit.
  intros Hmiss Hmeta. run_cache.
  rewrite (proj2 (String.eqb_neq _ _) Hsha).
  destruct Hmiss as [->|(a & -> & Hne)]; simpl.
  - rewrite (digest_not_zero dep Hsha). simpl. rewrite Hmeta. simpl.
    rewrite (proj2 (DeepEqual_true dep dep) eq_refl). simpl.
    rewrite <- !app_assoc. simpl. now repeat case_match.
  - rewrite (proj2 (DeepEqual_false dep a)) by congruence. simpl.
    rewrite Hmeta. simpl.
    rewrite (proj2 (DeepEqual_true dep dep) eq_refl). simpl.
    rewrite <- !app_assoc. simpl. now repeat case_match.
Qed.

Lemma Artifact_download_undecodable d dep s :
  SHA256 dep <> "" ->
  no_hit s (sidecar_path (CachePath d) dep) dep ->
  undecodable s (sidecar_path (DownloadPath d) dep) ->
  Artifact env d dep s
  = (Err (UnableToDecodeMetadata (sidecar_path (DownloadPath d) dep)),
     mkDisk (files s)
       (trace s ++ [EvDecodeFile (sidecar_path (CachePath d) dep);
                    EvDecodeFile (sidecar_path (DownloadPath d) dep)])).
Proof.
  intros Hsha. unfold sidecar_path, undecodable, no_hit.
  intros Hmiss [b Hmeta]. run_cache.
  rewrite (proj2 (String.eqb_neq _ _) Hsha).
  destruct Hmiss as [->|(a & -> & Hne)]; simpl.
  - rewrite (digest_not_zero dep Hsha). simpl. rewrite Hmeta. simpl.
    now rewrite <- !app_assoc.
  - rewrite (proj2 (DeepEqual_false dep a)) by congruence. simpl.
    rewrite Hmeta. simpl. now rewrite <- !app_assoc.
Qed.

Lemma Artifact_both_miss d dep s :
  SHA256 dep <> "" ->
  no_hit s (sidecar_path (CachePath d) dep) dep ->
  no_hit s (sidecar_path (DownloadPath d) dep) dep ->
  Artifact env d dep s
  = fetch_verify_persist env d dep
      (mkDisk (files s)
         (trace s ++ [EvDecodeFile (sidecar_path (CachePath d) dep);
                      EvDecodeFile (sidecar_path (DownloadPath d) dep)])).
Proof.
  intros Hsha Hmiss1 Hmiss2.
  assert (Hgo : forall actual, actual <> dep ->
    (actual' <- toml_DecodeFile
                  (sidecar_path (DownloadPath d) dep) actual ;;
     if DeepEqual dep actual'
     then os_Open OpenFailed (artifact_path (DownloadPath d) dep)
     else fetch_verify_persist env d dep)
      (mkDisk (files s)
         (trace s ++ [EvDecodeFile (sidecar_path (CachePath d) dep)]))
    = fetch_verify_persist env d dep
        (mkDisk (files s)
           (trace s ++ [EvDecodeFile (sidecar_path (CachePath d) dep);
                        EvDecodeFile (sidecar_path (DownloadPath d) dep)]))).
  { intros actual Hne.
    unfold toml_DecodeFile, bind, emit, record at 1. simpl.
    destruct Hmiss2 as [->|(b & -> & Hb)]; unfold record; simpl;
      rewrite <- app_assoc; simpl.
    - now rewrite (proj2 (DeepEqual_false dep actual)) by congruence.
    - now rewrite (proj2 (DeepEqual_false dep b)) by congruence. }
  unfold Artifact. rewrite (proj2 (String.eqb_neq _ _) Hsha).
  fold (sidecar_path (CachePath d) dep) (sidecar_path (DownloadPath d) dep)
    (artifact_path (CachePath d) dep) (artifact_path (DownloadPath d) dep).
  unfold bind at 1. unfold toml_DecodeFile at 1.
  unfold bind at 1, emit at 1. unfold record at 1.
  cbn [files trace].
  destruct Hmiss1 as [->|(a & -> & Ha)].
  - rewrite (digest_not_zero dep Hsha). apply Hgo.
    intros <-. now apply Hsha.
  - rewrite (proj2 (DeepEqual_false dep a)) by congruence. now apply Hgo.
Qed.

(** What follows a download that went well: [verify], then the sidecar,
    then opening the artifact. *)
Lemma fetch_verify_persist_run d dep s0 :
  fetch_verify_persist env d dep s0
  = let artifact := artifact_path (DownloadPath d) dep in
    let file := sidecar_path (DownloadPath d) dep in
    match download env (URI dep) artifact s0 with
    | (Err e, s1) => (Err (UnableToDownload (URI dep) e), s1)
    | (Ok _, s1) =>
        match files s1 !! artifact with
        | None =>
            (Err (UnableToVerify artifact),
             mkDisk (files s1) (trace s1 ++ [EvOpen artifact]))
        | Some content =>
            if can_read env artifact then
              if String.eqb (SHA256 dep) (sha256_hex content) then
                if can_mkdir env (filepath_Dir file) then
                  if can_create env file then
                    match encode_stops env file with
                    | Some partial =>
                        (Err (UnableToWriteMetadata file),
                         mkDisk (<[file := partial]> (files s1))
                           (trace s1
                            ++ [EvOpen artifact;
                                EvMkdirAll (filepath_Dir file);
                                EvCreate file; EvEncode file]))
                    | None =>
                        (opened
                           (mkDisk (<[file := Metadata dep]> (files s1)) [])
                           artifact,
                         mkDisk (<[file := Metadata dep]> (files s1))
                           (trace s1
                            ++ [EvOpen artifact;
                                EvMkdirAll (filepath_Dir file);
                                EvCreate file; EvEncode file;
                                EvOpen artifact]))
                    end
                  else
                    (Err (UnableToOpenFile file),
                     mkDisk (files s1)
                       (trace s1
                        ++ [EvOpen artifact; EvMkdirAll (filepath_Dir file);
                            EvCreate file]))
                else
                  (Err (UnableToMakeDirectory (filepath_Dir file)),
                   mkDisk (files s1)
                     (trace s1
                      ++ [EvOpen artifact; EvMkdirAll (filepath_Dir file)]))
              else
                (Err (Sha256Mismatch artifact (sha256_hex content)
                        (SHA256 dep)),
                 mkDisk (files s1) (trace s1 ++ [EvOpen artifact]))
            else
              (Err (UnableToRead artifact),
               mkDisk (files s1) (trace s1 ++ [EvOpen artifact]))
        end
    end.
Proof.
  cbv zeta. unfold fetch_verify_persist. unfold bind at 1, map_err.
  destruct (download env (URI dep) _ s0) as [[[]|e] s1]; [|reflexivity].
  unfold verify, toml_Encode, os_Open, opened, bind, emit, fail, ret, record,
    store. simpl.
  destruct (files s1 !! artifact_path (DownloadPath d) dep) as [content|];
    simpl; [|reflexivity].
  destruct (can_read env _); simpl; [|reflexivity].
  destruct (String.eqb (SHA256 dep) (sha256_hex content)); simpl;
    [|reflexivity].
  destruct (can_mkdir env _); simpl; [|now rewrite <- !app_assoc].
  destruct (can_create env _); simpl; [|now rewrite <- !app_assoc].
  destruct (encode_stops env _); simpl;
    rewrite insert_insert_eq, <- !app_assoc; simpl; [reflexivity|].
  now destruct (_ !! artifact_path (DownloadPath d) dep).
Qed.

Ltac trace_done :=
  eexists; split;
  [rewrite <- ?app_assoc; simpl; reflexivity
  |intros uri Hin; simpl in Hin; intuition discriminate].

(** The origin is asked first, and once, whenever the request can be
    built; otherwise nothing at all is done. *)
Lemma fetch_verify_persist_trace d dep s0 :
  (can_request env (URI dep) = true ->
   exists rest,
     trace (snd (fetch_verify_persist env d dep s0))
     = trace s0 ++ EvGet (URI dep) :: rest
     /\ forall uri, ~ In (EvGet uri) rest)
  /\ (can_request env (URI dep) = false ->
      fetch_verify_persist env d dep s0
      = (Err (UnableToDownload (URI dep) (UnableToCreateRequest (URI dep))),
         s0)).
Proof.
  rewrite fetch_verify_persist_run. cbv zeta. rewrite download_run.
  destruct (can_request env (URI dep)); split; try discriminate;
    [intros _|reflexivity].
  destruct (origin env (URI dep)) as [|code body]; simpl;
    [exists []; split; [reflexivity|intros uri []]|].
  destruct ((code <? 200)%Z || (299 <? code)%Z); simpl;
    [exists []; split; [reflexivity|intros uri []]|].
  destruct (can_mkdir env (filepath_Dir (artifact_path _ dep))); simpl;
    [|trace_done].
  destruct (can_create env (artifact_path _ dep)); simpl; [|trace_done].
  destruct (copy_stops env _ _); simpl; [trace_done|].
  rewrite lookup_insert_eq.
  destruct (can_read env _); simpl; [|trace_done].
  destruct (String.eqb (SHA256 dep) (sha256_hex body)); simpl; [|trace_done].
  destruct (can_mkdir env (filepath_Dir (sidecar_path _ dep))); simpl;
    [|trace_done].
  destruct (can_create env (sidecar_path _ dep)); simpl; [|trace_done].
  destruct (encode_stops env _); simpl; trace_done.
Qed.

(** C5: for a dependency with a digest, the sidecar of the permanent tier
    ([CachePath]) is decoded first.  That tier is a hit exactly when its
    sidecar holds a descriptor equal to the requested dependency in every
    field; the call then opens the artifact stored in that tier and ends:
    nothing is decoded, fetched or written after it.  The download tier
    ([DownloadPath]) is decoded next, and is a hit exactly when the first
    tier was none (and decoded) and its own sidecar equals the dependency;
    again the stored artifact is opened and the call ends.  The origin is
    asked only after both sidecars have been decoded and neither equals the
    dependency; and when both tiers are no hit it is asked, right after
    the second decoding, unless no request can be built from the URI, in
    which case the call fails there. *)
Theorem Artifact_with_digest_consults_tiers_in_order d dep s :
  SHA256 dep <> "" ->
  exists new,
    trace (snd (Artifact env d dep s))
    = trace s ++ EvDecodeFile (sidecar_path (CachePath d) dep) :: new
    /\ (new = [EvOpen (artifact_path (CachePath d) dep)]
        <-> files s !! sidecar_path (CachePath d) dep = Some (Metadata dep))
    /\ (new = [EvOpen (artifact_path (CachePath d) dep)] ->
        fst (Artifact env d dep s) = opened s (artifact_path (CachePath d) dep)
        /\ files (snd (Artifact env d dep s)) = files s)
    /\ (new = [EvDecodeFile (sidecar_path (DownloadPath d) dep);
               EvOpen (artifact_path (DownloadPath d) dep)]
        <-> files s !! sidecar_path (CachePath d) dep <> Some (Metadata dep)
            /\ ~ undecodable s (sidecar_path (CachePath d) dep)
            /\ files s !! sidecar_path (DownloadPath d) dep
               = Some (Metadata dep))
    /\ (new = [EvDecodeFile (sidecar_path (DownloadPath d) dep);
               EvOpen (artifact_path (DownloadPath d) dep)] ->
        fst (Artifact env d dep s)
        = opened s (artifact_path (DownloadPath d) dep)
        /\ files (snd (Artifact env d dep s)) = files s)
    /\ (forall uri, In (EvGet uri) new ->
        uri = URI dep
        /\ (exists rest,
              new = EvDecodeFile (sidecar_path (DownloadPath d) dep)
                    :: EvGet (URI dep) :: rest)
        /\ files s !! sidecar_path (CachePath d) dep <> Some (Metadata dep)
        /\ files s !! sidecar_path (DownloadPath d) dep
           <> Some (Metadata dep))
    /\ (no_hit s (sidecar_path (CachePath d) dep) dep ->
        no_hit s (sidecar_path (DownloadPath d) dep) dep ->
        (can_request env (URI dep) = true ->
         exists rest,
           new = EvDecodeFile (sidecar_path (DownloadPath d) dep)
                 :: EvGet (URI dep) :: rest)
        /\ (can_request env (URI dep) = false ->
            new = [EvDecodeFile (sidecar_path (DownloadPath d) dep)]
            /\ fst (Artifact env d dep s)
               = Err (UnableToDownload (URI dep)
                        (UnableToCreateRequest (URI dep))))).
Proof.
  intros Hsha.
  assert (Habsurd : forall path (P : Prop),
            files s !! path = Some (Metadata dep)
            \/ undecodable s path ->
            no_hit s path dep -> P).
  { intros path P Hcase Hmiss. exfalso.
    apply no_hit_iff in Hmiss as [Hne Hdec]. destruct Hcase; auto. }
  destruct (sidecar_cases s (sidecar_path (CachePath d) dep) dep)
    as [Hhit|[Hund|Hmiss1]].
  - rewrite (Artifact_permanent_hit d dep s Hsha Hhit). simpl.
    exists [EvOpen (artifact_path (CachePath d) dep)].
    split; [reflexivity|]. split; [tauto|]. split; [auto|].
    split; [split; [discriminate|tauto]|]. split; [discriminate|].
    split; [|intros Hmiss; now apply (Habsurd _ _ (or_introl Hhit) Hmiss)].
    intros uri [Heq|[]]. discriminate.
  - rewrite (Artifact_permanent_undecodable d dep s Hsha Hund). simpl.
    exists []. split; [reflexivity|].
    split; [split; [discriminate|]|].
    { destruct Hund as [b Hb]. congruence. }
    split; [discriminate|]. split; [split; [discriminate|tauto]|].
    split; [discriminate|].
    split; [|intros Hmiss; now apply (Habsurd _ _ (or_intror Hund) Hmiss)].
    intros uri [].
  - pose proof (proj1 (no_hit_iff _ _ _) Hmiss1) as [Hne1 Hdec1].
    destruct (sidecar_cases s (sidecar_path (DownloadPath d) dep) dep)
      as [Hhit|[Hund|Hmiss2]].
    + rewrite (Artifact_download_hit d dep s Hsha Hmiss1 Hhit). simpl.
      eexists. split; [reflexivity|].
      split; [split; [discriminate|congruence]|]. split; [discriminate|].
      split; [tauto|]. split; [auto|].
      split;
        [|intros _ Hmiss; now apply (Habsurd _ _ (or_introl Hhit) Hmiss)].
      intros uri [Heq|[Heq|[]]]; discriminate.
    + rewrite (Artifact_download_undecodable d dep s Hsha Hmiss1 Hund).
      simpl. eexists. split; [reflexivity|].
      split; [split; [discriminate|congruence]|]. split; [discriminate|].
      split; [split; [discriminate|]|].
      { destruct Hund as [b Hb]. intros (_ & _ & Hm). congruence. }
      split; [discriminate|].
      split;
        [|intros _ Hmiss; now apply (Habsurd _ _ (or_intror Hund) Hmiss)].
      intros uri [Heq|[]]; discriminate.
    + pose proof (proj1 (no_hit_iff _ _ _) Hmiss2) as [Hne2 Hdec2].
      rewrite (Artifact_both_miss d dep s Hsha Hmiss1 Hmiss2).
      destruct (fetch_verify_persist_trace d dep
                  (mkDisk (files s)
                     (trace s
                      ++ [EvDecodeFile (sidecar_path (CachePath d) dep);
                          EvDecodeFile (sidecar_path (DownloadPath d) dep)])))
        as [Hasked Hrefused].
      destruct (can_request env (URI dep)) eqn:Hreq.
      * destruct (Hasked eq_refl) as (rest & -> & Hrest).
        simpl. rewrite <- app_assoc. simpl.
        eexists. split; [reflexivity|].
        split; [split; [discriminate|congruence]|]. split; [discriminate|].
        split; [split; [discriminate|tauto]|]. split; [discriminate|].
        split; [|intros _ _; split; [eauto|discriminate]].
        intros uri [Heq|[Heq|Hin]]; [discriminate| |].
        -- injection Heq as <-. split; [reflexivity|]. split; [eauto|].
           tauto.
        -- exfalso. exact (Hrest uri Hin).
      * rewrite (Hrefused eq_refl). simpl.
        eexists. split; [reflexivity|].
        split; [split; [discriminate|congruence]|]. split; [discriminate|].
        split; [split; [discriminate|tauto]|]. split; [discriminate|].
        split; [|intros _ _; split; [discriminate|auto]].
        intros uri [Heq|[]]. discriminate.
Qed.


End CacheFacts.

(** *** The cache on concrete disks *)

Example filepath_examples :
  filepath_Join ["destination"; "b"; "c.txt"] = "destination/b/c.txt"
  /\ filepath_Join [""; "a"; ""; "b"] = "a/b"
  /\ filepath_Clean "a//b/./c/.." = "a/b"
  /\ filepath_Clean "/../a" = "/a"
  /\ filepath_Clean "" = "."
  /\ filepath_Base "https://example.com/test-path" = "test-path"
  /\ filepath_Base "" = "."
  /\ filepath_Base "///" = "/"
  /\ filepath_Dir "/tmp/downloads/abc.toml" = "/tmp/downloads"
  /\ filepath_Dir "abc" = ".".
Proof. repeat split; reflexivity. Qed.

Example paths_of_test_dependency :
  sidecar_path (CachePath test_cache) test_dependency
  = "/cnb/dependencies/sha256-of-test-fixture.toml"
  /\ artifact_path (DownloadPath test_cache) test_dependency
     = "/tmp/downloads/sha256-of-test-fixture/test-path"
  /\ undigested_path test_cache undigested_dependency
     = "/tmp/downloads/test-path".
Proof. repeat split; reflexivity. Qed.

Example returns_from_cache_path :
  fst (Artifact (serving "unused") test_cache test_dependency both_tiers)
  = Ok (Bytes "test-fixture").
Proof. vm_compute. reflexivity. Qed.

(** The repository's test "downloads": nothing is cached, the origin
    serves the fixture, the sidecar is written; a second call is then
    served by the download tier without a fetch. *)
Example downloads_then_reuses :
  fst (Artifact (serving "test-fixture") test_cache test_dependency
         (mkDisk ∅ []))
  = Ok (Bytes "test-fixture")
  /\ files (snd (Artifact (serving "test-fixture") test_cache test_dependency
                   (mkDisk ∅ [])))
       !! "/tmp/downloads/sha256-of-test-fixture.toml"
     = Some (Metadata test_dependency)
  /\ Artifact (serving "test-fixture") test_cache test_dependency
       download_tier_only
     = (Ok (Bytes "test-fixture"),
        mkDisk (files download_tier_only)
          [EvDecodeFile "/cnb/dependencies/sha256-of-test-fixture.toml";
           EvDecodeFile "/tmp/downloads/sha256-of-test-fixture.toml";
           EvOpen "/tmp/downloads/sha256-of-test-fixture/test-path"]).
Proof. vm_compute. repeat split; reflexivity. Qed.

(** The repository's test "skips cache with empty SHA256". *)
Example skips_cache_with_empty_SHA256 :
  Artifact (serving "alternate-fixture") test_cache undigested_dependency
    both_tiers
  = (Ok (Bytes "alternate-fixture"),
     mkDisk (<["/tmp/downloads/test-path" := Bytes "alternate-fixture"]>
               (files both_tiers))
       [EvGet "https://example.com/test-path"; EvMkdirAll "/tmp/downloads";
        EvCreate "/tmp/downloads/test-path";
        EvOpen "/tmp/downloads/test-path"]).
Proof. vm_compute. reflexivity. Qed.



(** A sidecar with the requested digest but another name is no hit: the
    origin is asked, and the sidecar is written anew. *)
Example same_digest_other_name_is_no_hit :
  trace (snd (Artifact (serving "test-fixture") test_cache renamed_dependency
                both_tiers))
  = [EvDecodeFile "/cnb/dependencies/sha256-of-test-fixture.toml";
     EvDecodeFile "/tmp/downloads/sha256-of-test-fixture.toml";
     EvGet "https://example.com/test-path";
     EvMkdirAll "/tmp/downloads/sha256-of-test-fixture";
     EvCreate "/tmp/downloads/sha256-of-test-fixture/test-path";
     EvOpen "/tmp/downloads/sha256-of-test-fixture/test-path";
     EvMkdirAll "/tmp/downloads";
     EvCreate "/tmp/downloads/sha256-of-test-fixture.toml";
     EvEncode "/tmp/downloads/sha256-of-test-fixture.toml";
     EvOpen "/tmp/downloads/sha256-of-test-fixture/test-path"].
Proof. vm_compute. reflexivity. Qed.

Lemma Artifact_with_digest_consults_tiers_in_order_witness :
  SHA256 test_dependency <> ""
  /\ fst (Artifact (serving "unused") test_cache test_dependency
            download_tier_only)
     = Ok (Bytes "test-fixture")
  /\ files (snd (Artifact (serving "unused") test_cache test_dependency
                   download_tier_only))
     = files download_tier_only.
Proof.
  assert (Hsha : SHA256 test_dependency <> "") by discriminate.
  split; [exact Hsha|].
  destruct (Artifact_with_digest_consults_tiers_in_order (serving "unused")
              test_cache test_dependency download_tier_only Hsha)
    as (new & _ & _ & _ & Hhit & Hserved & _).
  apply Hserved. apply Hhit. split; [|split].
  - vm_compute. discriminate.
  - intros [b Hb]. vm_compute in Hb. discriminate.
  - vm_compute. reflexivity.
Defined.



(** ** Archive extraction *)

Lemma strippedPath_nonneg source destination (n : nat) :
  strippedPath source destination (Z.of_nat n)
  = Some (if Nat.leb (length (split "/" source)) n then ""
          else filepath_Join (destination :: skipn n (split "/" source))).
Proof.
  unfold strippedPath.
  destruct (Nat.leb_spec (length (split "/" source)) n) as [Hle|Hgt].
  - now rewrite (proj2 (Z.leb_le _ _)) by lia.
  - rewrite (proj2 (Z.leb_gt _ _)) by lia.
    rewrite (proj2 (Z.ltb_ge _ _)) by lia.
    now rewrite Nat2Z.id.
Qed.

Lemma extract_entry_placed destination (n : nat) f done next :
  extract_entry never destination (Z.of_nat n) f done next
  = next (done ++ placed destination n f).
Proof.
  unfold extract_entry, placed. rewrite strippedPath_nonneg.
  destruct (Nat.leb (length (split "/" (EntryName f))) n); simpl.
  - now rewrite app_nil_r.
  - unfold create_at.
    destruct (String.eqb (filepath_Join _) ""); [now rewrite app_nil_r|].
    destruct (EntryType f); unfold writeSymlink, writeFile, attempt, never;
      simpl; now rewrite <- ?app_assoc.
Qed.

Lemma extract_loop_placed destination (n : nat) entries done :
  extract_loop never destination (Z.of_nat n) entries false done
  = (done ++ flat_map (placed destination n) entries, None).
Proof.
  revert done. induction entries as [|f rest IH]; intros done; simpl.
  - now rewrite app_nil_r.
  - rewrite extract_entry_placed, IH. now rewrite <- app_assoc.
Qed.

(** C7: with a count [stripComponents] that is not negative,
    [strippedPath] answers "skip" for a name that has no more segments
    than the count, and otherwise the destination joined with the name's
    segments after the first [stripComponents]; an entry that is skipped
    causes no file-system call and no error, the loop goes on with the
    next entry; and when no file-system call fails and the stream ends
    with EOF, [ExtractTar] performs, entry after entry, exactly the calls
    that create each remaining entry at its stripped path, and returns no
    error. *)
Theorem ExtractTar_strips_leading_components
    fails source destination stripComponents :
  (0 <= stripComponents)%Z ->
  (forall name,
     strippedPath name destination stripComponents
     = Some (if (Z.of_nat (length (split "/" name)) <=? stripComponents)%Z
             then ""
             else filepath_Join
                    (destination
                     :: skipn (Z.to_nat stripComponents) (split "/" name))))
  /\ (forall f done next,
        (Z.of_nat (length (split "/" (EntryName f))) <= stripComponents)%Z ->
        extract_entry fails destination stripComponents f done next
        = next done)
  /\ (TarBroken source = false ->
      ExtractTar never source destination stripComponents
      = (flat_map (placed destination (Z.to_nat stripComponents))
           (TarEntries source), None)).
Proof.
  intros Hpos. split; [|split].
  - intros name. unfold strippedPath.
    destruct (Z.leb_spec (Z.of_nat (length (split "/" name))) stripComponents);
      [reflexivity|].
    now rewrite (proj2 (Z.ltb_ge _ _)) by lia.
  - intros f done next Hfew. unfold extract_entry, strippedPath.
    now rewrite (proj2 (Z.leb_le _ _) Hfew).
  - intros Heof. unfold ExtractTar. rewrite Heof.
    rewrite <- (Z2Nat.id stripComponents Hpos) at 1.
    now rewrite extract_loop_placed.
Qed.

Lemma ExtractTar_strips_leading_components_witness :
  ExtractTar never (mkTar [c_txt] false) "destination" 1
  = ([OpMkdirAll "destination/b" 493;
      OpWriteFile "destination/b/c.txt" 420 "content"], None)
  /\ ExtractTar never (mkTar [c_txt] false) "destination" 3 = ([], None)
  /\ strippedPath "a/b/c.txt" "destination" 1 = Some "destination/b/c.txt"
  /\ strippedPath "a/b/c.txt" "destination" 3 = Some "".
Proof.
  assert (H1 : (0 <= 1)%Z) by lia. assert (H3 : (0 <= 3)%Z) by lia.
  destruct (ExtractTar_strips_leading_components never (mkTar [c_txt] false)
              "destination" 1%Z H1) as (Hpath1 & _ & Hrun1).
  destruct (ExtractTar_strips_leading_components never (mkTar [c_txt] false)
              "destination" 3%Z H3) as (Hpath3 & _ & Hrun3).
  split; [exact (Hrun1 eq_refl)|]. split; [exact (Hrun3 eq_refl)|].
  split; [exact (Hpath1 "a/b/c.txt")|exact (Hpath3 "a/b/c.txt")].
Defined.

(** ** The order of Go strings ([<] compares byte by byte) *)

Lemma string_compare_refl s : String.compare s s = Eq.
Proof.
  induction s as [|c s IH]; simpl; [reflexivity|].
  unfold Ascii.compare. now rewrite N.compare_refl.
Qed.

Lemma string_compare_lt_trans a b c :
  String.compare a b = Lt -> String.compare b c = Lt ->
  String.compare a c = Lt.
Proof.
  revert b c. induction a as [|x a IH]; intros [|y b] [|z c]; simpl;
    try easy.
  unfold Ascii.compare.
  destruct (N.compare_spec (N_of_ascii x) (N_of_ascii y)) as [Hxy|Hxy|Hxy];
    destruct (N.compare_spec (N_of_ascii y) (N_of_ascii z)) as [Hyz|Hyz|Hyz];
    destruct (N.compare_spec (N_of_ascii x) (N_of_ascii z)) as [Hxz|Hxz|Hxz];
    try easy; try lia.
  apply IH.
Qed.

Lemma string_ltb_irrefl s : String.ltb s s = false.
Proof. unfold String.ltb. now rewrite string_compare_refl. Qed.

Lemma string_ltb_trans a b c :
  String.ltb a b = true -> String.ltb b c = true -> String.ltb a c = true.
Proof.
  unfold String.ltb.
  destruct (String.compare a b) eqn:Hab; try discriminate.
  destruct (String.compare b c) eqn:Hbc; try discriminate.
  now rewrite (string_compare_lt_trans a b c Hab Hbc).
Qed.

Lemma string_ltb_neg_trans a b c :
  String.ltb a b = false -> String.ltb b c = false -> String.ltb a c = false.
Proof.
  unfold String.ltb. intros Hab Hbc.
  destruct (String.compare a c) eqn:Hac; try reflexivity. exfalso.
  destruct (String.compare a b) eqn:Hab'; try discriminate.
  - apply String.compare_eq_iff in Hab'. subst b. now rewrite Hac in Hbc.
  - assert (Hba : String.compare b a = Lt).
    { rewrite String.compare_antisym, Hab'. reflexivity. }
    now rewrite (string_compare_lt_trans b a c Hba Hac) in Hbc.
Qed.

Lemma string_ltb_antisym a b :
  String.ltb a b = false -> String.ltb b a = false -> a = b.
Proof.
  unfold String.ltb. intros Hab Hba.
  apply String.leb_antisym; unfold String.leb.
  - rewrite String.compare_antisym. now destruct (String.compare b a).
  - rewrite String.compare_antisym. now destruct (String.compare a b).
Qed.

Lemma by_path_strict_weak (l : list FileEntry) : strict_weak_on by_path l.
Proof.
  unfold by_path. repeat split.
  - intros a _. apply string_ltb_irrefl.
  - intros a b c _ _ _. apply string_ltb_trans.
  - intros a b c _ _ _. apply string_ltb_neg_trans.
Qed.

(** ** Induction over trees *)

Section NodeInduction.
Variable P : Node -> Prop.
Hypothesis P_unstatable : forall name, P (Unstatable name).
Hypothesis P_file : forall name info data, P (FileNode name info data).
Hypothesis P_unreadable : forall name info, P (DirNode name info None).
Hypothesis P_dir : forall name info children,
  Forall P children -> P (DirNode name info (Some children)).

Fixpoint Node_induction (n : Node) : P n :=
  match n with
  | Unstatable name => P_unstatable name
  | FileNode name info data => P_file name info data
  | DirNode name info None => P_unreadable name info
  | DirNode name info (Some children) =>
      P_dir name info children
        ((fix all (cs : list Node) : Forall P cs :=
            match cs with
            | [] => @List.Forall_nil Node P
            | c :: rest =>
                @List.Forall_cons Node P c rest (Node_induction c) (all rest)
            end) children)
  end.

End NodeInduction.

Lemma walk_dir path name info children :
  walk path (DirNode name info (Some children))
  = match walk_names path children with
    | Err e => Err e
    | Ok vs => Ok (mkVisit path info IsDirectory :: vs)
    end.
Proof.
  simpl.
  assert (Heq : forall cs,
    (fix walk_names (cs : list Node) : result ListingError (list Visit) :=
       match cs with
       | [] => Ok []
       | c :: rest =>
           match walk (filepath_Join [path; node_name c]) c with
           | Err e => Err e
           | Ok vs =>
               match walk_names rest with
               | Err e => Err e
               | Ok ws => Ok (vs ++ ws)
               end
           end
       end) cs = walk_names path cs).
  { induction cs as [|c rest IH]; simpl; [reflexivity|]. now rewrite IH. }
  now rewrite Heq.
Qed.

Lemma chains_dir name info children :
  chains (DirNode name info (Some children)) = chains_below children.
Proof.
  simpl. induction children as [|c rest IH]; simpl; [reflexivity|].
  now rewrite IH.
Qed.

(** The walk hands the callback the root as given, then the walked path of
    every entry below it. *)
Lemma walk_paths n : forall path visits,
  walk path n = Ok visits ->
  map VisitPath visits = path :: map (walked_path path) (chains n).
Proof.
  induction n as [name|name info data|name info|name info children IH]
    using Node_induction; intros path visits.
  - discriminate.
  - simpl. now intros [= <-].
  - discriminate.
  - rewrite walk_dir, chains_dir.
    destruct (walk_names path children) as [vs|e] eqn:Hnames; [|discriminate].
    intros [= <-]. simpl. f_equal.
    revert vs Hnames. induction IH as [|c rest Hc _ IHrest]; intros vs; simpl.
    + now intros [= <-].
    + destruct (walk (filepath_Join [path; node_name c]) c) as [v1|e] eqn:Hw;
        [|discriminate].
      destruct (walk_names path rest) as [v2|e] eqn:Hr; [|discriminate].
      intros [= <-]. rewrite map_app, (Hc _ _ Hw), (IHrest _ eq_refl).
      simpl. rewrite map_app, map_map. reflexivity.
Qed.

(** ** The file listing *)

Section ListingFacts.
Context `{Sha256Lib} `{SortLib}.

Lemma unit_of_Ok v e : unit_of v = Ok e -> e = listed v.
Proof.
  unfold unit_of, listed.
  destruct (VisitKind v) as [|[content| |]]; simpl; congruence.
Qed.

Lemma drain_Ok arrived acc es :
  drain arrived acc = Ok es ->
  es = acc ++ flat_map values_of arrived
  /\ forall r, In r arrived -> exists e, r = Ok e.
Proof.
  revert acc. induction arrived as [|[value|err] rest IH]; intros acc; simpl.
  - intros [= <-]. split; [now rewrite app_nil_r|]. intros r [].
  - intros Hd. destruct (IH _ Hd) as [-> Hall]. split.
    + now rewrite <- app_assoc.
    + intros r [<-|Hr]; eauto.
  - discriminate.
Qed.

Lemma all_Ok_listed (vs : list Visit) :
  (forall r, In r (map unit_of vs) -> exists e, r = Ok e) ->
  flat_map values_of (map unit_of vs) = map listed vs.
Proof.
  induction vs as [|v rest IH]; intros Hall; simpl; [reflexivity|].
  destruct (Hall (unit_of v) (or_introl eq_refl)) as [e He].
  rewrite He. simpl. rewrite (unit_of_Ok v e He). f_equal.
  apply IH. intros r Hr. apply Hall. now right.
Qed.

(** What a successful call has done. *)
Lemma NewFileListing_Ok_inv root tree es :
  NewFileListing root tree (Ok es) ->
  exists visits,
    walk root tree = Ok visits
    /\ Permutation es (map listed (spawned root visits))
    /\ StronglySorted (fun a b => String.ltb (Path b) (Path a) = false) es
    /\ forall v, In v (spawned root visits) -> unit_of v = Ok (listed v).
Proof.
  intros Hrun. inversion Hrun as [e Hwalk He|visits arrived Hwalk Hperm Hout].
  exists visits. split; [exact Hwalk|].
  unfold collect in Hout.
  destruct (drain arrived []) as [vals|err] eqn:Hdrain; [|discriminate].
  injection Hout as <-.
  destruct (drain_Ok _ _ _ Hdrain) as [-> Hall]. simpl.
  assert (Hunits : forall r, In r (map unit_of (spawned root visits)) ->
                             exists e, r = Ok e).
  { intros r Hr. apply Hall.
    apply (Permutation_in _ (Permutation_sym Hperm)). exact Hr. }
  split; [|split].
  - rewrite (sort_Slice_perm _ by_path).
    rewrite <- (all_Ok_listed _ Hunits).
    apply Permutation_flat_map. exact Hperm.
  - apply (sort_Slice_sorted _ by_path). apply by_path_strict_weak.
  - intros v Hv.
    destruct (Hunits (unit_of v) (in_map unit_of _ _ Hv)) as [e He].
    now rewrite He, (unit_of_Ok v e He).
Qed.

Lemma spawned_In root visits v :
  In v (spawned root visits) <-> In v visits /\ VisitPath v <> root.
Proof.
  unfold spawned. rewrite filter_In, negb_true_iff, String.eqb_neq. tauto.
Qed.

Lemma NoDup_map_eq {A B} (f : A -> B) (l : list A) a b :
  NoDup (map f l) -> In a l -> In b l -> f a = f b -> a = b.
Proof.
  induction l as [|x l IH]; simpl; [tauto|].
  intros Hnd. apply NoDup_cons in Hnd as [Hx Hnd].
  rewrite list_elem_of_In in Hx.
  intros [<-|Ha] [<-|Hb] Hf; auto.
  - exfalso. apply Hx. rewrite Hf. now apply in_map.
  - exfalso. apply Hx. rewrite <- Hf. now apply in_map.
Qed.

(** Two listings in path order with the same entries are the same listing
    when no path occurs twice. *)
Lemma sorted_by_path_unique (l1 l2 : list FileEntry) :
  StronglySorted (fun a b => String.ltb (Path b) (Path a) = false) l1 ->
  StronglySorted (fun a b => String.ltb (Path b) (Path a) = false) l2 ->
  Permutation l1 l2 -> NoDup (map Path l1) -> l1 = l2.
Proof.
  intros Hs1. revert l2.
  induction Hs1 as [|a t1 Hs1 IH Ha]; intros l2 Hs2 Hperm Hnd.
  - apply Permutation_nil in Hperm. now subst.
  - destruct l2 as [|b t2].
    { apply Permutation_sym, Permutation_nil in Hperm. discriminate. }
    assert (Hab : a = b).
    { inversion Hs2 as [|? ? _ Hb]; subst.
      rewrite Forall_forall in Ha, Hb.
      assert (Hina : In a (b :: t2))
        by (apply (Permutation_in _ Hperm); now left).
      assert (Hinb : In b (a :: t1))
        by (apply (Permutation_in _ (Permutation_sym Hperm)); now left).
      destruct Hina as [->|Hina]; [reflexivity|].
      destruct Hinb as [->|Hinb]; [reflexivity|].
      apply (NoDup_map_eq Path (a :: t1)); simpl; auto.
      apply string_ltb_antisym.
      - apply Hb. now apply list_elem_of_In.
      - apply Ha. now apply list_elem_of_In. }
    subst b. f_equal. apply IH.
    + now inversion Hs2.
    + now apply Permutation_cons_inv in Hperm.
    + simpl in Hnd. now apply NoDup_cons in Hnd as [_ Hnd].
Qed.

(** C8 (as the code has it): a successful listing holds exactly one entry
    for every visit of the walk other than the root, so none with the
    root's path; the entries are in the order of their paths, whatever
    order the results arrived in; the entry of a directory has an empty
    digest field and the entry of anything that is not a directory,
    regular file or not, has the SHA-256 of what reading it gives; and
    when no two visits share a path, every successful run returns the same
    listing. *)
Theorem NewFileListing_sorted_digests_no_root root tree es :
  NewFileListing root tree (Ok es) ->
  exists visits,
    walk root tree = Ok visits
    /\ Permutation es (map listed (spawned root visits))
    /\ (forall e, In e es -> Path e <> root)
    /\ StronglySorted (fun a b => String.ltb (Path b) (Path a) = false) es
    /\ (forall e, In e es ->
        exists v, In v visits /\ e = listed v
          /\ match VisitKind v with
             | IsDirectory => EntrySHA256 e = ""
             | NotDirectory data =>
                 exists content,
                   data = Readable content
                   /\ EntrySHA256 e = sha256_hex content
             end)
    /\ (NoDup (map VisitPath visits) ->
        forall es', NewFileListing root tree (Ok es') -> es' = es).
Proof.
  intros Hrun.
  destruct (NewFileListing_Ok_inv root tree es Hrun)
    as (visits & Hwalk & Hperm & Hsorted & Hunits).
  exists visits. split; [exact Hwalk|]. split; [exact Hperm|].
  assert (Hfrom : forall e, In e es ->
            exists v, In v (spawned root visits) /\ e = listed v).
  { intros e He. apply (Permutation_in _ Hperm) in He.
    apply in_map_iff in He as (v & <- & Hv). eauto. }
  split; [|split; [exact Hsorted|split]].
  - intros e He. destruct (Hfrom e He) as (v & Hv & ->).
    apply spawned_In in Hv. simpl. tauto.
  - intros e He. destruct (Hfrom e He) as (v & Hv & ->).
    exists v. split; [apply spawned_In in Hv; tauto|].
    split; [reflexivity|].
    specialize (Hunits v Hv). unfold unit_of, listed in *.
    destruct (VisitKind v) as [|[content| |]]; simpl; try discriminate; eauto.
  - intros Hnd es' Hrun'.
    destruct (NewFileListing_Ok_inv root tree es' Hrun')
      as (visits' & Hwalk' & Hperm' & Hsorted' & _).
    assert (visits' = visits) by congruence. subst visits'.
    apply sorted_by_path_unique; try assumption.
    + now rewrite Hperm', Hperm.
    + rewrite Hperm', map_map. simpl.
      assert (Hsub : forall l, NoDup (map VisitPath l) ->
                NoDup (map VisitPath (spawned root l))).
      { induction l as [|v l IHl]; simpl; [auto|].
        intros Hl. apply NoDup_cons in Hl as [Hv Hl].
        destruct (negb (String.eqb (VisitPath v) root)); simpl; [|auto].
        apply NoDup_cons. split; [|auto].
        rewrite list_elem_of_In in Hv |- *. intros Hin. apply Hv.
        apply in_map_iff in Hin as (w & Hw & Hin).
        apply spawned_In in Hin. apply in_map_iff. exists w. tauto. }
      exact (Hsub visits Hnd).
Qed.

(** C9 (as the code has it): the [Path] fields of a successful listing are
    the paths the walk built for the entries below the root, each one the
    root as passed to the call joined, by [filepath.Join], with the names
    leading to the entry, one after the other. *)
Theorem NewFileListing_paths_are_walked_paths root tree es :
  NewFileListing root tree (Ok es) ->
  Permutation (map Path es)
    (List.filter (fun p => negb (String.eqb p root))
       (map (walked_path root) (chains tree))).
Proof.
  intros Hrun.
  destruct (NewFileListing_Ok_inv root tree es Hrun)
    as (visits & Hwalk & Hperm & _ & _).
  rewrite Hperm, map_map. simpl.
  pose proof (walk_paths tree root visits Hwalk) as Hpaths.
  assert (Hfilter : forall l,
    map VisitPath (spawned root l)
    = List.filter (fun p => negb (String.eqb p root)) (map VisitPath l)).
  { induction l as [|v l IHl]; simpl; [reflexivity|].
    destruct (negb (String.eqb (VisitPath v) root)); simpl; now rewrite IHl. }
  change (map (fun x => VisitPath x) (spawned root visits))
    with (map VisitPath (spawned root visits)).
  rewrite Hfilter, Hpaths. simpl. now rewrite String.eqb_refl.
Qed.

End ListingFacts.

(** *** The listing of a concrete tree *)

Example walk_app_tree : walk "/layers/app" app_tree = Ok app_visits.
Proof. reflexivity. Qed.

(** The run in which the results arrive in the reverse of the walk order. *)
Lemma app_listing_run : NewFileListing "/layers/app" app_tree (Ok app_listing).
Proof.
  change (Ok app_listing)
    with (collect (rev (map unit_of (spawned "/layers/app" app_visits)))).
  apply (listing_collects "/layers/app" app_tree app_visits).
  - reflexivity.
  - symmetry. apply Permutation_rev.
Qed.

Lemma NewFileListing_sorted_digests_no_root_witness :
  NewFileListing "/layers/app" app_tree (Ok app_listing)
  /\ exists visits,
       walk "/layers/app" app_tree = Ok visits
       /\ Permutation app_listing
            (map listed (spawned "/layers/app" visits))
       /\ (forall e, In e app_listing -> Path e <> "/layers/app")
       /\ StronglySorted (fun a b => String.ltb (Path b) (Path a) = false)
            app_listing
       /\ (forall e, In e app_listing ->
           exists v, In v visits /\ e = listed v
             /\ match VisitKind v with
                | IsDirectory => EntrySHA256 e = ""
                | NotDirectory data =>
                    exists content,
                      data = Readable content
                      /\ EntrySHA256 e = sha256_hex content
                end)
       /\ (NoDup (map VisitPath visits) ->
           forall es',
             NewFileListing "/layers/app" app_tree (Ok es') ->
             es' = app_listing).
Proof.
  split; [exact app_listing_run|].
  exact (NewFileListing_sorted_digests_no_root "/layers/app" app_tree
           app_listing app_listing_run).
Defined.

(** C8, as stated, fails: in the listing of [{current -> x.txt, x.txt}]
    the entry of the symbolic link, whose mode is not that of a regular
    file, carries a digest. *)
Lemma NewFileListing_digest_on_symbolic_link :
  NewFileListing "/layers/app" linked_tree (Ok linked_listing)
  /\ exists e,
       In e linked_listing
       /\ Path e = "/layers/app/current"
       /\ Mode e = "Lrwxrwxrwx"
       /\ regular_mode (Mode e) = false
       /\ EntrySHA256 e = "sha256-of-x"
       /\ EntrySHA256 e <> "".
Proof.
  split.
  - change (Ok linked_listing)
      with (collect (rev (map unit_of
                            (spawned "/layers/app" linked_visits)))).
    apply (listing_collects "/layers/app" linked_tree linked_visits).
    + reflexivity.
    + symmetry. apply Permutation_rev.
  - eexists. split; [left; reflexivity|]. simpl.
    repeat split; try reflexivity. discriminate.
Qed.

Lemma NewFileListing_paths_are_walked_paths_witness :
  Permutation (map Path app_listing)
    (List.filter (fun p => negb (String.eqb p "/layers/app"))
       (map (walked_path "/layers/app") (chains app_tree))).
Proof.
  exact (NewFileListing_paths_are_walked_paths "/layers/app" app_tree
           app_listing app_listing_run).
Defined.

(** C9, as stated, fails: the listing of [{x.txt, y/z.txt}] at
    [/layers/app] carries the paths [/layers/app/x.txt], [/layers/app/y]
    and [/layers/app/y/z.txt], none of which is the path of an entry
    relative to that root. *)
Lemma NewFileListing_path_is_not_relative :
  NewFileListing "/layers/app" app_tree (Ok app_listing)
  /\ map Path app_listing
     = ["/layers/app/x.txt"; "/layers/app/y"; "/layers/app/y/z.txt"]
  /\ map relative_path (chains app_tree) = ["x.txt"; "y"; "y/z.txt"]
  /\ forall e, In e app_listing ->
       ~ In (Path e) (map relative_path (chains app_tree)).
Proof.
  split; [exact app_listing_run|]. split; [reflexivity|].
  split; [reflexivity|].
  intros e He Hin. simpl in He, Hin.
  destruct He as [<-|[<-|[<-|[]]]]; simpl in Hin;
    intuition discriminate.
Qed.

(** * Further properties of the resolver *)

Section ResolverMore.
Context `{SemverLib} `{SortLib}.

(** What a successful [Resolve] has gone through. *)
Lemma Resolve_Ok_inv d id version best :
  Resolve d id version = Ok best ->
  exists vc,
    NewConstraint (default_constraint version) = Some vc
    /\ Forall parses (Dependencies d)
    /\ In best (List.filter (matches vc id (StackID d)) (Dependencies d))
    /\ forall c,
         In c (List.filter (matches vc id (StackID d)) (Dependencies d)) ->
         newer c best = false.
Proof.
  rewrite Resolve_unfold.
  destruct (NewConstraint _) as [vc|]; [|discriminate].
  destruct (candidates_loop _ _ _ _ _) as [cs|e] eqn:Hloop; [|discriminate].
  pose proof (candidates_loop_Ok _ _ _ _ _ _ Hloop) as Hall.
  rewrite (candidates_loop_all_parse _ _ _ _ _ Hall) in Hloop.
  injection Hloop as <-. simpl.
  set (cs := List.filter (matches vc id (StackID d)) (Dependencies d)).
  destruct (Nat.eqb (length cs) 0); [discriminate|].
  destruct (sort_Slice newer cs) as [|b rest] eqn:Hsort; [discriminate|].
  intros [= ->].
  assert (Hcs : Forall parses cs).
  { rewrite Forall_forall in Hall |- *. intros x Hx. apply Hall.
    apply list_elem_of_In in Hx. apply filter_In in Hx.
    apply list_elem_of_In. tauto. }
  destruct (sort_Slice_head newer cs best rest (newer_strict_weak _ Hcs) Hsort)
    as (Hbest & Hmax).
  exists vc. auto.
Qed.

Lemma parses_dec (c : BuildpackDependency) :
  parses c \/ NewVersion (Version c) = None.
Proof.
  unfold parses. destruct (NewVersion (Version c)) as [v|]; eauto.
Qed.

Lemma all_parse_or_not (deps : list BuildpackDependency) :
  Forall parses deps
  \/ exists c, In c deps /\ NewVersion (Version c) = None.
Proof.
  induction deps as [|c rest [IH|(b & Hb & Hnone)]].
  - left. constructor.
  - destruct (parses_dec c) as [Hc|Hc].
    + left. now constructor.
    + right. exists c. simpl. auto.
  - right. exists b. simpl. auto.
Qed.

(** X1: [Resolve] succeeds exactly when the constraint parses, every
    version in the catalog parses, and at least one entry is a candidate
    for the id and the stack. *)
Theorem Resolve_succeeds_iff d id version :
  (exists best, Resolve d id version = Ok best)
  <-> exists vc,
        NewConstraint (default_constraint version) = Some vc
        /\ Forall parses (Dependencies d)
        /\ exists c, In c (Dependencies d)
                     /\ candidate vc id (StackID d) c.
Proof.
  split.
  - intros [best Hbest].
    destruct (Resolve_Ok_inv d id version best Hbest)
      as (vc & Hvc & Hall & Hin & _).
    exists vc. split; [exact Hvc|]. split; [exact Hall|].
    apply filter_In in Hin as [Hin Hm]. exists best.
    split; [exact Hin|]. now apply matches_candidate.
  - intros (vc & Hvc & Hall & c & Hin & Hcand).
    exact (Resolve_succeeds d id version vc c Hvc Hall Hin Hcand).
Qed.

(** X2: [Resolve] ends with the no-valid-dependencies error exactly when
    the constraint parses, every version in the catalog parses and no
    entry is a candidate; the error then carries the id asked for, the
    constraint as used (["*"] for the empty string), the stack id and the
    whole catalog. *)
Theorem Resolve_no_valid_dependencies_iff d id version i v s ds :
  Resolve d id version = Err (NoValidDependenciesError i v s ds)
  <-> i = id /\ v = default_constraint version /\ s = StackID d
      /\ ds = Dependencies d
      /\ exists vc,
           NewConstraint (default_constraint version) = Some vc
           /\ Forall parses (Dependencies d)
           /\ forall c, In c (Dependencies d) ->
                        ~ candidate vc id (StackID d) c.
Proof.
  rewrite Resolve_unfold. split.
  - destruct (NewConstraint _) as [vc|]; [|discriminate].
    destruct (candidates_loop _ _ _ _ _) as [cs|e] eqn:Hloop.
    + pose proof (candidates_loop_Ok _ _ _ _ _ _ Hloop) as Hall.
      rewrite (candidates_loop_all_parse _ _ _ _ _ Hall) in Hloop.
      injection Hloop as <-. simpl.
      destruct (List.filter _ _) as [|x xs] eqn:Hf; simpl.
      * intros [= <- <- <- <-]. repeat (split; [reflexivity|]).
        exists vc. split; [reflexivity|]. split; [exact Hall|].
        intros c Hc Hcand.
        assert (Hin : In c (List.filter (matches vc id (StackID d))
                              (Dependencies d))).
        { apply filter_In. split; [exact Hc|]. now apply matches_candidate. }
        rewrite Hf in Hin. destruct Hin.
      * destruct (sort_Slice newer (x :: xs)); discriminate.
    + intros [= ->]. exfalso. revert Hloop.
      generalize (@nil BuildpackDependency).
      induction (Dependencies d) as [|c rest IH]; intros acc; simpl.
      * discriminate.
      * destruct (NewVersion (Version c)); [|discriminate].
        destruct (_ && _); apply IH.
  - intros (-> & -> & -> & -> & vc & Hvc & Hall & Hnone).
    rewrite Hvc, (candidates_loop_all_parse _ _ _ _ _ Hall). simpl.
    assert (Hempty : List.filter (matches vc id (StackID d))
                       (Dependencies d) = []).
    { destruct (List.filter _ _) as [|x xs] eqn:Hf; [reflexivity|].
      exfalso.
      assert (Hx : In x (List.filter (matches vc id (StackID d))
                           (Dependencies d))) by (rewrite Hf; now left).
      apply filter_In in Hx as [Hx Hm].
      apply (Hnone x Hx). now apply matches_candidate. }
    now rewrite Hempty.
Qed.

(** X3: with a constraint that parses, the error for a version that does
    not parse names the first such entry in catalog order, whatever comes
    after it and whatever candidates were met before it. *)
Theorem Resolve_reports_first_unparsable d id version vc before bad after :
  NewConstraint (default_constraint version) = Some vc ->
  Dependencies d = before ++ bad :: after ->
  Forall parses before ->
  NewVersion (Version bad) = None ->
  Resolve d id version = Err (UnableToParseVersion (Version bad)).
Proof.
  intros Hvc Hdeps Hbefore Hbad. rewrite Resolve_unfold, Hvc, Hdeps.
  clear Hdeps.
  assert (Hloop : forall acc,
    candidates_loop vc id (StackID d) (before ++ bad :: after) acc
    = Err (UnableToParseVersion (Version bad))).
  { induction Hbefore as [|c rest [v Hv] _ IH]; intros acc; simpl.
    - now rewrite Hbad.
    - rewrite Hv. destruct (_ && _); apply IH. }
  now rewrite Hloop.
Qed.

(** X4: the version [Resolve] picks does not depend on the order of the
    catalog: on a rearranged catalog it succeeds as well, and neither of
    the two versions returned ranks above the other. *)
Theorem Resolve_version_independent_of_order d d' id version best :
  Permutation (Dependencies d) (Dependencies d') ->
  StackID d = StackID d' ->
  Resolve d id version = Ok best ->
  exists best' v v',
    Resolve d' id version = Ok best'
    /\ NewVersion (Version best) = Some v
    /\ NewVersion (Version best') = Some v'
    /\ GreaterThan v v' = false /\ GreaterThan v' v = false.
Proof.
  intros Hperm Hstack Hbest.
  destruct (Resolve_Ok_inv d id version best Hbest)
    as (vc & Hvc & Hall & Hin & Hmax).
  assert (Hall' : Forall parses (Dependencies d')).
  { rewrite Forall_forall in Hall |- *. intros x Hx. apply Hall.
    apply list_elem_of_In. apply list_elem_of_In in Hx.
    apply (Permutation_in _ (Permutation_sym Hperm)). exact Hx. }
  assert (Hsame : forall c,
    In c (List.filter (matches vc id (StackID d)) (Dependencies d))
    <-> In c (List.filter (matches vc id (StackID d')) (Dependencies d'))).
  { intros c. rewrite !filter_In, Hstack. split; intros [Hc Hm]; split;
      try exact Hm.
    - apply (Permutation_in _ Hperm). exact Hc.
    - apply (Permutation_in _ (Permutation_sym Hperm)). exact Hc. }
  assert (Hsucc : exists best', Resolve d' id version = Ok best').
  { pose proof (proj1 (Hsame best) Hin) as Hin2.
    apply filter_In in Hin2 as [Hc Hm].
    apply (Resolve_succeeds d' id version vc best Hvc Hall' Hc).
    now apply matches_candidate. }
  destruct Hsucc as [best' Hbest'].
  destruct (Resolve_Ok_inv d' id version best' Hbest')
    as (vc' & Hvc' & _ & Hin' & Hmax').
  assert (vc' = vc) by congruence. subst vc'.
  pose proof (Hmax best' (proj2 (Hsame best') Hin')) as H1.
  pose proof (Hmax' best (proj1 (Hsame best) Hin)) as H2.
  apply filter_In in Hin as [_ Hm]. apply filter_In in Hin' as [_ Hm'].
  apply matches_candidate in Hm as (_ & (v & Hv & _) & _).
  apply matches_candidate in Hm' as (_ & (v' & Hv' & _) & _).
  exists best', v, v'. unfold newer in H1, H2. rewrite Hv, Hv' in H1, H2.
  auto.
Qed.

End ResolverMore.

Section ResolverGrowth.
Context `{SemverLib} `{SortLib}.

(** X5: adding a dependency whose version parses, anywhere in the catalog,
    never hides a match: where [Any] answered true before, it still
    does. *)
Theorem Any_survives_added_dependency d d' c id version :
  Permutation (c :: Dependencies d) (Dependencies d') ->
  StackID d' = StackID d ->
  parses c ->
  Any d id version = true ->
  Any d' id version = true.
Proof.
  intros Hperm Hstack Hc Hany. unfold Any in *.
  destruct (Resolve d id version) as [best|e] eqn:Hbest; [|discriminate].
  destruct (Resolve_Ok_inv d id version best Hbest)
    as (vc & Hvc & Hall & Hin & _).
  apply filter_In in Hin as [Hin Hm].
  destruct (Resolve_succeeds d' id version vc best Hvc) as [best' ->].
  - rewrite Forall_forall in Hall |- *. intros x Hx.
    apply list_elem_of_In in Hx.
    apply (Permutation_in _ (Permutation_sym Hperm)) in Hx.
    destruct Hx as [<-|Hx]; [exact Hc|].
    apply Hall. now apply list_elem_of_In.
  - apply (Permutation_in _ Hperm). now right.
  - rewrite Hstack. now apply matches_candidate.
  - reflexivity.
Qed.

End ResolverGrowth.

(** * Further properties of the artifact cache *)

Section CacheMore.
Context `{Sha256Lib}.
Variable env : Env.

(** X6: [download] calls [client.Do] at most once: first of all and once
    when [http.NewRequest] accepts the URI, not at all otherwise.  It
    succeeds exactly when the request can be built, the answer has a
    status from 200 to 299, the destination's directory and file can be
    created, and the copy goes to its end; the destination then holds the
    body.  A call that fails leaves the files as they were, except when
    the copy broke off: the destination then holds the part written.  No
    other path changes in any case. *)
Theorem download_succeeds_iff_copied uri destination s :
  (fst (download env uri destination s) = Ok tt
   <-> can_request env uri = true
       /\ (exists code body,
             origin env uri = Status code body /\ (200 <= code <= 299)%Z)
       /\ can_mkdir env (filepath_Dir destination) = true
       /\ can_create env destination = true
       /\ copy_stops env uri destination = None)
  /\ (forall code body,
        origin env uri = Status code body ->
        fst (download env uri destination s) = Ok tt ->
        files (snd (download env uri destination s))
        = <[destination := body]> (files s))
  /\ (forall e,
        fst (download env uri destination s) = Err e ->
        (e <> UnableToCopy uri destination ->
         files (snd (download env uri destination s)) = files s)
        /\ (e = UnableToCopy uri destination ->
            exists partial,
              copy_stops env uri destination = Some partial
              /\ files (snd (download env uri destination s))
                 = <[destination := partial]> (files s)))
  /\ (forall p, p <> destination ->
        files (snd (download env uri destination s)) !! p = files s !! p)
  /\ (can_request env uri = false ->
      download env uri destination s = (Err (UnableToCreateRequest uri), s))
  /\ (can_request env uri = true ->
      exists rest,
        trace (snd (download env uri destination s))
        = trace s ++ EvGet uri :: rest
        /\ forall u, ~ In (EvGet u) rest).
Proof.
  rewrite download_run.
  destruct (can_request env uri) eqn:Hreq; simpl.
  2:{ split; [split; [discriminate|intros [? _]; discriminate]|].
      split; [discriminate|].
      split; [intros e [= <-]; split; [reflexivity|discriminate]|].
      split; [reflexivity|]. split; [reflexivity|discriminate]. }
  destruct (origin env uri) as [|code body] eqn:Horigin; simpl.
  { split; [split; [discriminate|]|].
    { intros (_ & (? & ? & ? & _) & _). discriminate. }
    split; [discriminate|].
    split; [intros e [= <-]; split; [reflexivity|discriminate]|].
    split; [reflexivity|]. split; [discriminate|]. intros _.
    exists []. split; [reflexivity|]. intros u []. }
  destruct ((code <? 200)%Z || (299 <? code)%Z) eqn:Hcode; simpl.
  { apply orb_true_iff in Hcode. rewrite !Z.ltb_lt in Hcode.
    split; [split; [discriminate|]|].
    { intros (_ & (code' & body' & [= <- <-] & Hrange) & _). lia. }
    split; [discriminate|].
    split; [intros e [= <-]; split; [reflexivity|discriminate]|].
    split; [reflexivity|]. split; [discriminate|]. intros _.
    exists []. split; [reflexivity|]. intros u []. }
  apply orb_false_iff in Hcode. rewrite !Z.ltb_ge in Hcode.
  destruct (can_mkdir env (filepath_Dir destination)) eqn:Hmk; simpl.
  2:{ split; [split; [discriminate|]|].
      { intros (_ & _ & Hmk' & _). discriminate. }
      split; [discriminate|].
      split; [intros e [= <-]; split; [reflexivity|discriminate]|].
      split; [reflexivity|]. split; [discriminate|]. intros _.
      eexists. split; [reflexivity|].
      intros u Hin. simpl in Hin. intuition discriminate. }
  destruct (can_create env destination) eqn:Hcr; simpl.
  2:{ split; [split; [discriminate|]|].
      { intros (_ & _ & _ & Hcr' & _). discriminate. }
      split; [discriminate|].
      split; [intros e [= <-]; split; [reflexivity|discriminate]|].
      split; [reflexivity|]. split; [discriminate|]. intros _.
      eexists. split; [reflexivity|].
      intros u Hin. simpl in Hin. intuition discriminate. }
  destruct (copy_stops env uri destination) as [partial|] eqn:Hcopy; simpl.
  { split; [split; [discriminate|]|].
    { intros (_ & _ & _ & _ & Hcopy'). discriminate. }
    split; [discriminate|].
    split; [intros e [= <-]; split; [congruence|eauto]|].
    split; [intros p Hp; now rewrite lookup_insert_ne|].
    split; [discriminate|]. intros _.
    eexists. split; [reflexivity|].
    intros u Hin. simpl in Hin. intuition discriminate. }
  split; [split; [intros _|reflexivity]|].
  { split; [reflexivity|]. split; [|auto].
    exists code, body. split; [reflexivity|lia]. }
  split; [now intros code' body' [= <- <-] _|]. split; [discriminate|].
  split; [intros p Hp; now rewrite lookup_insert_ne|].
  split; [discriminate|]. intros _.
  eexists. split; [reflexivity|].
  intros u Hin. simpl in Hin. intuition discriminate.
Qed.

(** X7: [verify] only reads: the files on disk are as before, the one call
    is opening the file, and the answer is success exactly when the file
    exists, can be read to its end, and its SHA-256 is the expected
    one. *)
Theorem verify_only_reads path expected s :
  files (snd (verify env path expected s)) = files s
  /\ trace (snd (verify env path expected s)) = trace s ++ [EvOpen path]
  /\ (fst (verify env path expected s) = Ok tt
      <-> exists content,
            files s !! path = Some content
            /\ can_read env path = true
            /\ sha256_hex content = expected).
Proof.
  unfold verify, os_Open, bind, emit, fail, ret, record. simpl.
  destruct (files s !! path) as [content|]; simpl.
  - destruct (can_read env path); simpl.
    + destruct (String.eqb_spec expected (sha256_hex content)) as [->|Hne];
        simpl.
      * repeat split; eauto.
      * repeat split; try discriminate.
        intros (c & [= <-] & _ & Hc). congruence.
    + repeat split; try discriminate.
      intros (c & _ & Hc & _). discriminate.
  - repeat split; try discriminate. intros (c & Hc & _). discriminate.
Qed.

(** What [fetch_verify_persist] leaves on disk, path by path. *)
Lemma fetch_verify_persist_frame d dep s0 p :
  p <> artifact_path (DownloadPath d) dep ->
  p <> sidecar_path (DownloadPath d) dep ->
  files (snd (fetch_verify_persist env d dep s0)) !! p = files s0 !! p.
Proof.
  intros Hart Hmeta. rewrite fetch_verify_persist_run. cbv zeta.
  rewrite download_run.
  destruct (can_request env (URI dep)); simpl; [|reflexivity].
  destruct (origin env (URI dep)) as [|code body]; simpl; [reflexivity|].
  destruct ((code <? 200)%Z || (299 <? code)%Z); simpl; [reflexivity|].
  destruct (can_mkdir env (filepath_Dir (artifact_path _ dep))); simpl;
    [|reflexivity].
  destruct (can_create env (artifact_path _ dep)); simpl; [|reflexivity].
  destruct (copy_stops env _ _); simpl; [now rewrite lookup_insert_ne|].
  rewrite lookup_insert_eq.
  destruct (can_read env _); simpl; [|now rewrite lookup_insert_ne].
  destruct (String.eqb (SHA256 dep) (sha256_hex body)); simpl;
    [|now rewrite lookup_insert_ne].
  destruct (can_mkdir env (filepath_Dir (sidecar_path _ dep))); simpl;
    [|now rewrite lookup_insert_ne].
  destruct (can_create env (sidecar_path _ dep)); simpl;
    [|now rewrite lookup_insert_ne].
  destruct (encode_stops env _); simpl; now rewrite !lookup_insert_ne.
Qed.

(** X8: [Artifact] changes the content of at most two paths, whatever the
    way the call ends: without digest the file the download goes to,
    [Join(DownloadPath, Base(URI))]; with a digest the artifact
    [Join(DownloadPath, SHA256, Base(URI))] and the sidecar
    [Join(DownloadPath, SHA256 + ".toml")].  Every other path holds after
    the call what it held before. *)
Theorem Artifact_changes_only_its_own_paths d dep s p :
  (SHA256 dep = "" -> p <> undigested_path d dep) ->
  (SHA256 dep <> "" ->
   p <> artifact_path (DownloadPath d) dep
   /\ p <> sidecar_path (DownloadPath d) dep) ->
  files (snd (Artifact env d dep s)) !! p = files s !! p.
Proof.
  intros Hund Hdig.
  destruct (String.eqb_spec (SHA256 dep) "") as [Hsha|Hsha].
  - specialize (Hund Hsha).
    rewrite (Artifact_undigested_run env d dep s Hsha), download_run.
    destruct (can_request env (URI dep)); simpl; [|reflexivity].
    destruct (origin env (URI dep)) as [|code body]; simpl; [reflexivity|].
    destruct ((code <? 200)%Z || (299 <? code)%Z); simpl; [reflexivity|].
    destruct (can_mkdir env _); simpl; [|reflexivity].
    destruct (can_create env _); simpl; [|reflexivity].
    destruct (copy_stops env _ _); simpl; now rewrite lookup_insert_ne.
  - destruct (Hdig Hsha) as [Hart Hmeta].
    destruct (sidecar_cases s (sidecar_path (CachePath d) dep) dep)
      as [Hhit|[Hbad|Hmiss1]].
    + now rewrite (Artifact_permanent_hit env d dep s Hsha Hhit).
    + now rewrite (Artifact_permanent_undecodable env d dep s Hsha Hbad).
    + destruct (sidecar_cases s (sidecar_path (DownloadPath d) dep) dep)
        as [Hhit|[Hbad|Hmiss2]].
      * now rewrite (Artifact_download_hit env d dep s Hsha Hmiss1 Hhit).
      * now rewrite (Artifact_download_undecodable env d dep s Hsha Hmiss1
                       Hbad).
      * rewrite (Artifact_both_miss env d dep s Hsha Hmiss1 Hmiss2).
        now rewrite (fetch_verify_persist_frame d dep _ p Hart Hmeta).
Qed.

(** A fetch that ends well: what was answered, and what is on disk. *)
Lemma fetch_verify_persist_Ok d dep s0 c :
  artifact_path (DownloadPath d) dep <> sidecar_path (DownloadPath d) dep ->
  fst (fetch_verify_persist env d dep s0) = Ok c ->
  (exists code, origin env (URI dep) = Status code c
                /\ (200 <= code <= 299)%Z)
  /\ sha256_hex c = SHA256 dep
  /\ files (snd (fetch_verify_persist env d dep s0))
     = <[sidecar_path (DownloadPath d) dep := Metadata dep]>
         (<[artifact_path (DownloadPath d) dep := c]> (files s0)).
Proof.
  intros Hdistinct. rewrite fetch_verify_persist_run. cbv zeta.
  rewrite download_run. unfold opened.
  destruct (can_request env (URI dep)); simpl; [|discriminate].
  destruct (origin env (URI dep)) as [|code body]; simpl; [discriminate|].
  destruct ((code <? 200)%Z || (299 <? code)%Z) eqn:Hcode; simpl;
    [discriminate|].
  apply orb_false_iff in Hcode. rewrite !Z.ltb_ge in Hcode.
  destruct (can_mkdir env (filepath_Dir (artifact_path _ dep))); simpl;
    [|discriminate].
  destruct (can_create env (artifact_path _ dep)); simpl; [|discriminate].
  destruct (copy_stops env _ _); simpl; [discriminate|].
  rewrite lookup_insert_eq.
  destruct (can_read env _); simpl; [|discriminate].
  destruct (String.eqb_spec (SHA256 dep) (sha256_hex body)) as [Heq|Hne];
    simpl; [|discriminate].
  destruct (can_mkdir env (filepath_Dir (sidecar_path _ dep))); simpl;
    [|discriminate].
  destruct (can_create env (sidecar_path _ dep)); simpl; [|discriminate].
  destruct (encode_stops env _); simpl; [discriminate|].
  rewrite lookup_insert_ne by congruence.
  rewrite lookup_insert_eq. intros [= <-].
  split; [exists code; split; [reflexivity|lia]|]. auto.
Qed.

(** X9: a call with digest that misses both tiers and succeeds returns
    the body the origin answered, whose SHA-256 is the declared digest,
    and leaves a complete record in the download tier: the sidecar holds
    the dependency and the artifact path holds the returned content. *)
Theorem Artifact_miss_success_is_verified_and_recorded d dep s c :
  SHA256 dep <> "" ->
  no_hit s (sidecar_path (CachePath d) dep) dep ->
  no_hit s (sidecar_path (DownloadPath d) dep) dep ->
  artifact_path (DownloadPath d) dep <> sidecar_path (DownloadPath d) dep ->
  fst (Artifact env d dep s) = Ok c ->
  (exists code, origin env (URI dep) = Status code c
                /\ (200 <= code <= 299)%Z)
  /\ sha256_hex c = SHA256 dep
  /\ files (snd (Artifact env d dep s)) !! sidecar_path (DownloadPath d) dep
     = Some (Metadata dep)
  /\ files (snd (Artifact env d dep s)) !! artifact_path (DownloadPath d) dep
     = Some c.
Proof.
  intros Hsha Hmiss1 Hmiss2 Hdistinct.
  rewrite (Artifact_both_miss env d dep s Hsha Hmiss1 Hmiss2). intros Hok.
  destruct (fetch_verify_persist_Ok d dep _ c Hdistinct Hok)
    as (Horigin & Hdigest & ->).
  split; [exact Horigin|]. split; [exact Hdigest|].
  rewrite lookup_insert_eq. split; [reflexivity|].
  rewrite !lookup_insert_ne by congruence. now rewrite lookup_insert_eq.
Qed.

(** X10: after a call with digest that went to the origin and succeeded,
    the same call again is served by the download tier: it returns the
    same content, asks the origin nothing and changes no file.  The three
    paths involved are taken to be different files. *)
Theorem Artifact_second_call_is_a_hit d dep s c :
  SHA256 dep <> "" ->
  no_hit s (sidecar_path (CachePath d) dep) dep ->
  no_hit s (sidecar_path (DownloadPath d) dep) dep ->
  artifact_path (DownloadPath d) dep <> sidecar_path (DownloadPath d) dep ->
  sidecar_path (CachePath d) dep <> sidecar_path (DownloadPath d) dep ->
  sidecar_path (CachePath d) dep <> artifact_path (DownloadPath d) dep ->
  fst (Artifact env d dep s) = Ok c ->
  Artifact env d dep (snd (Artifact env d dep s))
  = (Ok c,
     mkDisk (files (snd (Artifact env d dep s)))
       (trace (snd (Artifact env d dep s))
        ++ [EvDecodeFile (sidecar_path (CachePath d) dep);
            EvDecodeFile (sidecar_path (DownloadPath d) dep);
            EvOpen (artifact_path (DownloadPath d) dep)])).
Proof.
  intros Hsha Hmiss1 Hmiss2 Hdistinct Hmetas Hmeta1 Hok.
  rewrite (Artifact_both_miss env d dep s Hsha Hmiss1 Hmiss2) in Hok |- *.
  destruct (fetch_verify_persist_Ok d dep _ c Hdistinct Hok)
    as (_ & _ & Hfiles).
  set (s' := snd (fetch_verify_persist env d dep _)) in *.
  assert (Hside : files s' !! sidecar_path (DownloadPath d) dep
                  = Some (Metadata dep)).
  { rewrite Hfiles. now rewrite lookup_insert_eq. }
  assert (Hart : files s' !! artifact_path (DownloadPath d) dep = Some c).
  { rewrite Hfiles, !lookup_insert_ne by congruence.
    now rewrite lookup_insert_eq. }
  assert (Hperm : no_hit s' (sidecar_path (CachePath d) dep) dep).
  { unfold no_hit in *. rewrite Hfiles, !lookup_insert_ne by congruence.
    exact Hmiss1. }
  rewrite (Artifact_download_hit env d dep s' Hsha Hperm Hside).
  unfold opened. now rewrite Hart.
Qed.

(** X11: a sidecar that is on disk but does not decode ends the call with
    the decoding error before anything is fetched or written: that of the
    permanent tier always, that of the download tier once the permanent
    tier is no hit.  The only calls made are the decodings, the failing
    one last. *)
Theorem Artifact_corrupt_sidecar_is_fatal d dep s :
  SHA256 dep <> "" ->
  undecodable s (sidecar_path (CachePath d) dep)
  \/ (no_hit s (sidecar_path (CachePath d) dep) dep
      /\ undecodable s (sidecar_path (DownloadPath d) dep)) ->
  exists file before,
    fst (Artifact env d dep s) = Err (UnableToDecodeMetadata file)
    /\ undecodable s file
    /\ files (snd (Artifact env d dep s)) = files s
    /\ trace (snd (Artifact env d dep s))
       = trace s ++ map EvDecodeFile (before ++ [file]).
Proof.
  intros Hsha [Hbad|[Hmiss1 Hbad]].
  - rewrite (Artifact_permanent_undecodable env d dep s Hsha Hbad).
    exists (sidecar_path (CachePath d) dep), []. simpl. auto.
  - rewrite (Artifact_download_undecodable env d dep s Hsha Hmiss1 Hbad).
    exists (sidecar_path (DownloadPath d) dep),
      [sidecar_path (CachePath d) dep]. simpl. auto.
Qed.

(** X12: a tier whose sidecar equals the dependency but whose artifact
    file is missing makes the call fail with the error of opening that
    file: the call does not go on to the next tier or to the origin, and
    changes no file. *)
Theorem Artifact_hit_without_artifact_fails d dep s tier :
  SHA256 dep <> "" ->
  (tier = CachePath d
   /\ files s !! sidecar_path (CachePath d) dep = Some (Metadata dep))
  \/ (tier = DownloadPath d
      /\ no_hit s (sidecar_path (CachePath d) dep) dep
      /\ files s !! sidecar_path (DownloadPath d) dep
         = Some (Metadata dep)) ->
  files s !! artifact_path tier dep = None ->
  exists decoded,
    fst (Artifact env d dep s) = Err (OpenFailed (artifact_path tier dep))
    /\ files (snd (Artifact env d dep s)) = files s
    /\ trace (snd (Artifact env d dep s))
       = trace s ++ map EvDecodeFile decoded
         ++ [EvOpen (artifact_path tier dep)].
Proof.
  intros Hsha [[-> Hhit]|(-> & Hmiss1 & Hhit)] Hnone.
  - rewrite (Artifact_permanent_hit env d dep s Hsha Hhit).
    unfold opened. rewrite Hnone.
    exists [sidecar_path (CachePath d) dep]. simpl. auto.
  - rewrite (Artifact_download_hit env d dep s Hsha Hmiss1 Hhit).
    unfold opened. rewrite Hnone.
    exists [sidecar_path (CachePath d) dep;
            sidecar_path (DownloadPath d) dep]. simpl. auto.
Qed.

End CacheMore.

(** * Further properties of the extraction *)

Section CrushMore.
Variable fails : FsOp -> bool.

Lemma extract_entry_steps destination (n : nat) f done next :
  extract_entry fails destination (Z.of_nat n) f done next
  = attempts fails (steps destination n f) done next.
Proof.
  unfold extract_entry, steps. rewrite strippedPath_nonneg.
  destruct (Nat.leb (length (split "/" (EntryName f))) n); simpl;
    [reflexivity|].
  unfold steps_at. destruct (String.eqb (filepath_Join _) ""); simpl;
    [reflexivity|].
  destruct (EntryType f); reflexivity.
Qed.

Lemma steps_placed destination n f :
  map fst (steps destination n f) = placed destination n f.
Proof.
  unfold steps, placed, steps_at, create_at.
  destruct (Nat.leb _ n); [reflexivity|].
  destruct (String.eqb _ ""); [reflexivity|].
  destruct (EntryType f); reflexivity.
Qed.

Lemma steps_from_call destination n f :
  Forall (fun step => from_call (snd step) = true) (steps destination n f).
Proof.
  unfold steps, steps_at.
  destruct (Nat.leb _ n); [constructor|].
  destruct (String.eqb _ ""); [constructor|].
  destruct (EntryType f); repeat constructor.
Qed.

Lemma attempts_stopped todo broken : forall done next later,
  Forall (fun step => from_call (snd step) = true) todo ->
  Forall (fun op => fails op = false) done ->
  (forall done',
     Forall (fun op => fails op = false) done' ->
     stopped fails (done' ++ later) (next done') broken) ->
  stopped fails (done ++ map fst todo ++ later) (attempts fails todo done next) broken.
Proof.
  induction todo as [|[op e] rest IH]; intros done next later Hcalls Hdone
    Hnext; simpl.
  - now apply Hnext.
  - apply Forall_cons in Hcalls as [He Hcalls]. simpl in He.
    unfold attempt. destruct (fails op) eqn:Hop.
    + exists (op :: map fst rest ++ later). simpl.
      split; [reflexivity|]. split; [exact Hdone|]. rewrite He. eauto.
    + replace (done ++ op :: map fst rest ++ later)
        with ((done ++ [op]) ++ map fst rest ++ later)
        by now rewrite <- app_assoc.
      apply IH; try assumption.
      apply Forall_app. split; [exact Hdone|]. now repeat constructor.
Qed.

Lemma extract_loop_stopped destination (n : nat) broken entries :
  forall done,
    Forall (fun op => fails op = false) done ->
    stopped fails (done ++ flat_map (placed destination n) entries)
      (extract_loop fails destination (Z.of_nat n) entries broken done)
      broken.
Proof.
  induction entries as [|f rest IH]; intros done Hdone; simpl.
  - exists []. destruct broken; simpl; rewrite app_nil_r; auto.
  - rewrite extract_entry_steps, <- steps_placed.
    apply attempts_stopped; [apply steps_from_call|exact Hdone|].
    intros done' Hdone'. now apply IH.
Qed.

(** X13: [ExtractTar] makes the calls of the entries in archive order and
    stops at the first call that fails: the calls made are an initial part
    of the calls of the whole archive, none of them failed, and nothing is
    undone.  It returns no error exactly when every call was made and the
    stream ended with EOF; a stream that breaks is reported after all the
    entries read before have been extracted. *)
Theorem ExtractTar_stops_at_first_failure source destination (n : nat) :
  exists rest,
    flat_map (placed destination n) (TarEntries source)
    = fst (ExtractTar fails source destination (Z.of_nat n)) ++ rest
    /\ Forall (fun op => fails op = false)
         (fst (ExtractTar fails source destination (Z.of_nat n)))
    /\ match snd (ExtractTar fails source destination (Z.of_nat n)) with
       | None => rest = [] /\ TarBroken source = false
       | Some e =>
           if from_call e
           then exists op rest', rest = op :: rest' /\ fails op = true
           else e = UnableToReadTar /\ rest = [] /\ TarBroken source = true
       end.
Proof.
  exact (extract_loop_stopped destination n (TarBroken source)
           (TarEntries source) [] (List.Forall_nil _)).
Qed.

(** X14: a negative [stripComponents] makes [ExtractTar] panic on the
    first entry, before any file-system call, whatever the entry; only an
    archive without entries gets through. *)
Theorem ExtractTar_negative_count_panics
    f rest broken destination stripComponents :
  (stripComponents < 0)%Z ->
  ExtractTar fails (mkTar (f :: rest) broken) destination stripComponents
  = ([], Some SliceBoundsOutOfRange)
  /\ ExtractTar fails (mkTar [] false) destination stripComponents
     = ([], None).
Proof.
  intros Hneg. split; [|reflexivity].
  unfold ExtractTar. cbn [TarEntries TarBroken extract_loop].
  unfold extract_entry, strippedPath.
  rewrite (proj2 (Z.leb_gt _ _)) by lia.
  now rewrite (proj2 (Z.ltb_lt _ _)) by lia.
Qed.



End CrushMore.

(** * Further properties of the file listing *)

Section ListingMore.
Context `{Sha256Lib} `{SortLib}.

Lemma drain_is_ok arrived : forall acc,
  is_ok (drain arrived acc) = true
  <-> forall r, In r arrived -> is_ok r = true.
Proof.
  induction arrived as [|[value|err] rest IH]; intros acc; simpl.
  - split; [intros _ r []|reflexivity].
  - rewrite IH. split.
    + intros Hrest r [<-|Hr]; auto.
    + intros Hall r Hr. apply Hall. now right.
  - split; [discriminate|]. intros Hall.
    exact (Hall (Err err) (or_introl eq_refl)).
Qed.

Lemma drain_Err arrived : forall acc e,
  drain arrived acc = Err e -> In (Err e) arrived.
Proof.
  induction arrived as [|[value|err] rest IH]; intros acc e; simpl.
  - discriminate.
  - intros Hd. right. exact (IH _ _ Hd).
  - intros [= ->]. now left.
Qed.

(** X16: the listing is all or nothing.  Once the walk has gone through,
    a run succeeds exactly when every entry below the root could be
    listed, whatever order the results arrive in; and when a run fails,
    the error is that of one of the entries that could not be opened or
    read: no partial listing is returned. *)
Theorem NewFileListing_all_or_nothing root tree visits out :
  walk root tree = Ok visits ->
  NewFileListing root tree out ->
  (is_ok out = true
   <-> forall v, In v (spawned root visits) -> is_ok (unit_of v) = true)
  /\ (forall e, out = Err e ->
      exists v, In v (spawned root visits) /\ unit_of v = Err e).
Proof.
  intros Hwalk Hrun.
  inversion Hrun as [e Hfail He|visits' arrived Hwalk' Hperm Hout];
    [congruence|].
  assert (visits' = visits) by congruence. subst visits'. clear Hwalk'.
  unfold collect.
  pose proof (drain_is_ok arrived []) as Hok.
  destruct (drain arrived []) as [es|err] eqn:Hdrain; simpl in *.
  - split; [|discriminate]. split; [intros _|reflexivity].
    intros v Hv. apply (proj1 Hok eq_refl).
    apply (Permutation_in _ (Permutation_sym Hperm)). now apply in_map.
  - split.
    + split; [discriminate|]. intros Hall. apply Hok. intros r Hr.
      apply (Permutation_in _ Hperm) in Hr.
      apply in_map_iff in Hr as (v & <- & Hv). now apply Hall.
    + intros e [= <-]. apply drain_Err in Hdrain.
      apply (Permutation_in _ Hperm) in Hdrain.
      apply in_map_iff in Hdrain as (v & Hv & Hin). eauto.
Qed.

(** X17: when the root is not a directory the listing is empty and the
    call succeeds, even if the file cannot be opened or read: the root is
    left out before anything is hashed. *)
Theorem NewFileListing_of_a_file_is_empty root name info data out :
  NewFileListing root (FileNode name info data) out ->
  out = Ok [].
Proof.
  intros Hrun.
  inversion Hrun as [e Hfail He|visits arrived Hwalk Hperm Hout];
    [discriminate|].
  simpl in Hwalk. injection Hwalk as <-.
  unfold spawned in Hperm. simpl in Hperm.
  rewrite String.eqb_refl in Hperm. simpl in Hperm.
  apply Permutation_sym, Permutation_nil in Hperm. subst arrived.
  unfold collect. simpl.
  pose proof (sort_Slice_perm _ by_path []) as Hsorted.
  apply Permutation_sym, Permutation_nil in Hsorted. now rewrite Hsorted.
Qed.

End ListingMore.

(** * Properties of the metadata decoding *)

Module MetadataFacts.
Import Metadata.

Lemma append_grown {A} (s : slice A) (x : A) : grown (append s x).
Proof. unfold grown, append. intros [= Heq]. now destruct (elems s). Qed.

Lemma append_strings_grown items : forall s r,
  append_strings items s = Ok r -> grown s -> grown r.
Proof.
  induction items as [|v rest IH]; intros s r; simpl.
  - now intros [= <-].
  - destruct v; try discriminate. intros Hr _.
    apply (IH _ _ Hr). apply append_grown.
Qed.

Lemma append_licenses_grown tables : forall s,
  grown s -> grown (append_licenses tables s).
Proof.
  induction tables as [|m rest IH]; intros s Hs; simpl; [exact Hs|].
  apply IH. apply append_grown.
Qed.

Lemma grown_nil {A} : grown (@None (list A)).
Proof. discriminate. Qed.

Lemma dependency_of_grown m d :
  dependency_of m = Ok d -> grown (Stacks d) /\ grown (Licenses d).
Proof.
  unfold dependency_of.
  destruct (match get "stacks" m with
            | Some (VArray items) => append_strings items None
            | _ => Ok None
            end) as [stacks|p] eqn:Hstacks; [|discriminate].
  intros [= <-]. simpl. split.
  - destruct (get "stacks" m) as [[]|];
      try (injection Hstacks as <-; apply grown_nil).
    apply (append_strings_grown _ _ _ Hstacks grown_nil).
  - destruct (get "licenses" m) as [[]|]; try apply grown_nil.
    apply append_licenses_grown, grown_nil.
Qed.

Lemma append_dependencies_grown tables : forall s r,
  append_dependencies tables s = Ok r ->
  grown s ->
  (forall d, In d (elems s) -> grown (Stacks d) /\ grown (Licenses d)) ->
  grown r
  /\ forall d, In d (elems r) -> grown (Stacks d) /\ grown (Licenses d).
Proof.
  induction tables as [|m rest IH]; intros s r; simpl.
  - intros [= <-]. auto.
  - destruct (dependency_of m) as [d|p] eqn:Hd; [|discriminate].
    intros Hr _ Hall. apply (IH _ _ Hr); [apply append_grown|].
    intros x Hx. simpl in Hx. apply in_app_iff in Hx as [Hx|[<-|[]]].
    + now apply Hall.
    + exact (dependency_of_grown m d Hd).
Qed.

(** X18: what [NewBuildpackMetadata] returns never holds an allocated
    slice without elements: the dependencies, the files to include, and
    the stacks and licenses of every dependency are [nil] or have an
    element; an empty array in the metadata and a missing key decode
    alike. *)
Theorem NewBuildpackMetadata_slices_nil_or_grown metadata md :
  NewBuildpackMetadata metadata = Ok md ->
  grown (Dependencies md) /\ grown (IncludeFiles md)
  /\ forall d, In d (elems (Dependencies md)) ->
               grown (Stacks d) /\ grown (Licenses d).
Proof.
  unfold NewBuildpackMetadata.
  destruct (match get "default-versions" metadata with
            | Some (VTable v) => default_versions (entries v)
            | _ => Ok ∅
            end) as [versions|p]; [|discriminate].
  destruct (match get "dependencies" metadata with
            | Some (VTables tables) => append_dependencies tables None
            | Some _ => Err InterfaceConversion
            | None => Ok None
            end) as [deps|p] eqn:Hdeps; [|discriminate].
  destruct (match get "include-files" metadata with
            | Some (VArray items) => append_strings items None
            | _ => Ok None
            end) as [files|p] eqn:Hfiles; [|discriminate].
  intros [= <-]. simpl.
  assert (Hd : grown deps
               /\ forall d, In d (elems deps) ->
                            grown (Stacks d) /\ grown (Licenses d)).
  { destruct (get "dependencies" metadata) as [[]|];
      try discriminate;
      try (injection Hdeps as <-; split; [apply grown_nil|intros d []]).
    apply (append_dependencies_grown _ _ _ Hdeps grown_nil).
    intros d []. }
  assert (Hf : grown files).
  { destruct (get "include-files" metadata) as [[]|];
      try (injection Hfiles as <-; apply grown_nil).
    apply (append_strings_grown _ _ _ Hfiles grown_nil). }
  tauto.
Qed.

Lemma append_strings_spelled l : forall s,
  append_strings (map VString l) s
  = Ok (match l with [] => s | _ => Some (elems s ++ l) end).
Proof.
  induction l as [|x t IH]; intros s; simpl; [reflexivity|].
  rewrite IH. unfold append. simpl.
  destruct t; [reflexivity|]. now rewrite <- app_assoc.
Qed.

Lemma license_spelled l : license_of (spell_license l) = l.
Proof. now destruct l. Qed.

Lemma append_licenses_spelled l : forall s,
  append_licenses (map spell_license l) s
  = match l with [] => s | _ => Some (elems s ++ l) end.
Proof.
  induction l as [|x t IH]; intros s; simpl; [reflexivity|].
  rewrite IH, license_spelled. unfold append. simpl.
  destruct t; [reflexivity|]. now rewrite <- app_assoc.
Qed.

Lemma dependency_spelled d :
  grown (Stacks d) -> grown (Licenses d) ->
  dependency_of (spell_dependency d) = Ok d.
Proof.
  destruct d as [id name version uri sha stacks licenses]. simpl.
  intros Hstacks Hlicenses. unfold dependency_of, spell_dependency.
  destruct stacks as [l|], licenses as [k|]; simpl;
    rewrite ?append_strings_spelled, ?append_licenses_spelled; simpl;
    try destruct l; try destruct k;
    try (exfalso; now apply Hstacks); try (exfalso; now apply Hlicenses);
    reflexivity.
Qed.

Lemma append_dependencies_spelled l : forall s,
  (forall d, In d l -> grown (Stacks d) /\ grown (Licenses d)) ->
  append_dependencies (map spell_dependency l) s
  = Ok (match l with [] => s | _ => Some (elems s ++ l) end).
Proof.
  induction l as [|x t IH]; intros s Hall; simpl; [reflexivity|].
  destruct (Hall x (or_introl eq_refl)) as [Hs Hl].
  rewrite (dependency_spelled x Hs Hl), IH
    by (intros d Hd; apply Hall; now right).
  unfold append. simpl. destruct t; [reflexivity|].
  now rewrite <- app_assoc.
Qed.

Lemma filter_keeps_all {A} (f : A -> bool) (l : list A) :
  (forall x, In x l -> f x = true) -> List.filter f l = l.
Proof.
  induction l as [|x t IH]; intros Hall; simpl; [reflexivity|].
  rewrite (Hall x (or_introl eq_refl)), IH; [reflexivity|].
  intros y Hy. apply Hall. now right.
Qed.

Lemma entries_NoDup (m : Table) : NoDup (map fst m) -> entries m = m.
Proof.
  induction m as [|[k v] rest IH]; simpl; [reflexivity|].
  intros Hnd. apply NoDup_cons in Hnd as [Hk Hnd].
  rewrite (IH Hnd). f_equal. apply filter_keeps_all.
  intros [k' v'] Hin. simpl. apply negb_true_iff, String.eqb_neq.
  intros ->. apply Hk. apply list_elem_of_In.
  apply (in_map fst) in Hin. exact Hin.
Qed.

Lemma default_versions_spelled (l : list (string * string)) :
  default_versions (map (fun kv => (fst kv, VString (snd kv))) l)
  = Ok (list_to_map l).
Proof.
  induction l as [|[k v] rest IH]; simpl; [reflexivity|].
  now rewrite IH.
Qed.

(** X19: decoding gives back what was spelled out.  For metadata whose
    slices are [nil] or have an element, the table that holds every field
    under its key (["id"], ["name"], ["version"], ["uri"], ["sha256"],
    ["stacks"], ["licenses"] with ["type"] and ["uri"], and at the top
    ["default-versions"], ["dependencies"], ["include-files"],
    ["pre-package"]) decodes to exactly that metadata. *)
Theorem NewBuildpackMetadata_reads_what_is_spelled md :
  grown (Dependencies md) -> grown (IncludeFiles md) ->
  (forall d, In d (elems (Dependencies md)) ->
             grown (Stacks d) /\ grown (Licenses d)) ->
  NewBuildpackMetadata (spell_metadata md) = Ok md.
Proof.
  destruct md as [versions deps files pre]. simpl.
  intros Hdeps Hfiles Hall.
  unfold NewBuildpackMetadata, spell_metadata. simpl.
  rewrite entries_NoDup.
  2:{ rewrite map_map. simpl.
      pose proof (NoDup_fst_map_to_list versions) as Hnd.
      clear -Hnd. induction (map_to_list versions) as [|kv l IH]; simpl.
      - constructor.
      - simpl in Hnd. apply NoDup_cons in Hnd as [Hk Hnd].
        apply NoDup_cons. split; [|auto].
        intros Hin. apply Hk. clear -Hin.
        induction l as [|x l IH]; simpl in *.
        + now apply not_elem_of_nil in Hin.
        + apply elem_of_cons in Hin as [->|Hin].
          * now left.
          * right. auto. }
  rewrite default_versions_spelled, list_to_map_to_list.
  destruct deps as [l|], files as [k|]; simpl;
    rewrite ?(append_dependencies_spelled l None Hall),
      ?append_strings_spelled; simpl;
    try destruct l; try destruct k;
    try (exfalso; now apply Hdeps); try (exfalso; now apply Hfiles);
    reflexivity.
Qed.

Lemma get_entries (m : Table) k x :
  In (k, x) (entries m) <-> get k m = Some x.
Proof.
  induction m as [|[k0 v0] rest IH]; simpl.
  - split; [tauto|discriminate].
  - rewrite filter_In, IH. simpl.
    rewrite negb_true_iff, String.eqb_neq.
    destruct (String.eqb_spec k0 k) as [->|Hne].
    + split.
      * intros [[= ->]|[_ Hk]]; [reflexivity|congruence].
      * intros [= ->]. now left.
    + split.
      * intros [[= -> ->]|[Hget _]]; [congruence|exact Hget].
      * intros Hget. right. split; [exact Hget|congruence].
Qed.

Lemma default_versions_panics l :
  is_ok (default_versions l) = false
  <-> exists k x, In (k, x) l /\ is_string x = false.
Proof.
  induction l as [|[k v] rest IH]; simpl.
  - split; [discriminate|]. intros (k & x & [] & _).
  - destruct v as [s| | | |];
      try (split; [intros _; exists k; eexists; split;
                     [left; reflexivity|reflexivity]
                  |reflexivity]).
    destruct (default_versions rest) as [m|p]; simpl in *.
    + split; [discriminate|].
      intros (k' & x & [[= <- <-]|Hin] & Hx); [discriminate|].
      apply IH. eauto.
    + split; [|reflexivity]. intros _.
      destruct (proj1 IH eq_refl) as (k' & x & Hin & Hx). eauto.
Qed.

Lemma append_strings_panics items : forall s,
  is_ok (append_strings items s) = false
  <-> exists x, In x items /\ is_string x = false.
Proof.
  induction items as [|v rest IH]; intros s; simpl.
  - split; [discriminate|]. intros (x & [] & _).
  - destruct v as [x| | | |];
      try (split; [intros _; eexists; split;
                     [left; reflexivity|reflexivity]
                  |reflexivity]).
    rewrite IH. split.
    + intros (y & Hy & Hs). eauto.
    + intros (y & [<-|Hy] & Hs); [discriminate|eauto].
Qed.

Lemma dependency_of_panics m :
  is_ok (dependency_of m) = false
  <-> exists items x,
        get "stacks" m = Some (VArray items)
        /\ In x items /\ is_string x = false.
Proof.
  unfold dependency_of.
  destruct (get "stacks" m) as [[s|items|tables|table|]|];
    try (simpl; split; [discriminate|];
         intros (? & ? & ? & _); discriminate).
  pose proof (append_strings_panics items None) as Hpanic.
  destruct (append_strings items None) as [stacks|p]; simpl in *.
  - split; [discriminate|]. intros (items' & x & [= <-] & Hx).
    apply Hpanic. eauto.
  - split; [|reflexivity]. intros _.
    destruct (proj1 Hpanic eq_refl) as (x & Hx). eauto.
Qed.

Lemma append_dependencies_panics tables : forall s,
  is_ok (append_dependencies tables s) = false
  <-> exists m, In m tables /\ is_ok (dependency_of m) = false.
Proof.
  induction tables as [|m rest IH]; intros s; simpl.
  - split; [discriminate|]. intros (m & [] & _).
  - destruct (dependency_of m) as [d|p] eqn:Hd; simpl.
    + rewrite IH. split.
      * intros (m' & Hm & Hp). eauto.
      * intros (m' & [<-|Hm] & Hp); [|eauto].
        rewrite Hd in Hp. discriminate.
    + split; [|reflexivity]. intros _. exists m. rewrite Hd. auto.
Qed.

(** X20: [NewBuildpackMetadata] never returns an error; it panics, and
    only then, when a value under ["default-versions"] is not a string,
    when ["dependencies"] is present but is not an array of tables, when
    the ["stacks"] array of a dependency holds something that is not a
    string, or when the ["include-files"] array does.  Values of a wrong
    type everywhere else are skipped. *)
Theorem NewBuildpackMetadata_panics_iff metadata :
  is_ok (NewBuildpackMetadata metadata) = false
  <-> (exists v k x,
         get "default-versions" metadata = Some (VTable v)
         /\ get k v = Some x /\ is_string x = false)
      \/ (exists v,
            get "dependencies" metadata = Some v
            /\ forall tables, v <> VTables tables)
      \/ (exists tables m items x,
            get "dependencies" metadata = Some (VTables tables)
            /\ In m tables /\ get "stacks" m = Some (VArray items)
            /\ In x items /\ is_string x = false)
      \/ (exists items x,
            get "include-files" metadata = Some (VArray items)
            /\ In x items /\ is_string x = false).
Proof.
  unfold NewBuildpackMetadata.
  set (A := match get "default-versions" metadata with
            | Some (VTable v) => default_versions (entries v)
            | _ => Ok ∅
            end).
  set (B := match get "dependencies" metadata with
            | Some (VTables tables) => append_dependencies tables None
            | Some _ => Err InterfaceConversion
            | None => Ok None
            end).
  set (C := match get "include-files" metadata with
            | Some (VArray items) => append_strings items None
            | _ => Ok None
            end).
  assert (HA : is_ok A = false
               <-> exists v k x,
                     get "default-versions" metadata = Some (VTable v)
                     /\ get k v = Some x /\ is_string x = false).
  { subst A.
    destruct (get "default-versions" metadata) as [[s|items|tables|v|]|];
      try (simpl; split; [discriminate|];
           intros (? & ? & ? & ? & _); discriminate).
    rewrite default_versions_panics. split.
    - intros (k & x & Hin & Hx). apply get_entries in Hin. eauto 6.
    - intros (v' & k & x & [= <-] & Hget & Hx).
      apply get_entries in Hget. eauto. }
  assert (HB : is_ok B = false
               <-> (exists v,
                      get "dependencies" metadata = Some v
                      /\ forall tables, v <> VTables tables)
                   \/ (exists tables m items x,
                         get "dependencies" metadata = Some (VTables tables)
                         /\ In m tables
                         /\ get "stacks" m = Some (VArray items)
                         /\ In x items /\ is_string x = false)).
  { subst B.
    destruct (get "dependencies" metadata) as [[s|items|tables|v|]|];
      try (simpl; split;
           [intros _; left; eexists; split; [reflexivity|discriminate]
           |reflexivity]).
    - rewrite append_dependencies_panics. split.
      + intros (m & Hm & Hp). right.
        apply dependency_of_panics in Hp as (items & x & Hx). eauto 8.
      + intros [(v & [= <-] & Hne)|(tables' & m & items & x & [= <-] & Hm
                                    & Hx)].
        * exfalso. now apply (Hne tables).
        * exists m. split; [exact Hm|]. apply dependency_of_panics. eauto.
    - simpl. split; [discriminate|].
      intros [(v & Hv & _)|(? & ? & ? & ? & Hv & _)]; discriminate. }
  assert (HC : is_ok C = false
               <-> exists items x,
                     get "include-files" metadata = Some (VArray items)
                     /\ In x items /\ is_string x = false).
  { subst C.
    destruct (get "include-files" metadata) as [[s|items|tables|v|]|];
      try (simpl; split; [discriminate|];
           intros (? & ? & ? & _); discriminate).
    rewrite append_strings_panics. split.
    - intros (x & Hx). eauto.
    - intros (items' & x & [= <-] & Hx). eauto. }
  assert (Hsome : forall r : result Panic BuildpackMetadata,
            r = match A with
                | Err p => Err p
                | Ok versions =>
                    match B with
                    | Err p => Err p
                    | Ok dependencies =>
                        match C with
                        | Err p => Err p
                        | Ok files =>
                            Ok (mkMetadata versions dependencies files
                                  (string_field "pre-package" metadata))
                        end
                    end
                end ->
            is_ok r = false
            <-> is_ok A = false \/ is_ok B = false \/ is_ok C = false).
  { intros r ->. destruct A, B, C; simpl; intuition discriminate. }
  rewrite (Hsome _ eq_refl), HA, HB, HC. tauto.
Qed.

End MetadataFacts.

(** * The further properties on concrete inputs *)

Lemma Resolve_reports_first_unparsable_witness :
  Resolve poisoned_resolver "jdk" ">=11"
  = Err (UnableToParseVersion "latest").
Proof.
  apply (@Resolve_reports_first_unparsable fragment_SemverLib
           insertion_SortLib poisoned_resolver "jdk" ">=11"
           [SemverFragment.AtLeast (SemverFragment.mkVersion 11 0 0)]
           [jdk "11.0.2" ["bionic"]]
           (mkDependency "maven" "Maven" "latest" "https://example.com/mvn"
              "" (Some ["tiny"]) None)
           []).
  - reflexivity.
  - reflexivity.
  - constructor; [|constructor]. eexists. reflexivity.
  - reflexivity.
Defined.

Lemma Resolve_version_independent_of_order_witness :
  Resolve sample_resolver "jdk" "" = Ok (jdk "10.0.0" ["bionic"; "tiny"])
  /\ exists best' v v',
       Resolve reversed_resolver "jdk" "" = Ok best'
       /\ NewVersion "10.0.0" = Some v
       /\ NewVersion (Version best') = Some v'
       /\ GreaterThan v v' = false /\ GreaterThan v' v = false.
Proof.
  split; [reflexivity|].
  apply (Resolve_version_independent_of_order sample_resolver
           reversed_resolver "jdk" "" (jdk "10.0.0" ["bionic"; "tiny"])).
  - apply Permutation_rev.
  - reflexivity.
  - reflexivity.
Defined.

Lemma Any_survives_added_dependency_witness :
  Any jdk11_resolver "jdk" "" = true /\ Any jdk12_added "jdk" "" = true.
Proof.
  split; [reflexivity|].
  apply (Any_survives_added_dependency jdk11_resolver jdk12_added
           (jdk "12.0.0" ["tiny"]) "jdk" "").
  - apply Permutation_refl.
  - reflexivity.
  - eexists. reflexivity.
  - reflexivity.
Defined.

Lemma Artifact_changes_only_its_own_paths_witness :
  files (snd (Artifact (serving "tampered") test_cache renamed_dependency
                both_tiers))
    !! "/cnb/dependencies/sha256-of-test-fixture/test-path"
  = Some (Bytes "test-fixture").
Proof.
  rewrite (Artifact_changes_only_its_own_paths (serving "tampered")
             test_cache renamed_dependency both_tiers
             "/cnb/dependencies/sha256-of-test-fixture/test-path").
  - vm_compute. reflexivity.
  - intros Hsha. discriminate Hsha.
  - intros _. split; intros Heq; vm_compute in Heq; discriminate.
Defined.

Lemma Artifact_miss_success_is_verified_and_recorded_witness :
  (exists code,
     origin (serving "test-fixture") (URI test_dependency)
     = Status code (Bytes "test-fixture") /\ (200 <= code <= 299)%Z)
  /\ sha256_hex (Bytes "test-fixture") = SHA256 test_dependency
  /\ files (snd (Artifact (serving "test-fixture") test_cache
                   test_dependency (mkDisk ∅ [])))
       !! sidecar_path (DownloadPath test_cache) test_dependency
     = Some (Metadata test_dependency)
  /\ files (snd (Artifact (serving "test-fixture") test_cache
                   test_dependency (mkDisk ∅ [])))
       !! artifact_path (DownloadPath test_cache) test_dependency
     = Some (Bytes "test-fixture").
Proof.
  apply (Artifact_miss_success_is_verified_and_recorded
           (serving "test-fixture") test_cache test_dependency
           (mkDisk ∅ []) (Bytes "test-fixture")).
  - discriminate.
  - left. vm_compute. reflexivity.
  - left. vm_compute. reflexivity.
  - intros Heq. vm_compute in Heq. discriminate.
  - vm_compute. reflexivity.
Defined.

Lemma Artifact_second_call_is_a_hit_witness :
  fst (Artifact (serving "test-fixture") test_cache test_dependency
         (snd (Artifact (serving "test-fixture") test_cache test_dependency
                 (mkDisk ∅ []))))
  = Ok (Bytes "test-fixture").
Proof.
  rewrite (Artifact_second_call_is_a_hit (serving "test-fixture") test_cache
             test_dependency (mkDisk ∅ []) (Bytes "test-fixture")).
  - reflexivity.
  - discriminate.
  - left. vm_compute. reflexivity.
  - left. vm_compute. reflexivity.
  - intros Heq. vm_compute in Heq. discriminate.
  - intros Heq. vm_compute in Heq. discriminate.
  - intros Heq. vm_compute in Heq. discriminate.
  - vm_compute. reflexivity.
Defined.

Lemma Artifact_corrupt_sidecar_is_fatal_witness :
  exists file before,
    fst (Artifact (serving "test-fixture") test_cache test_dependency
           corrupt_permanent_tier)
    = Err (UnableToDecodeMetadata file)
    /\ undecodable corrupt_permanent_tier file
    /\ files (snd (Artifact (serving "test-fixture") test_cache
                     test_dependency corrupt_permanent_tier))
       = files corrupt_permanent_tier
    /\ trace (snd (Artifact (serving "test-fixture") test_cache
                     test_dependency corrupt_permanent_tier))
       = trace corrupt_permanent_tier ++ map EvDecodeFile (before ++ [file]).
Proof.
  apply (Artifact_corrupt_sidecar_is_fatal (serving "test-fixture")
           test_cache test_dependency corrupt_permanent_tier).
  - discriminate.
  - left. exists "garbage". vm_compute. reflexivity.
Defined.

Lemma Artifact_hit_without_artifact_fails_witness :
  exists decoded,
    fst (Artifact (serving "test-fixture") test_cache test_dependency
           sidecar_without_artifact)
    = Err (OpenFailed (artifact_path "/cnb/dependencies" test_dependency))
    /\ files (snd (Artifact (serving "test-fixture") test_cache
                     test_dependency sidecar_without_artifact))
       = files sidecar_without_artifact
    /\ trace (snd (Artifact (serving "test-fixture") test_cache
                     test_dependency sidecar_without_artifact))
       = trace sidecar_without_artifact ++ map EvDecodeFile decoded
         ++ [EvOpen (artifact_path "/cnb/dependencies" test_dependency)].
Proof.
  apply (Artifact_hit_without_artifact_fails (serving "test-fixture")
           test_cache test_dependency sidecar_without_artifact
           "/cnb/dependencies").
  - discriminate.
  - left. split; [reflexivity|]. vm_compute. reflexivity.
  - vm_compute. reflexivity.
Defined.

Lemma ExtractTar_negative_count_panics_witness :
  ExtractTar never (mkTar [c_txt] false) "destination" (-1)
  = ([], Some SliceBoundsOutOfRange)
  /\ ExtractTar never (mkTar [] false) "destination" (-1) = ([], None).
Proof.
  apply (ExtractTar_negative_count_panics never c_txt [] false
           "destination" (-1)%Z).
  lia.
Defined.


Lemma NewFileListing_all_or_nothing_witness :
  (is_ok (Ok app_listing : result ListingError (list FileEntry)) = true
   <-> forall v, In v (spawned "/layers/app" app_visits) ->
                 is_ok (unit_of v) = true)
  /\ (forall e, Ok app_listing = Err e ->
      exists v, In v (spawned "/layers/app" app_visits)
                /\ unit_of v = Err e).
Proof.
  apply (NewFileListing_all_or_nothing "/layers/app" app_tree app_visits
           (Ok app_listing)).
  - reflexivity.
  - exact app_listing_run.
Defined.

Lemma NewFileListing_of_a_file_is_empty_witness :
  collect (@nil unit_result) = Ok [].
Proof.
  apply (NewFileListing_of_a_file_is_empty "/layers/app/x.txt" "x.txt"
           rw_file OpenFails).
  apply (listing_collects "/layers/app/x.txt"
           (FileNode "x.txt" rw_file OpenFails)
           [mkVisit "/layers/app/x.txt" rw_file (NotDirectory OpenFails)] []).
  - reflexivity.
  - reflexivity.
Defined.

Example NewBuildpackMetadata_fixture :
  Metadata.NewBuildpackMetadata fixture_metadata = Ok fixture_decoded.
Proof. reflexivity. Qed.

Lemma NewBuildpackMetadata_slices_nil_or_grown_witness :
  Metadata.grown (Metadata.Dependencies fixture_decoded)
  /\ Metadata.grown (Metadata.IncludeFiles fixture_decoded)
  /\ forall d, In d (elems (Metadata.Dependencies fixture_decoded)) ->
               Metadata.grown (Stacks d) /\ Metadata.grown (Licenses d).
Proof.
  apply (MetadataFacts.NewBuildpackMetadata_slices_nil_or_grown
           fixture_metadata fixture_decoded).
  reflexivity.
Defined.

Lemma NewBuildpackMetadata_reads_what_is_spelled_witness :
  Metadata.NewBuildpackMetadata (Metadata.spell_metadata fixture_decoded)
  = Ok fixture_decoded.
Proof.
  apply (MetadataFacts.NewBuildpackMetadata_reads_what_is_spelled
           fixture_decoded).
  - discriminate.
  - discriminate.
  - intros d [<-|[<-|[]]]; split; discriminate.
Defined.

(** * Paths made of plain names *)

Lemma split_nonempty sep s : split sep s <> [].
Proof.
  destruct s as [|c s]; simpl; [discriminate|].
  destruct (Ascii.eqb c sep); [discriminate|].
  destruct (split sep s); discriminate.
Qed.

Lemma split_app_sep sep s1 s2 :
  split sep (String.append s1 (String sep s2)) = split sep s1 ++ split sep s2.
Proof.
  induction s1 as [|c s1 IH]; simpl.
  - now rewrite Ascii.eqb_refl.
  - destruct (Ascii.eqb c sep); [now rewrite IH|].
    rewrite IH. pose proof (split_nonempty sep s1) as Hne.
    destruct (split sep s1); [contradiction|reflexivity].
Qed.

Lemma split_concat_plain segs :
  segs <> [] -> Forall plain segs ->
  split "/" (String.concat "/" segs) = segs.
Proof.
  induction segs as [|x rest IH]; intros Hne Hall; [contradiction|].
  apply Forall_cons in Hall as [[Hx _] Hrest].
  destruct rest as [|y rest]; [exact Hx|].
  change (String.concat "/" (x :: y :: rest))
    with (String.append x (String "/" (String.concat "/" (y :: rest)))).
  rewrite split_app_sep, Hx, IH by (auto; discriminate). reflexivity.
Qed.

Lemma clean_segments_plain rooted segs : forall kept,
  Forall plain segs ->
  clean_segments rooted segs kept = rev kept ++ segs.
Proof.
  induction segs as [|s rest IH]; intros kept Hall; simpl.
  - now rewrite app_nil_r.
  - apply Forall_cons in Hall as [(_ & H1 & H2 & H3) Hrest].
    rewrite (proj2 (String.eqb_neq s "") H1).
    rewrite (proj2 (String.eqb_neq s ".") H2).
    rewrite (proj2 (String.eqb_neq s "..") H3). simpl.
    rewrite IH by assumption. simpl. now rewrite <- app_assoc.
Qed.

Lemma concat_app_plain (l1 l2 : list string) :
  l1 <> [] -> l2 <> [] ->
  String.concat "/" (l1 ++ l2)
  = String.append (String.concat "/" l1)
      (String "/" (String.concat "/" l2)).
Proof.
  induction l1 as [|x rest IH]; intros H1 H2; [contradiction|].
  destruct rest as [|y rest].
  - destruct l2; [contradiction|reflexivity].
  - change (String.concat "/" ((x :: y :: rest) ++ l2))
      with (String.append x
              (String "/" (String.concat "/" ((y :: rest) ++ l2)))).
    change (String.concat "/" (x :: y :: rest))
      with (String.append x (String "/" (String.concat "/" (y :: rest)))).
    rewrite IH by (auto; discriminate).
    generalize (String.concat "/" (y :: rest)) as a.
    generalize (String.concat "/" l2) as b. clear. intros b a.
    induction x as [|c x IHx]; [reflexivity|].
    change (String c (String.append x (String "/"
              (String.append a (String "/" b))))
            = String c (String.append (String.append x (String "/" a))
                (String "/" b))).
    f_equal. exact IHx.
Qed.

Lemma plain_literal_percent_s : plain "%s".
Proof. repeat split; discriminate. Qed.

Lemma plain_not_rooted x rest :
  plain x -> String.prefix "/" (String.append x rest) = false.
Proof.
  intros (Hx & Hne & _). destruct x as [|c x]; [contradiction|].
  change (String.prefix "/" (String.append (String c x) rest))
    with (match Ascii.ascii_dec "/" c with
          | left _ => String.prefix "" (String.append x rest)
          | right _ => false
          end).
  destruct (Ascii.ascii_dec "/" c) as [<-|]; [|reflexivity].
  exfalso. cbn [split] in Hx. rewrite Ascii.eqb_refl in Hx. pose proof (split_nonempty "/" x) as Hs.
  destruct (split "/" x); [contradiction|discriminate].
Qed.

Lemma concat_plain_head x rest :
  exists tail, String.concat "/" (x :: rest) = String.append x tail.
Proof.
  destruct rest as [|y rest].
  - exists "". change (String.concat "/" [x]) with x.
    induction x as [|c x IH]; [reflexivity|].
    change (String c x = String c (String.append x "")). now f_equal.
  - now exists (String "/" (String.concat "/" (y :: rest))).
Qed.

(** [Clean] leaves a path of plain names as it is. *)
Lemma filepath_Clean_plain segs :
  segs <> [] -> Forall plain segs ->
  filepath_Clean (String.concat "/" segs) = String.concat "/" segs.
Proof.
  intros Hne Hall. unfold filepath_Clean.
  rewrite split_concat_plain, clean_segments_plain by assumption.
  destruct segs as [|x rest]; [contradiction|].
  destruct (concat_plain_head x rest) as [tail Etail].
  pose proof Hall as Hx. apply Forall_cons in Hx as [Hx _].
  rewrite Etail at 1 2. rewrite (plain_not_rooted x tail Hx).
  cbn [rev app]. rewrite <- Etail.
  destruct Hx as (_ & Hx & _). destruct x as [|c x]; [contradiction|].
  rewrite Etail. reflexivity.
Qed.

(** * Further properties of the cache, continued *)

(** X21: the User-Agent that [NewDependencyCache] sets is not
    [<id>/<version>]: the format string is joined as a path instead of
    being filled in, so for an id and a version made of plain names the
    header value is the text [%s/%s/], then the id, a separator and the
    version. *)
Theorem NewDependencyCache_user_agent os_TempDir buildpack :
  plain_path (InfoID (BuildpackInfo_ buildpack)) ->
  plain_path (InfoVersion (BuildpackInfo_ buildpack)) ->
  UserAgent (NewDependencyCache os_TempDir buildpack)
  = String.append "%s/%s/"
      (String.append (InfoID (BuildpackInfo_ buildpack))
         (String "/" (InfoVersion (BuildpackInfo_ buildpack)))).
Proof.
  intros (ids & Hids & Hid & Eid) (vs & Hvs & Hv & Ev).
  unfold NewDependencyCache. cbn [UserAgent]. rewrite Eid, Ev.
  assert (Hall : Forall plain (["%s"; "%s"] ++ (ids ++ vs))).
  { apply Forall_app. split.
    - repeat (apply Forall_cons; split; [apply plain_literal_percent_s|]).
      apply Forall_nil. exact I.
    - apply Forall_app. now split. }
  assert (Hne : ids ++ vs <> [])
    by (destruct ids; [contradiction|discriminate]).
  assert (E : String.concat "/"
                ["%s/%s"; String.concat "/" ids; String.concat "/" vs]
              = String.concat "/" (["%s"; "%s"] ++ (ids ++ vs))).
  { rewrite (concat_app_plain ["%s"; "%s"] (ids ++ vs))
      by (discriminate || assumption).
    rewrite (concat_app_plain ids vs) by assumption. reflexivity. }
  unfold filepath_Join. cbn [drop_empty String.eqb Ascii.eqb Bool.eqb].
  rewrite E, filepath_Clean_plain by (discriminate || assumption).
  rewrite (concat_app_plain ["%s"; "%s"] (ids ++ vs))
    by (discriminate || assumption).
  rewrite (concat_app_plain ids vs) by assumption. reflexivity.
Qed.

(** X22: one call of [Artifact] calls [client.Do] at most once, and with
    the GET request for the URI of the dependency asked for: a tier that
    answers, a sidecar that cannot be decoded, or a URI no request can be
    built from ends the call without calling the client, and [Artifact]
    does not try a failed download again.  (What the client sends on its
    own while following redirects is inside that one call.) *)
Theorem Artifact_calls_the_client_at_most_once `{Sha256Lib} env d dep s :
  exists new,
    trace (snd (Artifact env d dep s)) = trace s ++ new
    /\ length (List.filter is_get new) <= 1
    /\ forall uri, In (EvGet uri) new -> uri = URI dep.
Proof.
  assert (Hfilter : forall rest,
            (forall uri, ~ In (EvGet uri) rest) ->
            List.filter is_get rest = []).
  { induction rest as [|e rest IH]; intros Hno; [reflexivity|].
    simpl. destruct e; simpl;
      try (apply IH; intros uri Hin; apply (Hno uri); now right).
    exfalso. apply (Hno uri). now left. }
  destruct (decide (SHA256 dep = "")) as [Hsha|Hsha].
  - rewrite (Artifact_undigested_run env d dep s Hsha), download_run.
    destruct (can_request env (URI dep)); simpl.
    2:{ exists []. split; [now rewrite app_nil_r|]. split; [simpl; lia|].
        intros uri []. }
    destruct (origin env (URI dep)) as [|code body]; simpl.
    { exists [EvGet (URI dep)]. split; [reflexivity|]. split; [simpl; lia|].
      intros uri [[= <-]|[]]. reflexivity. }
    destruct ((code <? 200)%Z || (299 <? code)%Z); simpl.
    { exists [EvGet (URI dep)]. split; [reflexivity|]. split; [simpl; lia|].
      intros uri [[= <-]|[]]. reflexivity. }
    destruct (can_mkdir env _); simpl;
      [destruct (can_create env _); simpl;
       [destruct (copy_stops env _ _); simpl|]|];
      (eexists; split; [rewrite <- ?app_assoc; simpl; reflexivity|];
       split; [simpl; lia|];
       intros uri Hin; simpl in Hin; intuition congruence).
  - destruct (sidecar_cases s (sidecar_path (CachePath d) dep) dep)
      as [Hhit|[Hund|Hmiss1]].
    { rewrite (Artifact_permanent_hit env d dep s Hsha Hhit). simpl.
      eexists. split; [reflexivity|]. split; [simpl; lia|].
      intros uri Hin. simpl in Hin. intuition discriminate. }
    { rewrite (Artifact_permanent_undecodable env d dep s Hsha Hund). simpl.
      eexists. split; [reflexivity|]. split; [simpl; lia|].
      intros uri Hin. simpl in Hin. intuition discriminate. }
    destruct (sidecar_cases s (sidecar_path (DownloadPath d) dep) dep)
      as [Hhit|[Hund|Hmiss2]].
    { rewrite (Artifact_download_hit env d dep s Hsha Hmiss1 Hhit). simpl.
      eexists. split; [reflexivity|]. split; [simpl; lia|].
      intros uri Hin. simpl in Hin. intuition discriminate. }
    { rewrite (Artifact_download_undecodable env d dep s Hsha Hmiss1 Hund).
      simpl. eexists. split; [reflexivity|]. split; [simpl; lia|].
      intros uri Hin. simpl in Hin. intuition discriminate. }
    rewrite (Artifact_both_miss env d dep s Hsha Hmiss1 Hmiss2).
    destruct (fetch_verify_persist_trace env d dep
                (mkDisk (files s)
                   (trace s
                    ++ [EvDecodeFile (sidecar_path (CachePath d) dep);
                        EvDecodeFile (sidecar_path (DownloadPath d) dep)])))
      as [Hasked Hrefused].
    destruct (can_request env (URI dep)) eqn:Hreq.
    + destruct (Hasked eq_refl) as (rest & Htrace & Hno).
      rewrite Htrace. simpl. rewrite <- app_assoc. simpl.
      eexists. split; [reflexivity|]. simpl. rewrite (Hfilter rest Hno).
      split; [simpl; lia|].
      intros uri [Hin|[Hin|[[= <-]|Hin]]]; try discriminate; [reflexivity|].
      exfalso. exact (Hno uri Hin).
    + rewrite (Hrefused eq_refl). simpl.
      eexists. split; [reflexivity|]. split; [simpl; lia|].
      intros uri Hin. simpl in Hin. intuition discriminate.
Qed.

(** * Where extraction puts an entry *)

Lemma plain_slashfree s : plain s -> slashfree s.
Proof. now intros [Hs _]. Qed.

Lemma split_concat_slashfree segs :
  segs <> [] -> Forall slashfree segs ->
  split "/" (String.concat "/" segs) = segs.
Proof.
  induction segs as [|x rest IH]; intros Hne Hall; [contradiction|].
  apply Forall_cons in Hall as [Hx Hrest].
  destruct rest as [|y rest]; [exact Hx|].
  change (String.concat "/" (x :: y :: rest))
    with (String.append x (String "/" (String.concat "/" (y :: rest)))).
  rewrite split_app_sep, Hx, IH by (auto; discriminate). reflexivity.
Qed.

Lemma clean_segments_plain_prefix rooted l1 l2 : forall kept,
  Forall plain l1 ->
  clean_segments rooted (l1 ++ l2) kept
  = clean_segments rooted l2 (rev l1 ++ kept).
Proof.
  induction l1 as [|s rest IH]; intros kept Hall; [reflexivity|].
  apply Forall_cons in Hall as [(_ & H1 & H2 & H3) Hrest].
  cbn [app clean_segments].
  rewrite (proj2 (String.eqb_neq s "") H1).
  rewrite (proj2 (String.eqb_neq s ".") H2).
  rewrite (proj2 (String.eqb_neq s "..") H3). cbn [orb].
  rewrite IH by assumption. cbn [rev]. now rewrite <- app_assoc.
Qed.

Lemma concat_plain_not_empty l :
  l <> [] -> Forall plain l -> String.eqb (String.concat "/" l) "" = false.
Proof.
  intros Hne Hall. destruct l as [|x rest]; [contradiction|].
  apply Forall_cons in Hall as [(_ & Hx & _) _].
  destruct (concat_plain_head x rest) as [tail ->].
  destruct x; [contradiction|reflexivity].
Qed.

Lemma prefix_empty s : String.prefix "" s = true.
Proof. now destruct s. Qed.

(** [Join] of a destination made of plain names with further names: the
    destination's names are kept, and the further names are cleaned
    against them. *)
Lemma filepath_Join_onto_plain rooted ds l :
  ds <> [] -> Forall plain ds -> l <> [] -> Forall slashfree l ->
  filepath_Join
    (String.append (rooted_prefix rooted) (String.concat "/" ds) :: l)
  = let out := String.concat "/" (clean_segments rooted l (rev ds)) in
    if rooted then String.append "/" out
    else if String.eqb out "" then "." else out.
Proof.
  intros Hds Hplain Hl Hfree.
  assert (Hall : Forall slashfree (ds ++ l)).
  { apply Forall_app. split; [|assumption].
    eapply Forall_impl; [exact Hplain|]. apply plain_slashfree. }
  assert (Hne : ds ++ l <> []) by (destruct ds; [contradiction|discriminate]).
  assert (Hdest : String.eqb
            (String.append (rooted_prefix rooted) (String.concat "/" ds)) ""
          = false).
  { destruct rooted; [reflexivity|]. now apply concat_plain_not_empty. }
  unfold filepath_Join. cbn [drop_empty]. rewrite Hdest.
  assert (E : String.concat "/"
                (String.append (rooted_prefix rooted)
                   (String.concat "/" ds) :: l)
              = String.append (rooted_prefix rooted)
                  (String.concat "/" (ds ++ l))).
  { rewrite (concat_app_plain ds l) by assumption.
    destruct l as [|y l]; [contradiction|].
    change (String.concat "/" (?a :: y :: l))
      with (String.append a (String "/" (String.concat "/" (y :: l)))).
    destruct rooted; cbn [rooted_prefix]; reflexivity. }
  rewrite E. unfold filepath_Clean.
  destruct rooted; cbn [rooted_prefix].
  - change (String.append "/" (String.concat "/" (ds ++ l)))
      with (String "/" (String.concat "/" (ds ++ l))).
    change (String.prefix "/" (String "/" (String.concat "/" (ds ++ l))))
      with (match Ascii.ascii_dec "/" "/" with
            | left _ => String.prefix "" (String.concat "/" (ds ++ l))
            | right _ => false
            end).
    destruct (Ascii.ascii_dec "/" "/") as [_|Hno]; [|now contradiction Hno].
    rewrite prefix_empty. cbv zeta.
    change (split "/" (String "/" (String.concat "/" (ds ++ l))))
      with ("" :: split "/" (String.concat "/" (ds ++ l))).
    rewrite split_concat_slashfree by assumption.
    change (clean_segments true ("" :: ds ++ l) [])
      with (clean_segments true (ds ++ l) []).
    rewrite clean_segments_plain_prefix by assumption.
    now rewrite app_nil_r.
  - change (String.append "" (String.concat "/" (ds ++ l)))
      with (String.concat "/" (ds ++ l)).
    rewrite split_concat_slashfree by assumption.
    rewrite clean_segments_plain_prefix by assumption.
    rewrite app_nil_r.
    destruct ds as [|x ds']; [contradiction|].
    destruct (concat_plain_head x (ds' ++ l)) as [tail Etail].
    change ((x :: ds') ++ l) with (x :: ds' ++ l).
    rewrite Etail. apply Forall_cons in Hplain as [Hx _].
    now rewrite (plain_not_rooted x tail Hx).
Qed.

Lemma skipn_length_app {A} (l1 l2 : list A) : skipn (length l1) (l1 ++ l2) = l2.
Proof. induction l1; [reflexivity|assumption]. Qed.

(** [strippedPath] after the first names of an entry have been stripped. *)
Lemma strippedPath_onto_plain rooted ds pre l :
  ds <> [] -> Forall plain ds -> Forall slashfree pre ->
  l <> [] -> Forall slashfree l ->
  strippedPath (String.concat "/" (pre ++ l))
    (String.append (rooted_prefix rooted) (String.concat "/" ds))
    (Z.of_nat (length pre))
  = Some (let out := String.concat "/" (clean_segments rooted l (rev ds)) in
          if rooted then String.append "/" out
          else if String.eqb out "" then "." else out).
Proof.
  intros Hds Hplain Hpre Hl Hfree.
  rewrite strippedPath_nonneg.
  rewrite split_concat_slashfree;
    [|destruct pre; [assumption|discriminate]
     |apply Forall_app; now split].
  rewrite length_app.
  destruct (Nat.leb_spec (length pre + length l) (length pre)) as [Hle|_].
  { destruct l; [contradiction|]. simpl in Hle. lia. }
  rewrite skipn_length_app.
  now rewrite filepath_Join_onto_plain.
Qed.

(** X23: an entry whose name is made of plain names (no empty name, no
    [.] and no [..]) is placed inside the destination: with the first
    [n] names stripped, its path is the destination, a separator, and the
    remaining names as they are. *)
Theorem strippedPath_plain_names_stay_inside rooted ds pre segs :
  ds <> [] -> Forall plain ds -> Forall plain pre ->
  segs <> [] -> Forall plain segs ->
  strippedPath (String.concat "/" (pre ++ segs))
    (String.append (rooted_prefix rooted) (String.concat "/" ds))
    (Z.of_nat (length pre))
  = Some (String.append
            (String.append (rooted_prefix rooted) (String.concat "/" ds))
            (String "/" (String.concat "/" segs))).
Proof.
  intros Hds Hplain Hpre Hsegs Hall.
  rewrite strippedPath_onto_plain; try assumption;
    try (eapply Forall_impl; [eassumption|apply plain_slashfree]).
  cbv zeta. rewrite clean_segments_plain, rev_involutive by assumption.
  rewrite concat_plain_not_empty;
    [|destruct ds; [contradiction|discriminate]
     |apply Forall_app; now split].
  rewrite (concat_app_plain ds segs) by assumption.
  f_equal. destruct rooted; reflexivity.
Qed.

(** X24: extraction does not keep entries inside the destination.  When
    what is left of a name after stripping begins with [..], the entry is
    placed in the directory above the destination: [strippedPath] answers
    the destination's parent joined with the remaining names, and an
    extraction in which no call fails writes the file there. *)
Theorem ExtractTar_dotdot_leaves_destination
    rooted init last pre segs f entries :
  Forall plain (init ++ [last]) -> Forall plain pre ->
  segs <> [] -> Forall plain segs ->
  EntryName f = String.concat "/" (pre ++ ".." :: segs) ->
  EntryType f = KFile ->
  In f entries ->
  let destination :=
    String.append (rooted_prefix rooted)
      (String.concat "/" (init ++ [last])) in
  let outside :=
    String.append (rooted_prefix rooted)
      (String.concat "/" (init ++ segs)) in
  strippedPath (EntryName f) destination (Z.of_nat (length pre))
  = Some outside
  /\ In (OpWriteFile outside (EntryMode f) (EntryBody f))
       (fst (ExtractTar never (mkTar entries false) destination
               (Z.of_nat (length pre)))).
Proof.
  intros Hdest Hpre Hsegs Hall Hname Hkind Hin destination outside.
  assert (Hfree : Forall slashfree (".." :: segs)).
  { apply Forall_cons. split; [reflexivity|].
    eapply Forall_impl; [exact Hall|]. apply plain_slashfree. }
  assert (Hne : init ++ segs <> [])
    by (destruct init; [destruct segs; [contradiction|]|]; discriminate).
  assert (Hplain : Forall plain (init ++ segs)).
  { apply Forall_app in Hdest as [Hinit _]. apply Forall_app. now split. }
  assert (Hout : String.eqb (String.concat "/" (init ++ segs)) "" = false)
    by now apply concat_plain_not_empty.
  assert (Hstrip :
    strippedPath (EntryName f) destination (Z.of_nat (length pre))
    = Some outside).
  { unfold destination, outside. rewrite Hname.
    rewrite strippedPath_onto_plain; try assumption;
      [|destruct init; discriminate
       |eapply Forall_impl; [exact Hpre|apply plain_slashfree]
       |discriminate].
    cbv zeta. rewrite rev_app_distr. cbn [rev app clean_segments].
    apply Forall_app in Hdest as [Hinit Hlast].
    apply Forall_cons in Hlast as [(_ & _ & _ & Hlast) _].
    change (String.eqb ".." "" || String.eqb ".." ".") with false.
    change (String.eqb ".." "..") with true. cbv iota.
    rewrite (proj2 (String.eqb_neq last "..") Hlast).
    rewrite clean_segments_plain, rev_involutive by assumption.
    rewrite Hout. f_equal. destruct rooted; reflexivity. }
  split; [exact Hstrip|].
  unfold ExtractTar. cbn [TarEntries TarBroken].
  rewrite extract_loop_placed. cbn [fst app].
  apply in_flat_map. exists f. split; [exact Hin|].
  rewrite strippedPath_nonneg in Hstrip.
  unfold placed.
  destruct (Nat.leb (length (split "/" (EntryName f))) (length pre)).
  { injection Hstrip as Hempty. exfalso. unfold outside in Hempty.
    destruct rooted; [discriminate|].
    change (String.append (rooted_prefix false) ?x) with x in Hempty.
    rewrite <- Hempty in Hout. discriminate. }
  injection Hstrip as ->. unfold create_at.
  assert (Houtside : String.eqb outside "" = false).
  { unfold outside. destruct rooted; [reflexivity|exact Hout]. }
  rewrite Houtside, Hkind. right. now left.
Qed.

(** * The properties of paths on concrete inputs *)

Ltac plain_names :=
  repeat (apply Forall_cons; split;
          [split; [reflexivity|split; [discriminate|split; discriminate]]|]);
  apply Forall_nil; exact I.

Lemma NewDependencyCache_user_agent_witness :
  UserAgent (NewDependencyCache "/tmp" jdk_buildpack)
  = "%s/%s/paketo-buildpacks/adopt-openjdk/1.2.3".
Proof.
  apply (NewDependencyCache_user_agent "/tmp" jdk_buildpack).
  - exists ["paketo-buildpacks"; "adopt-openjdk"].
    split; [discriminate|]. split; [plain_names|reflexivity].
  - exists ["1.2.3"].
    split; [discriminate|]. split; [plain_names|reflexivity].
Defined.

Lemma strippedPath_plain_names_stay_inside_witness :
  strippedPath "a/b/c.txt" "/layers/jdk" 1 = Some "/layers/jdk/b/c.txt".
Proof.
  apply (strippedPath_plain_names_stay_inside true ["layers"; "jdk"] ["a"]
           ["b"; "c.txt"]).
  all: try discriminate.
  all: plain_names.
Defined.

Lemma ExtractTar_dotdot_leaves_destination_witness :
  strippedPath "pkg/../authorized_keys" "/home/cnb" 1
  = Some "/home/authorized_keys"
  /\ In (OpWriteFile "/home/authorized_keys" 420 "key")
       (fst (ExtractTar never (mkTar [c_txt; escaping] false) "/home/cnb" 1)).
Proof.
  apply (ExtractTar_dotdot_leaves_destination true ["home"] "cnb" ["pkg"]
           ["authorized_keys"] escaping [c_txt; escaping]).
  all: try discriminate.
  all: try plain_names.
  all: try reflexivity.
  right. left. reflexivity.
Defined.
